(** * The action runner of [app/lib/runtime/action-runner.ts]

    A shallow embedding of the [ActionRunner] class, of [ActionCommandError]
    and of [cleanConvexOutput], followed by the properties of the runner that
    its specification states.

    The runner is stateful and fallible: its methods are embedded in a small
    state-and-exception monad over a record that holds the action store, the
    abort controllers, the tasks chained on [#currentExecutionPromise], the
    pending tool calls and what the runner emitted (alerts, error logs, shell
    commands).  The sandbox, the shell, the editor and the parsers are
    collaborators: they are fields of one record the development is
    parametrised by.

    Strings are sequences of 8-bit characters; the string functions of the
    source that the runner uses act on them as they do on the code units of
    a JavaScript string.  A callback of the execution chain runs as one step:
    what happens during its [await]s is the abort hook that the shell may
    call.  A [start] strategy is not awaited: the dispatcher sends its
    command to the shell and returns after a fixed delay, and the answer of
    the shell, which comes during that delay or later, is a step of its
    own. *)

From stdpp Require Import base strings gmap list pretty.
From Stdlib Require Import ZArith Ascii.

Local Open Scope string_scope.

(** ** JavaScript strings and errors *)

Module Js.

Definition LF : ascii := "010"%char.
Definition CR : ascii := "013"%char.
Definition nl : string := String LF EmptyString.
Definition cr : string := String CR EmptyString.
Definition crlf : string := String CR nl.

(** [s.startsWith(p)] *)
Fixpoint startsWith (p s : string) : bool :=
  match p, s with
  | EmptyString, _ => true
  | String _ _, EmptyString => false
  | String a p', String b s' => Ascii.eqb a b && startsWith p' s'
  end.

(** [s.slice(n)] for [0 <= n] *)
Fixpoint slice (n : nat) (s : string) : string :=
  match n, s with
  | O, _ => s
  | S _, EmptyString => EmptyString
  | S n', String _ s' => slice n' s'
  end.

(** [s.includes(needle)] *)
Fixpoint includes (needle s : string) : bool :=
  startsWith needle s
  || match s with
     | EmptyString => false
     | String _ s' => includes needle s'
     end.

(** [s.replace(pat, rep)] with a string pattern: only the first occurrence
    of [pat] is replaced ([rep] holds no [$]). *)
Fixpoint replace (pat rep s : string) : string :=
  if startsWith pat s then rep +:+ slice (String.length pat) s
  else match s with
       | EmptyString => EmptyString
       | String c s' => String c (replace pat rep s')
       end.

(** [s.split(sep)] for a separator of one character *)
Fixpoint split (sep : ascii) (s : string) : list string :=
  match s with
  | EmptyString => [EmptyString]
  | String c s' =>
      if Ascii.eqb c sep then EmptyString :: split sep s'
      else match split sep s' with
           | l :: ls => String c l :: ls
           | [] => [String c EmptyString]
           end
  end.

(** [ls.join(sep)] *)
Fixpoint join (sep : string) (ls : list string) : string :=
  match ls with
  | [] => EmptyString
  | [l] => l
  | l :: ls' => l +:+ sep +:+ join sep ls'
  end.

(** The class [\w] of a regular expression without the [u] flag. *)
Definition isWordChar (c : ascii) : bool :=
  let n := nat_of_ascii c in
  ((48 <=? n)%nat && (n <=? 57)%nat) || ((65 <=? n)%nat && (n <=? 90)%nat)
  || ((97 <=? n)%nat && (n <=? 122)%nat) || (n =? 95)%nat.

Definition startsWithWordChar (s : string) : bool :=
  match s with
  | EmptyString => false
  | String c _ => isWordChar c
  end.

(** [s.match(/\bw\b/)] is not null, for a word [w] that starts and ends with
    a word character: [w] occurs in [s] with no word character right before
    it and none right after it.  [prev] tells whether the character before
    [s] is a word character. *)
Fixpoint matchesWord (prev : bool) (w s : string) : bool :=
  (negb prev && startsWith w s
   && negb (startsWithWordChar (slice (String.length w) s)))
  || match s with
     | EmptyString => false
     | String c s' => matchesWord (isWordChar c) w s'
     end.

(** [s.replace(/\/+$/g, '')]: the trailing slashes are dropped. *)
Fixpoint stripTrailingSlashes (s : string) : string :=
  match s with
  | EmptyString => EmptyString
  | String c s' =>
      match stripTrailingSlashes s' with
      | EmptyString => if Ascii.eqb c "/"%char then EmptyString
                       else String c EmptyString
      | r => String c r
      end
  end.

(** What the code throws and catches.  [ActionCommandError] is a class
    private to the module, so that errors raised by collaborators are never
    instances of it: they are [PlainError]s, like the [Error]s the module
    itself creates with [new Error(...)]. *)
Inductive Error :=
| PlainError (name message : string)
| CommandError (message _header _output : string).

Definition name (e : Error) : string :=
  match e with
  | PlainError n _ => n
  | CommandError _ _ _ => "ActionCommandError"
  end.

Definition message (e : Error) : string :=
  match e with
  | PlainError _ m => m
  | CommandError m _ _ => m
  end.

(** [new Error(msg)] *)
Definition newError (msg : string) : Error := PlainError "Error" msg.

(** The [TypeError] of a property read on [undefined]. *)
Definition newTypeError (msg : string) : Error := PlainError "TypeError" msg.

(** [Error.prototype.toString] *)
Definition toString (e : Error) : string :=
  match name e, message e with
  | EmptyString, m => m
  | n, EmptyString => n
  | n, m => n +:+ ": " +:+ m
  end.

(** [x || fallback] on strings: the empty string is falsy. *)
Definition orElse (x fallback : string) : string :=
  match x with
  | EmptyString => fallback
  | _ => x
  end.

End Js.

(** ** [ActionCommandError] *)

(** The constructor of the class: the message is formatted from the header and
    the output, which are also kept as they are. *)
Definition ActionCommandError (message output : string) : Js.Error :=
  let formattedMessage :=
    "Failed To Execute Shell Command: " +:+ message +:+ Js.nl +:+ Js.nl
    +:+ "Output:" +:+ Js.nl +:+ output in
  Js.CommandError formattedMessage message output.

(** [e instanceof ActionCommandError] *)
Definition instanceofActionCommandError (e : Js.Error) : bool :=
  match e with
  | Js.CommandError _ _ _ => true
  | Js.PlainError _ _ => false
  end.

(** The getters [header] and [output]; [undefined] on other errors. *)
Definition header (e : Js.Error) : option string :=
  match e with
  | Js.CommandError _ h _ => Some h
  | Js.PlainError _ _ => None
  end.

Definition output (e : Js.Error) : option string :=
  match e with
  | Js.CommandError _ _ o => Some o
  | Js.PlainError _ _ => None
  end.

(** ** [cleanConvexOutput] *)

Definition BANNED_LINES : list string :=
  [ "Preparing Convex functions...";
    "Checking that documents match your schema...";
    "transforming (";
    "computing gzip size" ].

Definition isBannedLine (line : string) : bool :=
  existsb (fun bannedLine => Js.includes bannedLine line) BANNED_LINES.

Definition cleanConvexOutput (command output : string) : string :=
  if negb (String.eqb command "npm run lint") then output
  else
    let normalizedNewlines :=
      Js.replace Js.cr Js.nl (Js.replace Js.crlf Js.nl output) in
    Js.join Js.nl
      (List.filter (fun line => negb (isBannedLine line))
         (Js.split Js.LF normalizedNewlines)).

(** The cleaning as the specification words it: the lines of the output (as
    it is) without the banned ones, in their order. *)
Definition withoutBannedLines (output : string) : string :=
  Js.join Js.nl
    (List.filter (fun line => negb (isBannedLine line)) (Js.split Js.LF output)).

(** ** The data model *)

Inductive ActionType :=
| shell | npmInstall | npmExec | file | build | start | convex | toolUse.

Inductive ActionStatus := pending | running | complete | aborted | failed.

Global Instance ActionType_eq_dec : EqDecision ActionType.
Proof. solve_decision. Defined.

Global Instance ActionStatus_eq_dec : EqDecision ActionStatus.
Proof. solve_decision. Defined.

(** The tag of an action as the string it is in the source. *)
Definition typeName (t : ActionType) : string :=
  match t with
  | shell => "shell" | npmInstall => "npmInstall" | npmExec => "npmExec"
  | file => "file" | build => "build" | start => "start"
  | convex => "convex" | toolUse => "toolUse"
  end.

(** [BoltAction] of [~/types/actions], with the fields the runner reads. *)
Module BoltAction.
Record t := mk { type : ActionType; content : string; filePath : option string }.
End BoltAction.

(** [ActionCallbackData] of [./message-parser], with the fields the runner
    reads. *)
Record ActionCallbackData := { actionId : string; action : BoltAction.t }.

(** The [abort] closure that [addAction] creates: it captures the abort
    controller and the identifier of the action. *)
Record AbortFn := { abortController : nat; abortTarget : string }.

(** An object of the action store.  [updateAction] builds objects with the
    spread operator, also from [undefined] and from partial updates, so every
    property may be missing; an [ActionStateUpdate] is such an object too.
    [abortSignal] is a reference to an abort controller of the runner. *)
Module ActionState.
Record t := mk {
  type : option ActionType;
  content : option string;
  filePath : option string;
  status : option ActionStatus;
  error : option string;
  executed : option bool;
  abort : option AbortFn;
  abortSignal : option nat
}.

(** [{}] *)
Definition empty : t := mk None None None None None None None None.

Definition over {A} (new old : option A) : option A :=
  match new with
  | Some _ => new
  | None => old
  end.

(** [{ ...o, ...n }] *)
Definition spread (o n : t) : t :=
  mk (over (type n) (type o)) (over (content n) (content o))
     (over (filePath n) (filePath o)) (over (status n) (status o))
     (over (error n) (error o)) (over (executed n) (executed o))
     (over (abort n) (abort o)) (over (abortSignal n) (abortSignal o)).

(** The object of a [BoltAction]. *)
Definition ofBolt (b : BoltAction.t) : t :=
  mk (Some (BoltAction.type b)) (Some (BoltAction.content b))
     (BoltAction.filePath b) None None None None None.

(** The updates the runner writes. *)
Definition withStatus (s : ActionStatus) : t :=
  mk None None None (Some s) None None None None.
Definition withFailure (msg : string) : t :=
  mk None None None (Some failed) (Some msg) None None None.
Definition withContent (c : string) : t :=
  mk None (Some c) None None None None None None.
Definition withExecuted (b : bool) : t :=
  mk None None None None None (Some b) None None.
Definition asShell (c : string) : t :=
  mk (Some shell) (Some c) None None None None None None.

(** An object as [addAction] creates it has every property of
    [BaseActionState]. *)
Definition registered (a : t) : Prop :=
  is_Some (type a) ∧ is_Some (content a) ∧ is_Some (status a)
  ∧ is_Some (executed a) ∧ is_Some (abort a) ∧ is_Some (abortSignal a).
End ActionState.

Module ActionAlert.
Record t := mk { type : string; title : string;
                 description : option string; content : option string }.
End ActionAlert.

Record BuildOutput := { buildPath : string; buildExitCode : Z; buildOutputText : string }.

(** A [PromiseWithResolvers<string>] of the [toolCalls] table. *)
Inductive Future := Unsettled | Resolved (value : string) | Rejected (reason : string).

(** What is chained on [#currentExecutionPromise]: the callback of
    [addAction] that marks an action as running, and the unit of work of
    [runAction], which is [#executeAction] under the [catch] of the chain. *)
Inductive Task :=
| MarkRunning (actionId : string)
| Unit (actionId : string) (isStreaming : bool).

(** What the runner writes with [logger.error] and [console.error]
    ([logger.debug] and [console.log] are left out). *)
Inductive LogEntry :=
| LoggerError (msg : string) (detail : option Js.Error)
| ConsoleError (msg : string) (detail : Js.Error).

(** The calls the runner makes on the sandbox and its tools. *)
Inductive Call :=
| ExecuteCommand (sessionId : string) (command : option string)
| Mkdir (folder : string)
| WriteFile (path : string) (content : option string)
| Spawn (command : string) (args : list string)
| Editor (args : string).

(** ** The collaborators *)

(** How a promise of a collaborator settles.  A collaborator cannot create an
    [ActionCommandError]: it rejects with some other error. *)
Inductive Outcome (A : Type) :=
| Resolves (a : A)
| Rejects (name message : string).
Arguments Resolves {A} a.
Arguments Rejects {A} name message.

Module Shell.
(** [ExecutionResult] of [~/utils/shell]; [executeCommand] may also resolve
    with [undefined]. *)
Record ExecutionResult := { exitCode : Z; output : string }.

(** One run of [executeCommand]: whether the shell called the [onAbort]
    hook while the command ran, and how the promise settled. *)
Record Execution := {
  abortRequested : bool;
  settled : Outcome (option ExecutionResult)
}.

Record BoltShell := {
  ready : Outcome unit;
  terminal : bool;
  process : bool;
  executeCommand : string -> option string -> Execution
}.
End Shell.

Module Sandbox.
Record Process := { output : list string; exit : Z }.

Record WebContainer := {
  workdir : string;
  mkdir : string -> Outcome unit;
  writeFile : string -> option string -> Outcome unit;
  spawn : string -> list string -> Outcome Process
}.
End Sandbox.

Inductive ToolState := StateResult | StatePartialCall | StateCall.

(** [ToolInvocation] of the [ai] package; the arguments are kept as text. *)
Record ToolInvocation := {
  state : ToolState;
  toolCallId : string;
  toolName : string;
  args : string
}.

Record Collaborators := {
  runnerId : string;
  webcontainer : Outcome Sandbox.WebContainer;
  getShellTerminal : Shell.BoltShell;
  relative : string -> option string -> Outcome string;
  dirname : string -> string;
  pathJoin : string -> string -> string;
  JSON_parse : string -> Outcome ToolInvocation;
  editorToolParameters_parse : string -> Outcome string;
  editor : string -> Outcome string;
  bashToolParameters_parse : string -> Outcome string
}.

(** ** The state of the runner *)

Record Runner := {
  actions : gmap string ActionState.t;
  (** the abort controllers created so far; [true] once [abort()] was called *)
  controllers : list bool;
  (** the callbacks chained on [#currentExecutionPromise] that did not run
      yet, in the order in which they will run *)
  chain : list Task;
  (** the [start] strategies whose command was sent to the shell and is not
      answered yet, each with the action object its handlers captured and
      the run of the command *)
  launched : list (string * ActionState.t * Shell.Execution);
  toolCalls : gmap string Future;
  buildOutput : option BuildOutput;
  (** whether an [onAlert] callback was given *)
  onAlert : bool;
  alerts : list ActionAlert.t;
  logged : list LogEntry;
  calls : list Call
}.

Definition setActions (f : gmap string ActionState.t -> gmap string ActionState.t)
    (r : Runner) : Runner :=
  {| actions := f (actions r); controllers := controllers r; chain := chain r;
     launched := launched r; toolCalls := toolCalls r;
     buildOutput := buildOutput r; onAlert := onAlert r; alerts := alerts r;
     logged := logged r; calls := calls r |}.

Definition setControllers (f : list bool -> list bool) (r : Runner) : Runner :=
  {| actions := actions r; controllers := f (controllers r); chain := chain r;
     launched := launched r; toolCalls := toolCalls r;
     buildOutput := buildOutput r; onAlert := onAlert r; alerts := alerts r;
     logged := logged r; calls := calls r |}.

Definition setChain (f : list Task -> list Task) (r : Runner) : Runner :=
  {| actions := actions r; controllers := controllers r; chain := f (chain r);
     launched := launched r; toolCalls := toolCalls r;
     buildOutput := buildOutput r; onAlert := onAlert r; alerts := alerts r;
     logged := logged r; calls := calls r |}.

Definition setLaunched
    (f : list (string * ActionState.t * Shell.Execution)
         -> list (string * ActionState.t * Shell.Execution))
    (r : Runner) : Runner :=
  {| actions := actions r; controllers := controllers r; chain := chain r;
     launched := f (launched r); toolCalls := toolCalls r;
     buildOutput := buildOutput r; onAlert := onAlert r; alerts := alerts r;
     logged := logged r; calls := calls r |}.

Definition setToolCalls (f : gmap string Future -> gmap string Future)
    (r : Runner) : Runner :=
  {| actions := actions r; controllers := controllers r; chain := chain r;
     launched := launched r; toolCalls := f (toolCalls r);
     buildOutput := buildOutput r; onAlert := onAlert r; alerts := alerts r;
     logged := logged r; calls := calls r |}.

Definition setBuildOutput (b : option BuildOutput) (r : Runner) : Runner :=
  {| actions := actions r; controllers := controllers r; chain := chain r;
     launched := launched r; toolCalls := toolCalls r;
     buildOutput := b; onAlert := onAlert r; alerts := alerts r;
     logged := logged r; calls := calls r |}.

Definition setAlerts (f : list ActionAlert.t -> list ActionAlert.t) (r : Runner) : Runner :=
  {| actions := actions r; controllers := controllers r; chain := chain r;
     launched := launched r; toolCalls := toolCalls r;
     buildOutput := buildOutput r; onAlert := onAlert r; alerts := f (alerts r);
     logged := logged r; calls := calls r |}.

Definition setLogged (f : list LogEntry -> list LogEntry) (r : Runner) : Runner :=
  {| actions := actions r; controllers := controllers r; chain := chain r;
     launched := launched r; toolCalls := toolCalls r;
     buildOutput := buildOutput r; onAlert := onAlert r; alerts := alerts r;
     logged := f (logged r); calls := calls r |}.

Definition setCalls (f : list Call -> list Call) (r : Runner) : Runner :=
  {| actions := actions r; controllers := controllers r; chain := chain r;
     launched := launched r; toolCalls := toolCalls r;
     buildOutput := buildOutput r; onAlert := onAlert r; alerts := alerts r;
     logged := logged r; calls := f (calls r) |}.

(** The runner right after its constructor. *)
Definition newRunner (toolCalls0 : gmap string Future) (onAlert0 : bool) : Runner :=
  {| actions := ∅; controllers := []; chain := []; launched := [];
     toolCalls := toolCalls0; buildOutput := None; onAlert := onAlert0;
     alerts := []; logged := []; calls := [] |}.

(** ** The monad of the methods: state and exceptions *)

Inductive Completion (A : Type) :=
| Normal (a : A)
| Throw (e : Js.Error).
Arguments Normal {A} a.
Arguments Throw {A} e.

Definition M (A : Type) : Type := Runner -> Completion A * Runner.

Definition ret {A} (a : A) : M A := fun r => (Normal a, r).

Definition throw {A} (e : Js.Error) : M A := fun r => (Throw e, r).

Definition bind {A B} (m : M A) (k : A -> M B) : M B :=
  fun r =>
    match m r with
    | (Normal a, r') => k a r'
    | (Throw e, r') => (Throw e, r')
    end.

(** [try { m } catch (e) { h e }] *)
Definition tryCatch {A} (m : M A) (h : Js.Error -> M A) : M A :=
  fun r =>
    match m r with
    | (Normal a, r') => (Normal a, r')
    | (Throw e, r') => h e r'
    end.

(** A promise that nobody awaits: when it is rejected, the rejection is
    unhandled and reaches no [catch] of the runner. *)
Definition detached (m : M unit) : M unit := tryCatch m (fun _ => ret tt).

Definition get : M Runner := fun r => (Normal r, r).

Definition modify (f : Runner -> Runner) : M unit := fun r => (Normal tt, f r).

Notation "'let*' x ':=' m 'in' k" := (bind m (fun x => k))
  (at level 10, x name, m at level 100, k at level 200).
Notation "m ';;;' k" := (bind m (fun _ => k))
  (at level 100, k at level 200, right associativity).

(** [await p] on a promise of a collaborator *)
Definition await {A} (p : Outcome A) : M A :=
  match p with
  | Resolves a => ret a
  | Rejects n m => throw (Js.PlainError n m)
  end.

Definition result {A} (c : Completion A * Runner) : Completion A := fst c.
Definition after {A} (c : Completion A * Runner) : Runner := snd c.

(** Modelled from the spec: [unreachable] of [~/utils/unreachable] is not
    among the sources; the specification calls it the unreachable, defensive
    trap, and the code relies on it never returning (the action is used right
    after the call as if it were defined).  It raises an error with the
    message it is given. *)
Definition unreachable {A} (msg : string) : M A := throw (Js.newError msg).

(** A property read on a value that may be [undefined]. *)
Definition readProp {A B} (o : option A) (prop : string) (f : A -> B) : M B :=
  match o with
  | Some a => ret (f a)
  | None =>
      throw (Js.newTypeError
               ("Cannot read properties of undefined (reading '" +:+ prop +:+ "')"))
  end.

Definition loggerError (msg : string) (detail : option Js.Error) : M unit :=
  modify (setLogged (fun l => (l ++ [LoggerError msg detail])%list)).

Definition consoleError (msg : string) (detail : Js.Error) : M unit :=
  modify (setLogged (fun l => (l ++ [ConsoleError msg detail])%list)).

Definition called (c : Call) : M unit := modify (setCalls (fun l => (l ++ [c])%list)).

(** [signal.aborted] for the signal of controller [k] *)
Definition signalAborted (r : Runner) (k : nat) : bool :=
  default false (controllers r !! k).

(** ** The methods of [ActionRunner] *)

(** [updateAction(id, newState)] *)
Definition updateAction (id : string) (newState : ActionState.t) : M unit :=
  modify (fun r =>
    setActions
      <[id := ActionState.spread (default ActionState.empty (actions r !! id)) newState]>
      r).

(** A call of the [abort] closure of an action. *)
Definition callAbort (f : AbortFn) : M unit :=
  modify (setControllers <[abortController f := true]>) ;;;
  updateAction (abortTarget f) (ActionState.withStatus aborted).

(** [action.abort()] from outside, on the action stored under [id]. *)
Definition abortAction (id : string) : M unit :=
  let* r := get in
  let* a := readProp (actions r !! id) "abort" ActionState.abort in
  match a with
  | Some f => callAbort f
  | None => throw (Js.newTypeError "action.abort is not a function")
  end.

(** [addAction(data)] *)
Definition addAction (data : ActionCallbackData) : M unit :=
  let* r := get in
  match actions r !! actionId data with
  | Some a =>
      if decide (ActionState.content a ≠ Some (BoltAction.content (action data)))
      then updateAction (actionId data)
             (ActionState.spread a
                (ActionState.withContent (BoltAction.content (action data))))
      else ret tt
  | None =>
      let k := length (controllers r) in
      modify (setControllers (fun l => (l ++ [false])%list)) ;;;
      modify (setActions
                <[actionId data :=
                    ActionState.spread (ActionState.ofBolt (action data))
                      (ActionState.mk None None None (Some pending) None (Some false)
                         (Some {| abortController := k; abortTarget := actionId data |})
                         (Some k))]>) ;;;
      modify (setChain (fun c => (c ++ [MarkRunning (actionId data)])%list))
  end.

(** [runAction(data, isStreaming)] up to its [await]: the checks, the update
    of the store and the unit of work chained on [#currentExecutionPromise].
    The result tells whether the call goes on to the [await], which the two
    early [return]s skip. *)
Definition runActionSync (data : ActionCallbackData) (isStreaming : bool) : M bool :=
  let* r := get in
  match actions r !! actionId data with
  | None => unreachable ("Action " +:+ actionId data +:+ " not found")
  | Some a =>
      if decide (ActionState.executed a = Some true) then ret false
      else if isStreaming && negb (bool_decide (ActionState.type a = Some file))
      then ret false
      else
        updateAction (actionId data)
          (ActionState.spread
             (ActionState.spread a (ActionState.ofBolt (action data)))
             (ActionState.withExecuted (negb isStreaming))) ;;;
        modify (setChain (fun c => (c ++ [Unit (actionId data) isStreaming])%list)) ;;;
        ret true
  end.

Section Strategies.

Variable env : Collaborators.

(** [shell.executeCommand(this.runnerId.get(), command, onAbort)] where
    [onAbort] calls [action.abort()]: the hook runs when the shell asks for
    it, then the promise settles.  On an object without [abort] the hook
    fails inside the shell, with no effect on the runner. *)
Definition executeCommand (sh : Shell.BoltShell) (a : ActionState.t)
    (command : option string) : M (option Shell.ExecutionResult) :=
  called (ExecuteCommand (runnerId env) command) ;;;
  let run := Shell.executeCommand sh (runnerId env) command in
  (if Shell.abortRequested run
   then match ActionState.abort a with
        | Some f => callAbort f
        | None => ret tt
        end
   else ret tt) ;;;
  await (Shell.settled run).

(** [resp?.exitCode] and [resp?.output] *)
Definition exitCodeOf (resp : option Shell.ExecutionResult) : option Z :=
  Shell.exitCode <$> resp.
Definition outputOf (resp : option Shell.ExecutionResult) : option string :=
  Shell.output <$> resp.

(** [resp?.output || fallback] *)
Definition outputOr (resp : option Shell.ExecutionResult) (fallback : string) : string :=
  match outputOf resp with
  | Some o => Js.orElse o fallback
  | None => fallback
  end.

(** [#runShellAction(action)] *)
Definition runShellAction (a : ActionState.t) : M unit :=
  if decide (ActionState.type a ≠ Some shell)
  then unreachable "Expected shell action"
  else
    let sh := getShellTerminal env in
    await (Shell.ready sh) ;;;
    if negb (Shell.terminal sh) || negb (Shell.process sh)
    then unreachable "Shell terminal not found"
    else
      let* resp := executeCommand sh a (ActionState.content a) in
      if decide (exitCodeOf resp ≠ Some 0%Z)
      then throw (ActionCommandError "Failed To Execute Shell Command"
                    (outputOr resp "No Output Available"))
      else ret tt.

(** The command of an [npmInstall] action without its [npm install] or
    [npm i] prefix. *)
Definition normalizedCommand (content : string) : string :=
  if Js.startsWith "npm install" content
  then Js.slice (String.length "npm install") content
  else if Js.startsWith "npm i" content
  then Js.slice (String.length "npm i") content
  else content.

(** [#runNpmInstallAction(action)] *)
Definition runNpmInstallAction (a : ActionState.t) : M unit :=
  if decide (ActionState.type a ≠ Some npmInstall)
  then unreachable "Expected npmInstall action"
  else
    let* content := readProp (ActionState.content a) "startsWith" id in
    let normalized := normalizedCommand content in
    if Js.matchesWord false "convex" normalized
    then loggerError "Convex is already installed" None
    else runShellAction
           (ActionState.spread a (ActionState.asShell ("npm install " +:+ normalized))).

(** [#runNpmExecAction(action)] *)
Definition runNpmExecAction (a : ActionState.t) : M unit :=
  if decide (ActionState.type a ≠ Some npmExec)
  then unreachable "Expected npmExec action"
  else
    let* content := readProp (ActionState.content a) "startsWith" id in
    if negb (Js.startsWith "npm run " content) && negb (Js.startsWith "npx " content)
    then loggerError ("Invalid npmExec action: " +:+ content) None
    else if Js.matchesWord false "convex" content
    then loggerError "Convex should be run as a tool call" None
    else if String.eqb content "npm run dev"
    then loggerError "Dev server should be run as a tool call" None
    else runShellAction (ActionState.spread a (ActionState.asShell content)).

(** [#runStartAction(action)] *)
Definition runStartAction (a : ActionState.t) : M (option Shell.ExecutionResult) :=
  if decide (ActionState.type a ≠ Some start)
  then unreachable "Expected shell action"
  else
    let sh := getShellTerminal env in
    await (Shell.ready sh) ;;;
    if negb (Shell.terminal sh) || negb (Shell.process sh)
    then unreachable "Shell terminal not found"
    else
      let* resp := executeCommand sh a (ActionState.content a) in
      if decide (exitCodeOf resp ≠ Some 0%Z)
      then throw (ActionCommandError "Failed To Start Application"
                    (outputOr resp "No Output Available"))
      else ret resp.

(** [#runFileAction(action)] *)
Definition runFileAction (a : ActionState.t) : M unit :=
  if decide (ActionState.type a ≠ Some file)
  then unreachable "Expected file action"
  else
    let* wc := await (webcontainer env) in
    let* relativePath :=
      await (relative env (Sandbox.workdir wc) (ActionState.filePath a)) in
    let folder := Js.stripTrailingSlashes (dirname env relativePath) in
    (if negb (String.eqb folder ".")
     then tryCatch
            (called (Mkdir folder) ;;; await (Sandbox.mkdir wc folder))
            (fun e => loggerError ("Failed to create folder" +:+ Js.nl +:+ Js.nl) (Some e))
     else ret tt) ;;;
    tryCatch
      (called (WriteFile relativePath (ActionState.content a)) ;;;
       await (Sandbox.writeFile wc relativePath (ActionState.content a)))
      (fun e => loggerError ("Failed to write file" +:+ Js.nl +:+ Js.nl) (Some e)).

(** [#runBuildAction(action)] *)
Definition runBuildAction (a : ActionState.t) : M BuildOutput :=
  if decide (ActionState.type a ≠ Some build)
  then unreachable "Expected build action"
  else
    let* wc := await (webcontainer env) in
    called (Spawn "npm" ["run"; "build"]) ;;;
    let* buildProcess := await (Sandbox.spawn wc "npm" ["run"; "build"]) in
    let output := foldl String.append EmptyString (Sandbox.output buildProcess) in
    let exitCode := Sandbox.exit buildProcess in
    if decide (exitCode ≠ 0%Z)
    then throw (ActionCommandError "Build Failed"
                  (Js.orElse output "No Output Available"))
    else ret {| buildPath := pathJoin env (Sandbox.workdir wc) "dist";
                buildExitCode := exitCode;
                buildOutputText := output |}.

(** [resolvers.resolve(value)]: a promise settles once, later calls have no
    effect. *)
Definition resolveToolCall (callId value : string) : M unit :=
  modify (setToolCalls (fun t =>
    match t !! callId with
    | Some Unsettled => <[callId := Resolved value]> t
    | _ => t
    end)).

(** The entry of [callId] in [toolCalls], created when it is missing. *)
Definition getResolvers (callId : string) : M unit :=
  modify (setToolCalls (fun t =>
    match t !! callId with
    | Some _ => t
    | None => <[callId := Unsettled]> t
    end)).

(** The text of [${resp?.exitCode}] and of [${resp?.output}] in a template *)
Definition showExitCode (resp : option Shell.ExecutionResult) : string :=
  match exitCodeOf resp with
  | Some c => pretty c
  | None => "undefined"
  end.
Definition showOutput (resp : option Shell.ExecutionResult) : string :=
  default "undefined" (outputOf resp).

(** [_runShellCommand(command, onAbort)], where [onAbort] calls the [abort]
    of action [a] *)
Definition _runShellCommand (a : ActionState.t) (command : string) : M string :=
  let sh := getShellTerminal env in
  await (Shell.ready sh) ;;;
  let* resp := executeCommand sh a (Some command) in
  if decide (exitCodeOf resp ≠ Some 0%Z)
  then throw (Js.newError
                ("Process exited with code " +:+ showExitCode resp +:+ ": "
                 +:+ cleanConvexOutput command (outputOr resp EmptyString)))
  else ret (outputOr resp EmptyString).

(** The [switch (parsed.toolName)] of [#runToolUseAction]: the tool
    dispatch, which gives the result of the tool. *)
Definition dispatchTool (a : ActionState.t) (parsed : ToolInvocation) : M string :=
  if String.eqb (toolName parsed) "str_replace_editor" then
    let* args := await (editorToolParameters_parse env (args parsed)) in
    await (webcontainer env) ;;;
    called (Editor args) ;;;
    await (editor env args)
  else if String.eqb (toolName parsed) "bash" then
    let* command := await (bashToolParameters_parse env (args parsed)) in
    if (String.length command =? 0)%nat
    then throw (Js.newError "A nonempty command is required")
    else
      let sh := getShellTerminal env in
      await (Shell.ready sh) ;;;
      let* resp := executeCommand sh a (Some command) in
      if decide (exitCodeOf resp ≠ Some 0%Z)
      then throw (Js.newError
                    ("Process exited with code " +:+ showExitCode resp +:+ ": "
                     +:+ showOutput resp))
      else ret (outputOr resp EmptyString)
  else if String.eqb (toolName parsed) "deploy" then
    _runShellCommand a "npx convex dev --once"
  else throw (Js.newError ("Unknown tool: " +:+ toolName parsed)).

(** The message the bridge answers with when the tool raised [e]. *)
Definition errorMessage (e : Js.Error) : string :=
  let message := Js.toString e in
  if negb (Js.startsWith "Error:" message) then "Error: " +:+ message
  else message.

(** The [try]/[catch] of [#runToolUseAction] around the tool dispatch. *)
Definition bridgeTool (a : ActionState.t) (parsed : ToolInvocation) : M unit :=
  tryCatch
    (let* result := dispatchTool a parsed in
     resolveToolCall (toolCallId parsed) result)
    (fun e =>
       consoleError "Error on tool call" e ;;;
       resolveToolCall (toolCallId parsed) (errorMessage e) ;;;
       throw e).

(** [#runToolUseAction(actionId, action)] *)
Definition runToolUseAction (a : ActionState.t) : M unit :=
  let* parsed :=
    await (JSON_parse env (default "undefined" (ActionState.content a))) in
  match state parsed with
  | StateResult => ret tt
  | StatePartialCall => throw (Js.newError "Tool call is still in progress")
  | StateCall =>
      getResolvers (toolCallId parsed) ;;;
      bridgeTool a parsed
  end.

(** [action.abortSignal.aborted] *)
Definition abortSignalAborted (action : option ActionState.t) : M bool :=
  let* signal := readProp action "abortSignal" ActionState.abortSignal in
  let* k := readProp signal "aborted" id in
  let* r := get in
  ret (signalAborted r k).

(** [#runStartAction(action)] in two parts, as a caller that does not await
    it sees it: up to the call of [shell.executeCommand], whose run it
    gives, ... *)
Definition startCommand (a : ActionState.t) : M Shell.Execution :=
  if decide (ActionState.type a ≠ Some start)
  then unreachable "Expected shell action"
  else
    let sh := getShellTerminal env in
    await (Shell.ready sh) ;;;
    if negb (Shell.terminal sh) || negb (Shell.process sh)
    then unreachable "Shell terminal not found"
    else
      called (ExecuteCommand (runnerId env) (ActionState.content a)) ;;;
      ret (Shell.executeCommand sh (runnerId env) (ActionState.content a)).

(** ... and from the answer of the shell on: the abort hook, when the shell
    asked for it while the command ran, then the check of the exit code. *)
Definition startAnswer (a : ActionState.t) (run : Shell.Execution)
    : M (option Shell.ExecutionResult) :=
  (if Shell.abortRequested run
   then match ActionState.abort a with
        | Some f => callAbort f
        | None => ret tt
        end
   else ret tt) ;;;
  let* resp := await (Shell.settled run) in
  if decide (exitCodeOf resp ≠ Some 0%Z)
  then throw (ActionCommandError "Failed To Start Application"
                (outputOr resp "No Output Available"))
  else ret resp.

(** [this.onAlert?.(...)] with the alert of a failed command *)
Definition alertOf (e : Js.Error) : ActionAlert.t :=
  ActionAlert.mk "error" "Dev Server Failed" (header e) (output e).

Definition callOnAlert (e : Js.Error) : M unit :=
  modify (fun r =>
    if onAlert r then setAlerts (fun l => (l ++ [alertOf e])%list) r else r).

Definition failedMessage (a : option ActionState.t) : string :=
  "[" +:+ default "undefined" (typeName <$> (a ≫= ActionState.type))
  +:+ "]:Action failed" +:+ Js.nl +:+ Js.nl.

(** The [catch] block of [#executeAction]. *)
Definition executeActionCatch (actionId : string) (action : option ActionState.t)
    (error : Js.Error) : M unit :=
  let* isAborted := abortSignalAborted action in
  if isAborted then ret tt
  else
    updateAction actionId (ActionState.withFailure "Action failed") ;;;
    loggerError (failedMessage action) (Some error) ;;;
    if negb (instanceofActionCommandError error) then ret tt
    else
      callOnAlert error ;;;
      throw error.

(** The [catch] handler on the promise of a [start] strategy. *)
Definition startCatch (actionId : string) (action : ActionState.t)
    (err : Js.Error) : M unit :=
  let* isAborted := abortSignalAborted (Some action) in
  if isAborted then ret tt
  else
    updateAction actionId (ActionState.withFailure "Action failed") ;;;
    loggerError (failedMessage (Some action)) (Some err) ;;;
    if negb (instanceofActionCommandError err) then ret tt
    else callOnAlert err.

(** The [switch (action.type)] of [#executeAction]: the strategy of the
    action.  The result is [false] for a [start] action, whose case returns
    from [#executeAction] after its delay.  That case calls
    [#runStartAction] at once and does not await it: the strategy runs up to
    its command, which is sent to the shell, and a strategy that fails
    before that has its [catch] handler run right away; the promise with its
    handlers is detached from the dispatcher.  The answer of the shell
    settles the promise later ([settleStart]), during the delay or after;
    as the dispatcher does nothing after the delay but return, a settlement
    during the delay is the one that comes right after the dispatcher. *)
Definition runStrategy (actionId : string) (a : ActionState.t) : M bool :=
  match ActionState.type a with
  | Some shell =>
      loggerError "Convex action is not supported anymore. Use tool calls instead." None ;;;
      runShellAction a ;;; ret true
  | Some npmInstall => runNpmInstallAction a ;;; ret true
  | Some npmExec => runNpmExecAction a ;;; ret true
  | Some file => runFileAction a ;;; ret true
  | Some build =>
      let* out := runBuildAction a in
      modify (setBuildOutput (Some out)) ;;; ret true
  | Some start =>
      detached
        (tryCatch
           (let* run := startCommand a in
            modify (setLaunched (fun l => (l ++ [(actionId, a, run)])%list)))
           (startCatch actionId a)) ;;;
      ret false
  | Some convex =>
      loggerError "Convex action is not supported anymore. Use tool calls instead." None ;;;
      ret true
  | Some toolUse => runToolUseAction a ;;; ret true
  | None => ret true
  end.

(** [#executeAction(actionId, isStreaming)] *)
Definition executeAction (actionId : string) (isStreaming : bool) : M unit :=
  let* r := get in
  let action := actions r !! actionId in
  updateAction actionId (ActionState.withStatus running) ;;;
  tryCatch
    (let* a := readProp action "type" id in
     let* finished := runStrategy actionId a in
     if negb finished then ret tt
     else if isStreaming
     then updateAction actionId (ActionState.withStatus running)
     else
       let* isAborted := abortSignalAborted action in
       updateAction actionId
         (ActionState.withStatus (if isAborted then aborted else complete)))
    (executeActionCatch actionId action).

(** The shell answers the oldest [start] command that is not answered yet:
    the strategy goes on from there, its promise settles and the [then] or
    the [catch] handler runs. *)
Definition settleStart : M unit :=
  let* r := get in
  match launched r with
  | [] => ret tt
  | (actionId, a, run) :: rest =>
      modify (setLaunched (fun _ => rest)) ;;;
      detached
        (tryCatch
           (startAnswer a run ;;;
            updateAction actionId (ActionState.withStatus complete))
           (startCatch actionId a))
  end.

(** ** The execution chain *)

(** A callback chained on [#currentExecutionPromise] runs.  The unit of work
    of [runAction] is [#executeAction] followed by the [catch] of the chain,
    which logs. *)
Definition runTask (t : Task) : M unit :=
  match t with
  | MarkRunning actionId => updateAction actionId (ActionState.withStatus running)
  | Unit actionId isStreaming =>
      tryCatch (executeAction actionId isStreaming)
        (fun error => consoleError "Action failed:" error)
  end.

(** The first callback of the chain runs. *)
Definition step : M unit :=
  let* r := get in
  match chain r with
  | [] => ret tt
  | t :: rest => modify (setChain (fun _ => rest)) ;;; runTask t
  end.

Fixpoint steps (n : nat) : M unit :=
  match n with
  | O => ret tt
  | S n' => step ;;; steps n'
  end.

(** [await this.#currentExecutionPromise]: the callbacks chained so far run,
    one after the other. *)
Definition drain : M unit :=
  let* r := get in
  steps (length (chain r)).

(** [runAction(data, isStreaming)] *)
Definition runAction (data : ActionCallbackData) (isStreaming : bool) : M unit :=
  let* queued := runActionSync data isStreaming in
  if queued then drain else ret tt.

End Strategies.

(** The status under which the store holds action [id]. *)
Definition statusOf (r : Runner) (id : string) : option ActionStatus :=
  actions r !! id ≫= ActionState.status.

(** ** The file history *)

(** What the history methods ask of their surroundings: [fs.readFile] of the
    sandbox, which takes the path and the encoding and changes nothing, and
    [JSON.parse] and [JSON.stringify] on a [FileHistory], whose type [H] is
    left open.  [JSON.parse] gives whatever value the text holds, which is
    [null] ([None]) for the text [null]. *)
Record HistoryStore (H : Type) := {
  readFile : Sandbox.WebContainer -> string -> string -> Outcome string;
  JSON_parseHistory : string -> Outcome (option H);
  JSON_stringify : H -> string
}.

Arguments readFile {H}.
Arguments JSON_parseHistory {H}.
Arguments JSON_stringify {H}.

(** [#getHistoryPath(filePath)] *)
Definition getHistoryPath (env : Collaborators) (filePath : string) : string :=
  pathJoin env ".history" filePath.

(** [getFileHistory(filePath)]; [None] is [null]. *)
Definition getFileHistory {H} (env : Collaborators) (io : HistoryStore H)
    (filePath : string) : M (option H) :=
  tryCatch
    (let* wc := await (webcontainer env) in
     let historyPath := getHistoryPath env filePath in
     let* content := await (readFile io wc historyPath "utf-8") in
     await (JSON_parseHistory io content))
    (fun error =>
       loggerError "Failed to get file history:" (Some error) ;;;
       ret None).

(** [saveFileHistory(filePath, history)]: the object handed to the file
    strategy has a type, a path and a content ([changeSource] is not read). *)
Definition saveFileHistory {H} (env : Collaborators) (io : HistoryStore H)
    (filePath : string) (history : H) : M unit :=
  let historyPath := getHistoryPath env filePath in
  runFileAction env
    (ActionState.mk (Some file) (Some (JSON_stringify io history))
       (Some historyPath) None None None None None).

(** ** Word boundaries *)

(** Whether the character before the end of [s] is a word character, [prev]
    telling it for the character before [s]. *)
Fixpoint endsWithWordChar (prev : bool) (s : string) : bool :=
  match s with
  | EmptyString => prev
  | String c s' => endsWithWordChar (Js.isWordChar c) s'
  end.

(** What a match of [/\bw\b/] in [s] is, for a word [w] that starts and ends
    with a word character: [w] stands in [s] between a text that does not end
    with a word character and a text that does not start with one. *)
Definition wordOccurs (prev : bool) (w s : string) : Prop :=
  exists pre post,
    s = pre +:+ w +:+ post
    /\ endsWithWordChar prev pre = false
    /\ Js.startsWithWordChar post = false.

(** ** Notions for the proofs *)

(** A method leaves a component [f] of the runner as it is. *)
Definition preserves {A B} (f : Runner -> B) (m : M A) : Prop :=
  forall r, f (after (m r)) = f r.

(** A method raises only errors that satisfy [P]. *)
Definition raisesOnly {A} (P : Js.Error -> Prop) (m : M A) : Prop :=
  forall r e r', m r = (Throw e, r') -> P e.

(** The message of a classified error is the one its constructor formats from
    the header and the output. *)
Definition formatted (e : Js.Error) : Prop :=
  forall h o, header e = Some h -> output e = Some o ->
    Js.message e
    = "Failed To Execute Shell Command: " +:+ h +:+ Js.nl +:+ Js.nl
      +:+ "Output:" +:+ Js.nl +:+ o.

(** The runner after the [catch] block of the dispatcher, or the [catch]
    handler of a [start] strategy, recorded the failure [e] of the action
    [id], whose object was [action] when it was dispatched. *)
Definition recordFailure (id : string) (action : option ActionState.t)
    (e : Js.Error) (r : Runner) : Runner :=
  let r1 := after (updateAction id (ActionState.withFailure "Action failed") r) in
  let r2 := after (loggerError (failedMessage action) (Some e) r1) in
  if instanceofActionCommandError e then after (callOnAlert e r2) else r2.

(** An error that is not an instance of [ActionCommandError]. *)
Definition unclassified (e : Js.Error) : Prop :=
  instanceofActionCommandError e = false.

(** What [#runFileAction] logs for a step of the sandbox that failed. *)
Definition failureLog (msg : string) (o : Outcome unit) : list LogEntry :=
  match o with
  | Resolves _ => []
  | Rejects n m => [LoggerError (msg +:+ Js.nl +:+ Js.nl) (Some (Js.PlainError n m))]
  end.

(** A method keeps a property of the runner. *)
Definition keeps {A} (P : Runner -> Prop) (m : M A) : Prop :=
  forall r, P r -> P (after (m r)).

(** ** Runs of the runner *)

(** What happens to a runner: the calls of its producer and of its
    observers ([addAction], [runAction] as a whole or up to its [await], the
    [abort] of an action, [updateAction], which is public), and the progress
    of its promises (a callback of the chain runs, the chain drains, the
    shell answers a [start] command). *)
Inductive Event :=
| Register (data : ActionCallbackData)
| Commit (data : ActionCallbackData) (isStreaming : bool)
| Enqueue (data : ActionCallbackData) (isStreaming : bool)
| Abort (actionId : string)
| Update (actionId : string) (newState : ActionState.t)
| Step
| Drain
| SettleStart.

Definition perform (env : Collaborators) (ev : Event) : M unit :=
  match ev with
  | Register data => addAction data
  | Commit data isStreaming => runAction env data isStreaming
  | Enqueue data isStreaming => runActionSync data isStreaming ;;; ret tt
  | Abort id => abortAction id
  | Update id newState => updateAction id newState
  | Step => step env
  | Drain => drain env
  | SettleStart => settleStart
  end.

(** The runner after the events [evs], in turn; an event that raises leaves
    the runner as it was when it raised. *)
Definition performAll (env : Collaborators) (evs : list Event) (r : Runner) : Runner :=
  foldl (fun r ev => after (perform env ev r)) r evs.

(** The calls of [updateAction] from outside, among the events [evs], all
    pass objects that satisfy [allowed]. *)
Definition updatesWith (allowed : ActionState.t -> Prop) (evs : list Event) : Prop :=
  Forall (fun ev => match ev with
                    | Update _ newState => allowed newState
                    | _ => True
                    end) evs.

(** The abort closures and signals of the store are those [addAction] made:
    the closure of an action aims at this action and fires the controller of
    its signal, the controller exists, and no two actions share one. *)
Definition ownControllers (r : Runner) : Prop :=
  (forall id a f, actions r !! id = Some a -> ActionState.abort a = Some f ->
     abortTarget f = id /\ ActionState.abortSignal a = Some (abortController f))
  /\ (forall id a k, actions r !! id = Some a -> ActionState.abortSignal a = Some k ->
       k < length (controllers r))
  /\ (forall id id' a a' k,
       actions r !! id = Some a -> actions r !! id' = Some a' ->
       ActionState.abortSignal a = Some k -> ActionState.abortSignal a' = Some k ->
       id = id').

(** ** Collaborators for the examples *)

Module Fixture.

(** A shell that is ready and answers every command with the same exit code
    and output; [hook] tells whether it calls [onAbort] meanwhile. *)
Definition shellWith (code : Z) (out : string) (hook : bool) : Shell.BoltShell :=
  {| Shell.ready := Resolves tt;
     Shell.terminal := true;
     Shell.process := true;
     Shell.executeCommand := fun _ _ =>
       {| Shell.abortRequested := hook;
          Shell.settled :=
            Resolves (Some {| Shell.exitCode := code; Shell.output := out |}) |} |}.

(** A sandbox whose build prints [chunks] and exits with [code]. *)
Definition sandboxWith (chunks : list string) (code : Z) : Sandbox.WebContainer :=
  {| Sandbox.workdir := "/home/project";
     Sandbox.mkdir := fun _ => Resolves tt;
     Sandbox.writeFile := fun _ _ => Resolves tt;
     Sandbox.spawn := fun _ _ =>
       Resolves {| Sandbox.output := chunks; Sandbox.exit := code |} |}.

(** Every tool-use content parses to a call [call-1] of [tool], with the
    content as its arguments. *)
Definition envWith (sh : Shell.BoltShell) (wc : Sandbox.WebContainer)
    (tool : string) : Collaborators :=
  {| runnerId := "1700000000000";
     webcontainer := Resolves wc;
     getShellTerminal := sh;
     relative := fun _ p => Resolves (default "undefined" p);
     dirname := fun _ => ".";
     pathJoin := fun a b => a +:+ "/" +:+ b;
     JSON_parse := fun s =>
       Resolves {| state := StateCall; toolCallId := "call-1";
                   toolName := tool; args := s |};
     editorToolParameters_parse := fun s => Resolves s;
     editor := fun s => Resolves s;
     bashToolParameters_parse := fun s => Resolves s |}.

Definition env (code : Z) (out : string) (hook : bool) : Collaborators :=
  envWith (shellWith code out hook) (sandboxWith [out] code) "bash".

Definition data (id : string) (t : ActionType) (content : string) : ActionCallbackData :=
  {| actionId := id; action := BoltAction.mk t content None |}.

(** A fresh runner with an [onAlert] callback. *)
Definition runner : Runner := newRunner ∅ true.

(** The runner after the methods [ms] ran in turn, whatever they returned. *)
Definition run (ms : list (M unit)) (r : Runner) : Runner :=
  foldl (fun r m => after (m r)) r ms.

End Fixture.

(** * Properties *)

(** ** Strings *)

Lemma append_cons (c : ascii) (p s : string) :
  String c p +:+ s = String c (p +:+ s).
Proof. reflexivity. Qed.

Lemma append_nil (s : string) : EmptyString +:+ s = s.
Proof. reflexivity. Qed.

Lemma startsWith_app (p s : string) : Js.startsWith p (p +:+ s) = true.
Proof.
  induction p as [|c p IH]; [done|].
  rewrite append_cons. simpl. by rewrite Ascii.eqb_refl, IH.
Qed.

Lemma startsWith_inv (p s : string) :
  Js.startsWith p s = true -> s = p +:+ Js.slice (String.length p) s.
Proof.
  revert s; induction p as [|c p IH]; intros [|d s]; simpl; try done.
  intros [Hc Hp]%andb_prop. apply Ascii.eqb_eq in Hc as ->.
  rewrite append_cons. f_equal. by apply IH.
Qed.

Lemma slice_app (p s : string) : Js.slice (String.length p) (p +:+ s) = s.
Proof.
  induction p as [|c p IH]; [by destruct s|].
  rewrite append_cons. simpl. done.
Qed.

(** A string without carriage return is left as it is by the two
    replacements of [cleanConvexOutput]. *)
Lemma replace_absent (c : ascii) (rest rep s : string) :
  Js.includes (String c EmptyString) s = false ->
  Js.replace (String c rest) rep s = s.
Proof.
  induction s as [|d s IH]; simpl; [done|].
  destruct (Ascii.eqb c d) eqn:Hcd; simpl; [done|].
  intros H. by rewrite IH.
Qed.

Lemma split_cons_inv (sep : ascii) (s : string) : Js.split sep s <> [].
Proof.
  destruct s as [|c s]; simpl; [done|].
  destruct (Ascii.eqb c sep); [done|]. by destruct (Js.split sep s).
Qed.

(** A line without line feed is one line. *)
Lemma split_line (sep : ascii) (l : string) :
  Js.includes (String sep EmptyString) l = false -> Js.split sep l = [l].
Proof.
  induction l as [|c l IH]; simpl; [done|].
  rewrite (Ascii.eqb_sym c sep).
  destruct (Ascii.eqb sep c); simpl; [done|].
  intros H. by rewrite IH.
Qed.

Lemma split_app (sep : ascii) (l s : string) :
  Js.includes (String sep EmptyString) l = false ->
  Js.split sep (l +:+ String sep s) = l :: Js.split sep s.
Proof.
  induction l as [|c l IH].
  - intros _. rewrite append_nil. simpl. by rewrite Ascii.eqb_refl.
  - rewrite append_cons. simpl. rewrite (Ascii.eqb_sym c sep).
    destruct (Ascii.eqb sep c); simpl; [done|].
    intros H. by rewrite IH.
Qed.

(** The lines of a split hold no separator. *)
Lemma split_lines_clean (sep : ascii) (s l : string) :
  l ∈ Js.split sep s -> Js.includes (String sep EmptyString) l = false.
Proof.
  revert l; induction s as [|c s IH]; simpl; intros l.
  - by intros ->%list_elem_of_singleton.
  - destruct (Ascii.eqb c sep) eqn:Hc.
    + intros [->|H]%elem_of_cons; [done|]. by apply IH.
    + destruct (Js.split sep s) as [|l0 ls] eqn:Hs.
      { by destruct (split_cons_inv sep s). }
      intros [->|H]%elem_of_cons.
      * simpl. rewrite (Ascii.eqb_sym sep c), Hc. simpl.
        apply IH. by left.
      * apply IH. by right.
Qed.

(** Joining lines and splitting them again gives the lines back. *)
Lemma split_join (sep : ascii) (ls : list string) :
  ls <> [] ->
  (forall l, l ∈ ls -> Js.includes (String sep EmptyString) l = false) ->
  Js.split sep (Js.join (String sep EmptyString) ls) = ls.
Proof.
  induction ls as [|l ls IH]; [done|]. intros _ Hls.
  destruct ls as [|l' ls].
  - simpl. apply split_line, Hls. by left.
  - change (Js.join (String sep EmptyString) (l :: l' :: ls))
      with (l +:+ String sep (Js.join (String sep EmptyString) (l' :: ls))).
    rewrite split_app by (apply Hls; by left).
    f_equal. apply IH; [done|]. intros l0 H0. apply Hls. by right.
Qed.

(** ** Output cleaning *)

Lemma cleanConvexOutput_other (command out : string) :
  command <> "npm run lint" -> cleanConvexOutput command out = out.
Proof.
  intros H. unfold cleanConvexOutput.
  destruct (String.eqb command "npm run lint") eqn:E; [|done].
  by apply String.eqb_eq in E.
Qed.

Lemma cleanConvexOutput_lint_no_cr (out : string) :
  Js.includes Js.cr out = false ->
  cleanConvexOutput "npm run lint" out = withoutBannedLines out.
Proof.
  intros H. unfold cleanConvexOutput, withoutBannedLines.
  rewrite String.eqb_refl. simpl negb. cbv iota.
  unfold Js.crlf. rewrite (replace_absent Js.CR Js.nl Js.nl out H).
  unfold Js.cr. by rewrite (replace_absent Js.CR EmptyString Js.nl out H).
Qed.

(** For every command other than ["npm run lint"] the output is returned as
    it is.  For ["npm run lint"] and an output without carriage return, the
    result is the output without the lines that contain a banned substring:
    it is the remaining lines, in their order, joined by line feeds, and,
    when a line remains, these are exactly the lines of the result. *)
Lemma cleanConvexOutput_removes_banned_lines (command out : string) :
  (command <> "npm run lint" -> cleanConvexOutput command out = out)
  /\ (command = "npm run lint" -> Js.includes Js.cr out = false ->
      let kept := List.filter (fun line => negb (isBannedLine line))
                    (Js.split Js.LF out) in
      cleanConvexOutput command out = Js.join Js.nl kept
      /\ (kept <> [] -> Js.split Js.LF (cleanConvexOutput command out) = kept)
      /\ (forall line, line ∈ kept <->
            line ∈ Js.split Js.LF out /\ isBannedLine line = false)).
Proof.
  split; [apply cleanConvexOutput_other|].
  intros -> Hcr kept.
  assert (Hmem : forall line, line ∈ kept <->
            line ∈ Js.split Js.LF out /\ isBannedLine line = false).
  { intros line. subst kept. rewrite !list_elem_of_In, filter_In, negb_true_iff.
    done. }
  rewrite (cleanConvexOutput_lint_no_cr _ Hcr). fold kept.
  split_and!; [done| |done].
  intros Hne. apply split_join; [done|].
  intros l Hl. apply Hmem in Hl as [Hl _]. by eapply split_lines_clean.
Qed.

Lemma cleanConvexOutput_removes_banned_lines_witness :
  let out := "ok" +:+ Js.nl +:+ "transforming (12) src" +:+ Js.nl +:+ "done" in
  cleanConvexOutput "npm run lint" out = "ok" +:+ Js.nl +:+ "done"
  /\ Js.split Js.LF (cleanConvexOutput "npm run lint" out) = ["ok"; "done"]
  /\ cleanConvexOutput "npm run build" out = out.
Proof.
  intros out.
  destruct (cleanConvexOutput_removes_banned_lines "npm run lint" out)
    as [_ Hlint].
  destruct (Hlint eq_refl eq_refl) as (Hjoin & Hsplit & _).
  destruct (cleanConvexOutput_removes_banned_lines "npm run build" out)
    as [Hother _].
  split_and!.
  - rewrite Hjoin. reflexivity.
  - rewrite Hsplit; [reflexivity|]. vm_compute. discriminate.
  - apply Hother. vm_compute. discriminate.
Defined.

(** On an output with carriage returns: no line of ["a\r\nb\r\nc"] is
    banned, yet the result is not the output: its first line end became a
    line feed and an empty line appeared after ["b"]. *)
Lemma cleanConvexOutput_rewrites_carriage_returns :
  let out := "a" +:+ Js.crlf +:+ "b" +:+ Js.crlf +:+ "c" in
  List.filter (fun line => negb (isBannedLine line)) (Js.split Js.LF out)
    = Js.split Js.LF out
  /\ withoutBannedLines out = out
  /\ cleanConvexOutput "npm run lint" out
     = "a" +:+ Js.nl +:+ "b" +:+ Js.nl +:+ Js.nl +:+ "c"
  /\ cleanConvexOutput "npm run lint" out <> withoutBannedLines out.
Proof. vm_compute. split_and!; try reflexivity. discriminate. Qed.

(** ** The monad *)

Section Frames.

Context {B : Type} (f : Runner -> B).

Lemma preserves_ret {A} (a : A) : preserves f (ret a).
Proof. done. Qed.

Lemma preserves_throw {A} e : preserves f (@throw A e).
Proof. done. Qed.

Lemma preserves_get : preserves f get.
Proof. done. Qed.

Lemma preserves_bind {A C} (m : M A) (k : A -> M C) :
  preserves f m -> (forall a, preserves f (k a)) -> preserves f (bind m k).
Proof.
  intros Hm Hk r. unfold bind. specialize (Hm r).
  destruct (m r) as [[a|e] r']; simpl in *; [|done].
  by rewrite Hk.
Qed.

Lemma preserves_tryCatch {A} (m : M A) h :
  preserves f m -> (forall e, preserves f (h e)) -> preserves f (tryCatch m h).
Proof.
  intros Hm Hh r. unfold tryCatch. specialize (Hm r).
  destruct (m r) as [[a|e] r']; simpl in *; [done|].
  by rewrite Hh.
Qed.

Lemma preserves_await {A} (p : Outcome A) : preserves f (await p).
Proof. by destruct p. Qed.

Lemma preserves_readProp {A C} (o : option A) prop (g : A -> C) :
  preserves f (readProp o prop g).
Proof. by destruct o. Qed.

Lemma preserves_unreachable {A} msg : preserves f (@unreachable A msg).
Proof. done. Qed.

Lemma preserves_modify (g : Runner -> Runner) :
  (forall r, f (g r) = f r) -> preserves f (modify g).
Proof. intros H r. apply H. Qed.

End Frames.

Section Raises.

Context (P : Js.Error -> Prop).

Lemma raisesOnly_ret {A} (a : A) : raisesOnly P (ret a).
Proof. by intros r e r'. Qed.

Lemma raisesOnly_throw {A} e : P e -> raisesOnly P (@throw A e).
Proof. intros H r e' r' [= <- _]. done. Qed.

Lemma raisesOnly_get : raisesOnly P get.
Proof. by intros r e r'. Qed.

Lemma raisesOnly_modify g : raisesOnly P (modify g).
Proof. by intros r e r'. Qed.

Lemma raisesOnly_bind {A C} (m : M A) (k : A -> M C) :
  raisesOnly P m -> (forall a, raisesOnly P (k a)) -> raisesOnly P (bind m k).
Proof.
  intros Hm Hk r e r'. unfold bind.
  destruct (m r) as [[a|e0] r0] eqn:E.
  - apply Hk.
  - intros [= <- <-]. by eapply Hm.
Qed.

Lemma raisesOnly_tryCatch {A} (m : M A) h :
  raisesOnly P m -> (forall e, P e -> raisesOnly P (h e)) ->
  raisesOnly P (tryCatch m h).
Proof.
  intros Hm Hh r e r'. unfold tryCatch.
  destruct (m r) as [[a|e0] r0] eqn:E; [done|]. apply Hh. by eapply Hm.
Qed.

Lemma raisesOnly_detached m : raisesOnly P (detached m).
Proof.
  intros r e r'. unfold detached, tryCatch. by destruct (m r) as [[[]|e0] r0].
Qed.

Lemma raisesOnly_await {A} (p : Outcome A) :
  (forall n m, P (Js.PlainError n m)) -> raisesOnly P (await p).
Proof.
  intros H r e r'. destruct p; simpl; [done|].
  intros [= <- _]. apply H.
Qed.

Lemma raisesOnly_readProp {A C} (o : option A) prop (g : A -> C) :
  (forall n m, P (Js.PlainError n m)) -> raisesOnly P (readProp o prop g).
Proof.
  intros H r e r'. destruct o; simpl; [done|].
  intros [= <- _]. apply H.
Qed.

End Raises.

Lemma formatted_plain n m : formatted (Js.PlainError n m).
Proof. by intros h o. Qed.

Lemma formatted_ActionCommandError msg out :
  formatted (ActionCommandError msg out).
Proof. intros h o [= <-] [= <-]. reflexivity. Qed.

(** ** What the methods leave untouched *)

Ltac frame_step :=
  match goal with
  | |- preserves _ (bind _ _) => apply preserves_bind; [|intros ?]
  | |- preserves _ (tryCatch _ _) => apply preserves_tryCatch; [|intros ?]
  | |- preserves _ (ret _) => apply preserves_ret
  | |- preserves _ (throw _) => apply preserves_throw
  | |- preserves _ (unreachable _) => apply preserves_unreachable
  | |- preserves _ get => apply preserves_get
  | |- preserves _ (await _) => apply preserves_await
  | |- preserves _ (readProp _ _ _) => apply preserves_readProp
  | |- preserves _ (modify _) => apply preserves_modify; intros ?; solve [auto]
  | |- preserves _ (if ?b then _ else _) => destruct b
  | |- preserves _ (match ?x with _ => _ end) => destruct x
  | |- preserves _ _ => solve [auto]
  end.

Ltac frame := repeat frame_step.

Section Untouched.

Context {B : Type} (f : Runner -> B).
Hypothesis f_actions : forall g r, f (setActions g r) = f r.
Hypothesis f_controllers : forall g r, f (setControllers g r) = f r.
Hypothesis f_logged : forall g r, f (setLogged g r) = f r.
Hypothesis f_calls : forall g r, f (setCalls g r) = f r.
Hypothesis f_toolCalls : forall g r, f (setToolCalls g r) = f r.
Hypothesis f_alerts : forall g r, f (setAlerts g r) = f r.
Hypothesis f_buildOutput : forall b r, f (setBuildOutput b r) = f r.
Hypothesis f_launched : forall g r, f (setLaunched g r) = f r.

Variable env : Collaborators.

Lemma loggerError_untouched msg detail : preserves f (loggerError msg detail).
Proof. unfold loggerError. frame. Qed.

Lemma consoleError_untouched msg detail : preserves f (consoleError msg detail).
Proof. unfold consoleError. frame. Qed.

Lemma called_untouched c : preserves f (called c).
Proof. unfold called. frame. Qed.

Lemma updateAction_untouched id newState : preserves f (updateAction id newState).
Proof. unfold updateAction. frame. Qed.

Hint Resolve loggerError_untouched consoleError_untouched called_untouched
  updateAction_untouched : core.

Lemma callAbort_untouched fn : preserves f (callAbort fn).
Proof. unfold callAbort. frame. Qed.

Hint Resolve callAbort_untouched : core.

Lemma executeCommand_untouched sh a command :
  preserves f (executeCommand env sh a command).
Proof. unfold executeCommand. frame. Qed.

Hint Resolve executeCommand_untouched : core.

Lemma runShellAction_untouched a : preserves f (runShellAction env a).
Proof. unfold runShellAction. frame. Qed.

Hint Resolve runShellAction_untouched : core.

Lemma runNpmInstallAction_untouched a : preserves f (runNpmInstallAction env a).
Proof. unfold runNpmInstallAction. frame. Qed.

Lemma runNpmExecAction_untouched a : preserves f (runNpmExecAction env a).
Proof. unfold runNpmExecAction. frame. Qed.

Lemma runStartAction_untouched a : preserves f (runStartAction env a).
Proof. unfold runStartAction. frame. Qed.

Lemma runFileAction_untouched a : preserves f (runFileAction env a).
Proof. unfold runFileAction. frame. Qed.

Lemma runBuildAction_untouched a : preserves f (runBuildAction env a).
Proof. unfold runBuildAction. frame. Qed.

Lemma _runShellCommand_untouched a command :
  preserves f (_runShellCommand env a command).
Proof. unfold _runShellCommand. frame. Qed.

Hint Resolve runNpmInstallAction_untouched runNpmExecAction_untouched
  runStartAction_untouched runFileAction_untouched runBuildAction_untouched
  _runShellCommand_untouched : core.

Lemma dispatchTool_untouched a parsed : preserves f (dispatchTool env a parsed).
Proof. unfold dispatchTool. frame. Qed.

Lemma abortSignalAborted_untouched action : preserves f (abortSignalAborted action).
Proof. unfold abortSignalAborted. frame. Qed.

Lemma resolveToolCall_untouched callId value :
  preserves f (resolveToolCall callId value).
Proof. unfold resolveToolCall. frame. Qed.

Lemma getResolvers_untouched callId : preserves f (getResolvers callId).
Proof. unfold getResolvers. frame. Qed.

Lemma callOnAlert_untouched e : preserves f (callOnAlert e).
Proof.
  unfold callOnAlert. apply preserves_modify. intros r.
  destruct (onAlert r); auto.
Qed.

Hint Resolve dispatchTool_untouched abortSignalAborted_untouched
  resolveToolCall_untouched getResolvers_untouched callOnAlert_untouched : core.

Lemma runToolUseAction_untouched a : preserves f (runToolUseAction env a).
Proof. unfold runToolUseAction, bridgeTool. frame. Qed.

Lemma executeActionCatch_untouched id action e :
  preserves f (executeActionCatch id action e).
Proof. unfold executeActionCatch. frame. Qed.

Lemma startCatch_untouched id action e : preserves f (startCatch id action e).
Proof. unfold startCatch. frame. Qed.

Hint Resolve runToolUseAction_untouched executeActionCatch_untouched
  startCatch_untouched : core.

Lemma startCommand_untouched a : preserves f (startCommand env a).
Proof. unfold startCommand. frame. Qed.

Hint Resolve startCommand_untouched : core.

Lemma runStrategy_untouched id a : preserves f (runStrategy env id a).
Proof. unfold runStrategy, detached. frame. Qed.

Hint Resolve runStrategy_untouched : core.

Lemma executeAction_untouched id isStreaming :
  preserves f (executeAction env id isStreaming).
Proof. unfold executeAction. frame. Qed.

Hint Resolve executeAction_untouched : core.

Lemma runTask_untouched t : preserves f (runTask env t).
Proof. unfold runTask. frame. Qed.

End Untouched.

Lemma runTask_chain env t : preserves chain (runTask env t).
Proof. by apply runTask_untouched. Qed.

Lemma dispatchTool_toolCalls env a parsed :
  preserves toolCalls (dispatchTool env a parsed).
Proof. by apply dispatchTool_untouched. Qed.

(** ** The execution chain *)

Lemma runTask_normal env t r : result (runTask env t r) = Normal tt.
Proof.
  destruct t as [id|id s]; [done|]. simpl. unfold tryCatch.
  by destruct (executeAction env id s r) as [[[]|e] r'].
Qed.

Lemma step_normal env r : result (step env r) = Normal tt.
Proof.
  unfold step, bind, get, modify. destruct (chain r) as [|t rest]; [done|].
  apply runTask_normal.
Qed.

Lemma steps_normal env n r : result (steps env n r) = Normal tt.
Proof.
  revert r; induction n as [|n IH]; intros r; [done|]. simpl. unfold bind.
  pose proof (step_normal env r) as H.
  destruct (step env r) as [[[]|e] r']; [apply IH|done].
Qed.

Lemma drain_normal env r : result (drain env r) = Normal tt.
Proof. unfold drain, bind, get. apply steps_normal. Qed.

(** A step takes the first callback off the chain and leaves the others. *)
Lemma step_chain env r : chain (after (step env r)) = tail (chain r).
Proof.
  unfold step, bind, get, modify.
  destruct (chain r) as [|t rest] eqn:E; [exact E|].
  by rewrite runTask_chain.
Qed.

Lemma steps_chain env n r : chain (after (steps env n r)) = drop n (chain r).
Proof.
  revert r; induction n as [|n IH]; intros r; [done|]. simpl. unfold bind.
  pose proof (step_normal env r) as H. pose proof (step_chain env r) as Hc.
  destruct (step env r) as [[[]|e] r']; [|done]. simpl in Hc.
  rewrite IH, Hc. destruct (chain r); [simpl; by rewrite drop_nil|done].
Qed.

(** After the [await] of [runAction] no callback is left on the chain. *)
Lemma drain_chain env r : chain (after (drain env r)) = [].
Proof.
  unfold drain, bind, get. rewrite steps_chain. by rewrite drop_all.
Qed.

Lemma steps_add env n m r :
  steps env (n + m) r = steps env m (after (steps env n r)).
Proof.
  revert r; induction n as [|n IH]; intros r; [done|]. simpl. unfold bind.
  pose proof (step_normal env r) as H.
  destruct (step env r) as [[[]|e] r']; [apply IH|done].
Qed.

(** The step of a state whose chain starts with [t]. *)
Lemma step_head env r t rest :
  chain r = t :: rest -> step env r = runTask env t (setChain (fun _ => rest) r).
Proof. unfold step, bind, get, modify. by intros ->. Qed.

(** The last callback of the chain runs once the ones before it have run. *)
Lemma drain_last env r ts t :
  chain r = (ts ++ [t])%list ->
  drain env r
  = runTask env t (setChain (fun _ => []) (after (steps env (length ts) r))).
Proof.
  intros Hc. unfold drain, bind, get. rewrite Hc, length_app. simpl length.
  rewrite steps_add. simpl steps. unfold bind.
  set (r' := after (steps env (length ts) r)).
  assert (Hr' : chain r' = [t]).
  { unfold r'. rewrite steps_chain, Hc. by rewrite drop_app_length. }
  rewrite (step_head env r' t [] Hr').
  by destruct (runTask env t (setChain (fun _ => []) r')) as [[[]|e] r''].
Qed.

(** ** Registration *)

(** [addAction] on a new identifier stores a complete action state: pending,
    not executed, with an abort closure and the signal of a controller that
    has not fired; and it chains the callback that marks the action as
    running. *)
Lemma addAction_registers data r :
  actions r !! actionId data = None ->
  let r' := after (addAction data r) in
  exists a,
    actions r' !! actionId data = Some a
    /\ ActionState.registered a
    /\ ActionState.status a = Some pending
    /\ ActionState.executed a = Some false
    /\ ActionState.abort a
       = Some {| abortController := length (controllers r);
                 abortTarget := actionId data |}
    /\ ActionState.abortSignal a = Some (length (controllers r))
    /\ signalAborted r' (length (controllers r)) = false
    /\ chain r' = (chain r ++ [MarkRunning (actionId data)])%list.
Proof.
  intros Hnew r'. subst r'. unfold addAction, bind, get, modify. rewrite Hnew.
  simpl. eexists. split; [by rewrite lookup_insert_eq|].
  split_and!; try done.
  unfold signalAborted. simpl.
  by rewrite lookup_app_r, Nat.sub_diag.
Qed.

(** Registering a known identifier again changes at most its content. *)
Lemma addAction_again data r a :
  actions r !! actionId data = Some a ->
  let r' := after (addAction data r) in
  exists a',
    actions r' !! actionId data = Some a'
    /\ ActionState.content a' = Some (BoltAction.content (action data))
    /\ ActionState.status a' = ActionState.status a
    /\ ActionState.executed a' = ActionState.executed a
    /\ chain r' = chain r /\ controllers r' = controllers r.
Proof.
  intros Ha r'. subst r'. unfold addAction, bind, get. rewrite Ha.
  destruct (decide (ActionState.content a
                    <> Some (BoltAction.content (action data)))) as [Hne|Heq].
  - unfold updateAction, modify. simpl. rewrite Ha. simpl.
    eexists. split; [by rewrite lookup_insert_eq|].
    simpl. split_and!; try done;
      by destruct (ActionState.status a), (ActionState.executed a).
  - exists a. split_and!; try done. by apply dec_stable.
Qed.

(** ** Commit *)

Lemma runActionSync_queues data isStreaming r a :
  actions r !! actionId data = Some a ->
  ActionState.executed a <> Some true ->
  (isStreaming = false \/ ActionState.type a = Some file) ->
  runActionSync data isStreaming r
  = (Normal true,
     setChain (fun c => (c ++ [Unit (actionId data) isStreaming])%list)
       (setActions
          <[actionId data :=
              ActionState.spread a
                (ActionState.spread
                   (ActionState.spread a (ActionState.ofBolt (action data)))
                   (ActionState.withExecuted (negb isStreaming)))]> r)).
Proof.
  intros Ha Hex Hs. unfold runActionSync, bind, get. rewrite Ha.
  destruct (decide (ActionState.executed a = Some true)); [done|].
  assert (isStreaming && negb (bool_decide (ActionState.type a = Some file)) = false)
    as ->.
  { destruct Hs as [->| ->]; [done|]. rewrite bool_decide_eq_true_2 by done.
    by destruct isStreaming. }
  unfold updateAction, modify. simpl. by rewrite Ha.
Qed.

(** C9.  [runAction] on an identifier that was never registered raises, from
    the [unreachable] trap, and the runner is as it was: no update of the
    store, no unit of work chained. *)
Theorem runAction_unknown_traps env data isStreaming r :
  actions r !! actionId data = None ->
  exists e,
    runAction env data isStreaming r = (Throw e, r)
    /\ runActionSync data isStreaming r = (Throw e, r)
    /\ e = Js.newError ("Action " +:+ actionId data +:+ " not found").
Proof.
  intros Hnone. eexists. unfold runAction, runActionSync, bind, get.
  rewrite Hnone. by split_and!.
Qed.

Lemma runAction_unknown_traps_witness :
  exists e,
    runAction (Fixture.env 0 "ok" false) (Fixture.data "ghost" shell "ls") false
      Fixture.runner = (Throw e, Fixture.runner).
Proof.
  destruct (runAction_unknown_traps (Fixture.env 0 "ok" false)
              (Fixture.data "ghost" shell "ls") false Fixture.runner eq_refl)
    as (e & H & _).
  by exists e.
Defined.

(** ** The shell strategies *)

Lemma executeCommand_calls env sh a c r :
  calls (after (executeCommand env sh a c r))
  = (calls r ++ [ExecuteCommand (runnerId env) c])%list.
Proof.
  unfold executeCommand, called, callAbort, updateAction, bind, modify.
  destruct (Shell.abortRequested _), (ActionState.abort a), (Shell.settled _); done.
Qed.

(** What the shell is asked to run: a shell that is ready and has its
    terminal and process gets exactly the content of the action. *)
Lemma runShellAction_calls env a r :
  ActionState.type a = Some shell ->
  Shell.ready (getShellTerminal env) = Resolves tt ->
  Shell.terminal (getShellTerminal env) = true ->
  Shell.process (getShellTerminal env) = true ->
  calls (after (runShellAction env a r))
  = (calls r ++ [ExecuteCommand (runnerId env) (ActionState.content a)])%list.
Proof.
  intros Hty Hready Hterm Hproc. unfold runShellAction.
  destruct (decide (ActionState.type a <> Some shell)); [done|].
  rewrite Hready, Hterm, Hproc. simpl negb. simpl orb. cbv iota.
  unfold bind. simpl await. unfold ret at 1.
  pose proof (executeCommand_calls env (getShellTerminal env) a
                (ActionState.content a) r) as H.
  destruct (executeCommand _ _ _ _ r) as [[resp|e] r']; [|done].
  by destruct (decide (exitCodeOf resp <> Some 0%Z)).
Qed.

Lemma normalizedCommand_npm_install rest :
  normalizedCommand ("npm install" +:+ rest) = rest.
Proof.
  unfold normalizedCommand. by rewrite startsWith_app, slice_app.
Qed.

Lemma normalizedCommand_npm_i rest :
  Js.startsWith "npm install" ("npm i" +:+ rest) = false ->
  normalizedCommand ("npm i" +:+ rest) = rest.
Proof.
  intros H. unfold normalizedCommand. by rewrite H, startsWith_app, slice_app.
Qed.

(** C7.  The content of an [npmInstall] action loses its ["npm install"]
    prefix, or else its ["npm i"] prefix, and the remainder, with its leading
    space, is wrapped again as ["npm install " + remainder] for the shell
    strategy: ["npm install lodash"] is delegated as ["npm install  lodash"],
    which is what a ready shell is asked to run.  When the remainder holds
    [convex] as a whole word the strategy returns without any call on the
    shell. *)
Theorem npmInstall_normalizes env a content r :
  ActionState.type a = Some npmInstall ->
  ActionState.content a = Some content ->
  let remainder := normalizedCommand content in
  let delegated :=
    ActionState.spread a (ActionState.asShell ("npm install " +:+ remainder)) in
  (Js.startsWith "npm install" content = true ->
   content = "npm install" +:+ remainder)
  /\ (Js.startsWith "npm install" content = false ->
      Js.startsWith "npm i" content = true ->
      content = "npm i" +:+ remainder)
  /\ (Js.matchesWord false "convex" remainder = false ->
        runNpmInstallAction env a r = runShellAction env delegated r)
  /\ (content = "npm install lodash" ->
        ActionState.content delegated = Some "npm install  lodash"
        /\ runNpmInstallAction env a r = runShellAction env delegated r
        /\ (Shell.ready (getShellTerminal env) = Resolves tt ->
            Shell.terminal (getShellTerminal env) = true ->
            Shell.process (getShellTerminal env) = true ->
            calls (after (runNpmInstallAction env a r))
            = (calls r
               ++ [ExecuteCommand (runnerId env) (Some "npm install  lodash")])%list))
  /\ (Js.matchesWord false "convex" remainder = true ->
        result (runNpmInstallAction env a r) = Normal tt
        /\ calls (after (runNpmInstallAction env a r)) = calls r
        /\ actions (after (runNpmInstallAction env a r)) = actions r).
Proof.
  intros Hty Hc remainder delegated.
  assert (Hrun : Js.matchesWord false "convex" remainder = false ->
            runNpmInstallAction env a r = runShellAction env delegated r).
  { intros Hno. unfold runNpmInstallAction.
    destruct (decide (ActionState.type a <> Some npmInstall)); [done|].
    rewrite Hc. unfold bind at 1. simpl. fold remainder. by rewrite Hno. }
  split_and!.
  - intros H. subst remainder. unfold normalizedCommand. rewrite H.
    by apply startsWith_inv.
  - intros Hno H. subst remainder. unfold normalizedCommand. rewrite Hno, H.
    by apply startsWith_inv.
  - exact Hrun.
  - intros ->. split_and!; [done|by apply Hrun|].
    intros Hready Hterm Hproc. rewrite Hrun by done.
    by rewrite runShellAction_calls.
  - intros Hyes.
    assert (runNpmInstallAction env a r
            = loggerError "Convex is already installed" None r) as ->; [|done].
    unfold runNpmInstallAction.
    destruct (decide (ActionState.type a <> Some npmInstall)); [done|].
    rewrite Hc. unfold bind at 1. simpl. fold remainder. by rewrite Hyes.
Qed.

Lemma npmInstall_normalizes_witness :
  let env := Fixture.env 0 "added 1 package" false in
  let a1 := ActionState.mk (Some npmInstall) (Some "npm install lodash") None
              (Some running) None (Some true)
              (Some {| abortController := 0; abortTarget := "a1" |}) (Some 0) in
  let a2 := ActionState.mk (Some npmInstall) (Some "npm i convex@1.2") None
              (Some running) None (Some true)
              (Some {| abortController := 0; abortTarget := "a2" |}) (Some 0) in
  calls (after (runNpmInstallAction env a1 Fixture.runner))
  = [ExecuteCommand "1700000000000" (Some "npm install  lodash")]
  /\ calls (after (runNpmInstallAction env a2 Fixture.runner)) = []
  /\ "npm install lodash" = "npm install" +:+ normalizedCommand "npm install lodash"
  /\ "npm i convex@1.2" = "npm i" +:+ normalizedCommand "npm i convex@1.2"
  /\ calls (Fixture.run
              [addAction (Fixture.data "a1" npmInstall "npm install lodash");
               runAction env (Fixture.data "a1" npmInstall "npm install lodash") false]
              Fixture.runner)
     = [ExecuteCommand "1700000000000" (Some "npm install  lodash")].
Proof.
  intros env a1 a2.
  destruct (npmInstall_normalizes env a1 "npm install lodash" Fixture.runner
              eq_refl eq_refl) as (H1 & _ & _ & H4 & _).
  destruct (npmInstall_normalizes env a2 "npm i convex@1.2" Fixture.runner
              eq_refl eq_refl) as (_ & H2 & _ & _ & H5).
  destruct (H4 eq_refl) as (_ & _ & Hcalls).
  destruct (H5 eq_refl) as (_ & Hnone & _).
  split_and!.
  - exact (Hcalls eq_refl eq_refl eq_refl).
  - exact Hnone.
  - exact (H1 eq_refl).
  - exact (H2 eq_refl eq_refl).
  - vm_compute. reflexivity.
Defined.

(** ** Classified errors *)

Ltac raises_step :=
  match goal with
  | |- raisesOnly _ (bind _ _) => apply raisesOnly_bind; [|intros ?]
  | |- raisesOnly _ (detached _) => apply raisesOnly_detached
  | |- raisesOnly _ (tryCatch _ _) => apply raisesOnly_tryCatch; [|intros ? ?]
  | |- raisesOnly _ (ret _) => apply raisesOnly_ret
  | |- raisesOnly _ (throw (ActionCommandError _ _)) =>
      apply raisesOnly_throw, formatted_ActionCommandError
  | |- raisesOnly _ (throw (Js.newError _)) =>
      apply raisesOnly_throw, formatted_plain
  | |- raisesOnly _ (throw _) => apply raisesOnly_throw; assumption
  | |- raisesOnly _ (unreachable _) => apply raisesOnly_throw, formatted_plain
  | |- raisesOnly _ get => apply raisesOnly_get
  | |- raisesOnly _ (modify _) => apply raisesOnly_modify
  | |- raisesOnly _ (await _) => apply raisesOnly_await, formatted_plain
  | |- raisesOnly _ (readProp _ _ _) => apply raisesOnly_readProp, formatted_plain
  | |- raisesOnly _ (if ?b then _ else _) => destruct b
  | |- raisesOnly _ (match ?x with _ => _ end) => destruct x
  | |- raisesOnly _ _ => solve [auto]
  end.

Ltac raises := repeat raises_step.

Section Formatted.

Variable env : Collaborators.

Lemma executeCommand_formatted sh a c :
  raisesOnly formatted (executeCommand env sh a c).
Proof. unfold executeCommand, called, callAbort, updateAction. raises. Qed.

Hint Resolve executeCommand_formatted : core.

Lemma runShellAction_formatted a : raisesOnly formatted (runShellAction env a).
Proof. unfold runShellAction. raises. Qed.

Hint Resolve runShellAction_formatted : core.

Lemma runStartAction_formatted a : raisesOnly formatted (runStartAction env a).
Proof. unfold runStartAction. raises. Qed.

Lemma runBuildAction_formatted a : raisesOnly formatted (runBuildAction env a).
Proof. unfold runBuildAction, called. raises. Qed.

Lemma runToolUseAction_formatted a :
  raisesOnly formatted (runToolUseAction env a).
Proof.
  unfold runToolUseAction, getResolvers, bridgeTool, dispatchTool,
    _runShellCommand, resolveToolCall, consoleError, called.
  raises.
Qed.

Hint Resolve runStartAction_formatted runBuildAction_formatted
  runToolUseAction_formatted : core.

Lemma runStrategy_formatted id a : raisesOnly formatted (runStrategy env id a).
Proof.
  unfold runStrategy, runNpmInstallAction, runNpmExecAction, runFileAction,
    loggerError, called.
  raises.
Qed.

End Formatted.

Lemma append_assoc (a b c : string) : (a +:+ b) +:+ c = a +:+ (b +:+ c).
Proof. induction a as [|x a IH]; [done|]. by rewrite !append_cons, IH. Qed.

Lemma formatted_prefix e h :
  formatted e -> header e = Some h ->
  Js.startsWith ("Failed To Execute Shell Command: " +:+ h) (Js.message e) = true.
Proof.
  intros Hf Hh. destruct e as [n m|m h' o]; [done|].
  rewrite (Hf h o Hh eq_refl). rewrite <- append_assoc. apply startsWith_app.
Qed.

Lemma runBuildAction_fails env a r wc proc :
  ActionState.type a = Some build ->
  webcontainer env = Resolves wc ->
  Sandbox.spawn wc "npm" ["run"; "build"] = Resolves proc ->
  Sandbox.exit proc <> 0%Z ->
  result (runBuildAction env a r)
  = Throw (ActionCommandError "Build Failed"
             (Js.orElse (foldl String.append EmptyString (Sandbox.output proc))
                "No Output Available")).
Proof.
  intros Hty Hwc Hsp Hexit. unfold runBuildAction.
  destruct (decide (ActionState.type a <> Some build)); [done|].
  rewrite Hwc. unfold bind, called, modify. simpl. rewrite Hsp. simpl.
  by destruct (decide (Sandbox.exit proc <> 0%Z)).
Qed.

Lemma runStartAction_fails env a r hook resp :
  ActionState.type a = Some start ->
  Shell.ready (getShellTerminal env) = Resolves tt ->
  Shell.terminal (getShellTerminal env) = true ->
  Shell.process (getShellTerminal env) = true ->
  Shell.executeCommand (getShellTerminal env) (runnerId env) (ActionState.content a)
  = {| Shell.abortRequested := hook; Shell.settled := Resolves resp |} ->
  exitCodeOf resp <> Some 0%Z ->
  result (runStartAction env a r)
  = Throw (ActionCommandError "Failed To Start Application"
             (outputOr resp "No Output Available")).
Proof.
  intros Hty Hready Hterm Hproc Hrun Hexit. unfold runStartAction.
  destruct (decide (ActionState.type a <> Some start)); [done|].
  rewrite Hready, Hterm, Hproc. simpl negb. simpl orb. cbv iota.
  unfold executeCommand. rewrite Hrun. simpl.
  unfold bind, called, callAbort, updateAction, modify, ret. simpl.
  destruct hook, (ActionState.abort a); simpl;
    by destruct (decide (exitCodeOf resp <> Some 0%Z)).
Qed.

(** C10.  The message of every classified error is formatted by the one
    constructor: it starts with ["Failed To Execute Shell Command: "] followed
    by the header, whatever strategy raises the error, while the header and
    the output are the values the strategy gave.  So the error of a failed
    build, with header ["Build Failed"], and the error of a failed start, with
    header ["Failed To Start Application"], carry the shell prefix too. *)
Theorem classified_errors_carry_shell_prefix env a r :
  (forall msg out,
     let e := ActionCommandError msg out in
     header e = Some msg /\ output e = Some out
     /\ Js.message e
        = "Failed To Execute Shell Command: " +:+ msg +:+ Js.nl +:+ Js.nl
          +:+ "Output:" +:+ Js.nl +:+ out)
  /\ (forall id e r' h,
        runStrategy env id a r = (Throw e, r')
        \/ result (runStartAction env a r) = Throw e ->
        header e = Some h ->
        Js.startsWith ("Failed To Execute Shell Command: " +:+ h) (Js.message e)
        = true)
  /\ (forall wc proc,
        ActionState.type a = Some build ->
        webcontainer env = Resolves wc ->
        Sandbox.spawn wc "npm" ["run"; "build"] = Resolves proc ->
        Sandbox.exit proc <> 0%Z ->
        exists e, result (runBuildAction env a r) = Throw e
          /\ header e = Some "Build Failed"
          /\ output e = Some (Js.orElse (foldl String.append EmptyString
                                           (Sandbox.output proc))
                                "No Output Available")
          /\ Js.startsWith "Failed To Execute Shell Command: Build Failed"
               (Js.message e) = true)
  /\ (forall hook resp,
        ActionState.type a = Some start ->
        Shell.ready (getShellTerminal env) = Resolves tt ->
        Shell.terminal (getShellTerminal env) = true ->
        Shell.process (getShellTerminal env) = true ->
        Shell.executeCommand (getShellTerminal env) (runnerId env)
          (ActionState.content a)
        = {| Shell.abortRequested := hook; Shell.settled := Resolves resp |} ->
        exitCodeOf resp <> Some 0%Z ->
        exists e, result (runStartAction env a r) = Throw e
          /\ header e = Some "Failed To Start Application"
          /\ output e = Some (outputOr resp "No Output Available")
          /\ Js.startsWith
               "Failed To Execute Shell Command: Failed To Start Application"
               (Js.message e) = true).
Proof.
  split_and!.
  - done.
  - intros id e r' h [H|H] Hh; apply formatted_prefix; try done.
    + by eapply runStrategy_formatted.
    + destruct (runStartAction env a r) as [c r''] eqn:E. simpl in H. subst c.
      by eapply runStartAction_formatted.
  - intros wc proc Hty Hwc Hsp Hexit. eexists. split.
    + by eapply runBuildAction_fails.
    + split_and!; [done|done|].
      apply (formatted_prefix (ActionCommandError _ _) "Build Failed");
        [apply formatted_ActionCommandError|done].
  - intros hook resp Hty Hready Hterm Hproc Hrun Hexit. eexists. split.
    + by eapply runStartAction_fails.
    + split_and!; [done|done|].
      apply (formatted_prefix (ActionCommandError _ _) "Failed To Start Application");
        [apply formatted_ActionCommandError|done].
Qed.

Lemma classified_errors_carry_shell_prefix_witness :
  let env := Fixture.env 2 "vite: not found" false in
  let a := ActionState.mk (Some build) (Some "npm run build") None (Some running)
             None (Some true) None (Some 0) in
  exists e,
    result (runBuildAction env a Fixture.runner) = Throw e
    /\ header e = Some "Build Failed"
    /\ output e = Some "vite: not found"
    /\ Js.startsWith "Failed To Execute Shell Command: Build Failed" (Js.message e)
       = true.
Proof.
  intros env a.
  destruct (classified_errors_carry_shell_prefix env a Fixture.runner)
    as (_ & _ & Hbuild & _).
  destruct (Hbuild (Fixture.sandboxWith ["vite: not found"] 2)
              {| Sandbox.output := ["vite: not found"]; Sandbox.exit := 2 |}
              eq_refl eq_refl eq_refl) as (e & He & Hh & Ho & Hp).
  { discriminate. }
  exists e. by split_and!.
Defined.

(** ** The dispatcher *)

Lemma statusOf_updateAction r id s :
  statusOf (after (updateAction id (ActionState.withStatus s) r)) id = Some s.
Proof. unfold statusOf, updateAction, modify. simpl. by rewrite lookup_insert_eq. Qed.

Lemma statusOf_recordFailure id action e r :
  statusOf (recordFailure id action e r) id = Some failed.
Proof.
  unfold recordFailure, statusOf, callOnAlert, loggerError, updateAction, modify.
  simpl. destruct (instanceofActionCommandError e); simpl.
  - destruct (onAlert r); simpl; by rewrite lookup_insert_eq.
  - by rewrite lookup_insert_eq.
Qed.

Lemma alerts_recordFailure id action e r :
  alerts (recordFailure id action e r)
  = if instanceofActionCommandError e && onAlert r
    then (alerts r ++ [alertOf e])%list else alerts r.
Proof.
  unfold recordFailure, callOnAlert, loggerError, updateAction, modify. simpl.
  destruct (instanceofActionCommandError e); simpl; [|done].
  by destruct (onAlert r).
Qed.

Lemma logged_recordFailure id action e r :
  logged (recordFailure id action e r)
  = (logged r ++ [LoggerError (failedMessage action) (Some e)])%list.
Proof.
  unfold recordFailure, callOnAlert, loggerError, updateAction, modify. simpl.
  destruct (instanceofActionCommandError e); simpl; [|done].
  by destruct (onAlert r).
Qed.

(** The [catch] block of the dispatcher when the signal of the action has
    fired: the exception is swallowed and the runner is left as it is. *)
Lemma executeActionCatch_aborted id a k e r :
  ActionState.abortSignal a = Some k ->
  signalAborted r k = true ->
  executeActionCatch id (Some a) e r = (Normal tt, r).
Proof.
  intros Hsig Hab. unfold executeActionCatch, abortSignalAborted, bind, get.
  simpl. rewrite Hsig. simpl. by rewrite Hab.
Qed.

(** The [catch] block of the dispatcher when the signal has not fired: the
    failure is recorded, and a classified error is raised again. *)
Lemma executeActionCatch_failed id a k e r :
  ActionState.abortSignal a = Some k ->
  signalAborted r k = false ->
  executeActionCatch id (Some a) e r
  = (if instanceofActionCommandError e then Throw e else Normal tt,
     recordFailure id (Some a) e r).
Proof.
  intros Hsig Hab. unfold executeActionCatch, abortSignalAborted, bind, get.
  simpl. rewrite Hsig. simpl. rewrite Hab. unfold recordFailure.
  by destruct (instanceofActionCommandError e).
Qed.

Lemma startCatch_aborted id a k e r :
  ActionState.abortSignal a = Some k ->
  signalAborted r k = true ->
  startCatch id a e r = (Normal tt, r).
Proof.
  intros Hsig Hab. unfold startCatch, abortSignalAborted, bind, get.
  simpl. rewrite Hsig. simpl. by rewrite Hab.
Qed.

Lemma startCatch_failed id a k e r :
  ActionState.abortSignal a = Some k ->
  signalAborted r k = false ->
  startCatch id a e r = (Normal tt, recordFailure id (Some a) e r).
Proof.
  intros Hsig Hab. unfold startCatch, abortSignalAborted, bind, get.
  simpl. rewrite Hsig. simpl. rewrite Hab. unfold recordFailure.
  by destruct (instanceofActionCommandError e).
Qed.

(** [#runStartAction] is its two parts in a row. *)
Lemma runStartAction_parts env a r :
  runStartAction env a r
  = (let* run := startCommand env a in startAnswer a run) r.
Proof.
  unfold runStartAction, startCommand, startAnswer, executeCommand.
  destruct (decide (ActionState.type a <> Some start)); [done|].
  destruct (Shell.ready (getShellTerminal env)) as [[]|]; [|done].
  destruct (negb _ || negb _); [done|].
  unfold bind, called, modify, ret, await. simpl.
  destruct (Shell.abortRequested _); [|done].
  by destruct (ActionState.abort a).
Qed.

(** The handlers of a launched [start] strategy: when the strategy raises,
    its [catch] handler runs. *)
Lemma settleStart_failure r id a run rest e r1 :
  launched r = (id, a, run) :: rest ->
  startAnswer a run (setLaunched (fun _ => rest) r) = (Throw e, r1) ->
  settleStart r = detached (startCatch id a e) r1.
Proof.
  intros Hl Hrun. unfold settleStart, bind, get, modify. rewrite Hl.
  unfold detached, tryCatch. by rewrite Hrun.
Qed.

(** [#executeAction] when the strategy of the action raises. *)
Lemma executeAction_strategy_throws env id isStreaming r a e r1 :
  actions r !! id = Some a ->
  runStrategy env id a
    (after (updateAction id (ActionState.withStatus running) r)) = (Throw e, r1) ->
  executeAction env id isStreaming r = executeActionCatch id (Some a) e r1.
Proof.
  intros Ha Hrun. unfold executeAction. unfold bind at 1, get. rewrite Ha.
  unfold bind at 1.
  destruct (updateAction id (ActionState.withStatus running) r) as [[[]|e0] r0] eqn:E;
    [|done].
  unfold tryCatch, bind. simpl in *. by rewrite Hrun.
Qed.

(** [#executeAction], not streaming, when the strategy of the action
    returns. *)
Lemma executeAction_strategy_returns env id r a k r1 :
  actions r !! id = Some a ->
  ActionState.abortSignal a = Some k ->
  runStrategy env id a
    (after (updateAction id (ActionState.withStatus running) r)) = (Normal true, r1) ->
  executeAction env id false r
  = updateAction id
      (ActionState.withStatus (if signalAborted r1 k then aborted else complete)) r1.
Proof.
  intros Ha Hsig Hrun. unfold executeAction. unfold bind at 1, get. rewrite Ha.
  unfold bind at 1.
  destruct (updateAction id (ActionState.withStatus running) r) as [[[]|e0] r0] eqn:E;
    [|done].
  unfold tryCatch, bind. simpl in *. rewrite Hrun.
  unfold abortSignalAborted, bind, get. simpl. by rewrite Hsig.
Qed.

(** The [shell] case of the dispatcher on a shell that is ready and answers
    without calling the abort hook. *)
Lemma runShellAction_settles env a r resp :
  ActionState.type a = Some shell ->
  Shell.ready (getShellTerminal env) = Resolves tt ->
  Shell.terminal (getShellTerminal env) = true ->
  Shell.process (getShellTerminal env) = true ->
  Shell.executeCommand (getShellTerminal env) (runnerId env) (ActionState.content a)
  = {| Shell.abortRequested := false; Shell.settled := Resolves resp |} ->
  runShellAction env a r
  = (if decide (exitCodeOf resp <> Some 0%Z)
     then Throw (ActionCommandError "Failed To Execute Shell Command"
                   (outputOr resp "No Output Available"))
     else Normal tt,
     setCalls
       (fun l => (l ++ [ExecuteCommand (runnerId env) (ActionState.content a)])%list)
       r).
Proof.
  intros Hty Hready Hterm Hproc Hrun. unfold runShellAction.
  destruct (decide (ActionState.type a <> Some shell)); [done|].
  rewrite Hready, Hterm, Hproc. simpl negb. simpl orb. cbv iota.
  unfold executeCommand. rewrite Hrun. simpl.
  unfold bind, called, modify, ret. simpl.
  by destruct (decide (exitCodeOf resp <> Some 0%Z)).
Qed.

(** C4.  A shell action that is dispatched not streaming, whose signal has
    not fired and whose shell does not call the abort hook: when the shell
    returns exit code 0 the action ends [complete]; when it returns another
    exit code the strategy raises a classified error with the header
    ["Failed To Execute Shell Command"] and with the captured output, or
    ["No Output Available"] when that is empty, and the action ends
    [failed]. *)
Theorem shell_exit_code_decides env id a k r resp :
  actions r !! id = Some a ->
  ActionState.type a = Some shell ->
  ActionState.abortSignal a = Some k ->
  signalAborted r k = false ->
  Shell.ready (getShellTerminal env) = Resolves tt ->
  Shell.terminal (getShellTerminal env) = true ->
  Shell.process (getShellTerminal env) = true ->
  Shell.executeCommand (getShellTerminal env) (runnerId env) (ActionState.content a)
  = {| Shell.abortRequested := false; Shell.settled := Resolves (Some resp) |} ->
  let fin := after (executeAction env id false r) in
  (Shell.exitCode resp = 0%Z -> statusOf fin id = Some complete)
  /\ (Shell.exitCode resp <> 0%Z ->
      exists e,
        (forall r0, result (runShellAction env a r0) = Throw e)
        /\ instanceofActionCommandError e = true
        /\ header e = Some "Failed To Execute Shell Command"
        /\ output e = Some (if decide (Shell.output resp = EmptyString)
                            then "No Output Available" else Shell.output resp)
        /\ statusOf fin id = Some failed).
Proof.
  intros Ha Hty Hsig Hnab Hready Hterm Hproc Hrun fin.
  pose proof (fun r0 => runShellAction_settles env a r0 (Some resp)
                          Hty Hready Hterm Hproc Hrun) as Hshell.
  set (r0 := after (updateAction id (ActionState.withStatus running) r)).
  assert (Hstrategy : exists r1,
             runStrategy env id a r0
             = (if decide (Shell.exitCode resp = 0%Z) then Normal true
                else Throw (ActionCommandError "Failed To Execute Shell Command"
                              (outputOr (Some resp) "No Output Available")), r1)
             /\ signalAborted r1 k = false).
  { eexists. unfold runStrategy. rewrite Hty. unfold bind at 1 2.
    unfold loggerError, modify at 1. rewrite Hshell. simpl exitCodeOf.
    split.
    - destruct (decide (Shell.exitCode resp = 0%Z)) as [->|Hne].
      + by rewrite decide_False by (intros H; by apply H).
      + rewrite decide_True by congruence. done.
    - exact Hnab. }
  destruct Hstrategy as (r1 & Hrun1 & Hnab1). split.
  - intros Hz. rewrite decide_True in Hrun1 by done. subst fin.
    rewrite (executeAction_strategy_returns env id r a k r1 Ha Hsig Hrun1).
    rewrite Hnab1. apply statusOf_updateAction.
  - intros Hnz. rewrite decide_False in Hrun1 by done. eexists. split_and!.
    + intros r'. rewrite Hshell. simpl exitCodeOf.
      by rewrite decide_True by congruence.
    + done.
    + done.
    + unfold outputOr. simpl. by destruct (Shell.output resp).
    + subst fin.
      rewrite (executeAction_strategy_throws env id false r a _ r1 Ha Hrun1).
      rewrite (executeActionCatch_failed id a k _ r1 Hsig Hnab1).
      apply statusOf_recordFailure.
Qed.

Lemma shell_exit_code_decides_witness :
  let d := Fixture.data "a1" shell "ls" in
  let r := Fixture.run [addAction d] Fixture.runner in
  statusOf (after (executeAction (Fixture.env 0 "ok" false) "a1" false r)) "a1"
  = Some complete
  /\ statusOf (after (executeAction (Fixture.env 1 EmptyString false) "a1" false r)) "a1"
     = Some failed
  /\ result (runShellAction (Fixture.env 1 EmptyString false)
               (ActionState.mk (Some shell) (Some "ls") None (Some pending) None
                  (Some false)
                  (Some {| abortController := 0; abortTarget := "a1" |}) (Some 0)) r)
     = Throw (ActionCommandError "Failed To Execute Shell Command" "No Output Available").
Proof.
  intros d r.
  pose (a := ActionState.mk (Some shell) (Some "ls") None (Some pending) None
               (Some false)
               (Some {| abortController := 0; abortTarget := "a1" |}) (Some 0)).
  destruct (shell_exit_code_decides (Fixture.env 0 "ok" false) "a1" a 0 r
              {| Shell.exitCode := 0; Shell.output := "ok" |}
              eq_refl eq_refl eq_refl eq_refl eq_refl eq_refl eq_refl eq_refl)
    as [Hok _].
  destruct (shell_exit_code_decides (Fixture.env 1 EmptyString false) "a1" a 0 r
              {| Shell.exitCode := 1; Shell.output := EmptyString |}
              eq_refl eq_refl eq_refl eq_refl eq_refl eq_refl eq_refl eq_refl)
    as [_ Hko].
  destruct Hko as (e & Hraise & _ & _ & _ & Hfailed); [discriminate|].
  split_and!.
  - exact (Hok eq_refl).
  - exact Hfailed.
  - reflexivity.
Defined.



(** ** Cancellation *)

(** A strategy that raises after the signal of its action fired: the
    dispatcher returns, and the runner is as the strategy left it: no
    [failed] status, no alert, no log. *)
Lemma cancelled_failure_is_silent env id isStreaming r a k e r1 :
  actions r !! id = Some a ->
  ActionState.abortSignal a = Some k ->
  runStrategy env id a
    (after (updateAction id (ActionState.withStatus running) r)) = (Throw e, r1) ->
  signalAborted r1 k = true ->
  executeAction env id isStreaming r = (Normal tt, r1).
Proof.
  intros Ha Hsig Hrun Hab.
  rewrite (executeAction_strategy_throws env id isStreaming r a e r1 Ha Hrun).
  by apply executeActionCatch_aborted with k.
Qed.

(** When the shell calls the abort hook of a registered shell action and then
    answers with a nonzero exit code, the action ends [aborted]. *)
Lemma abort_while_running_ends_aborted env id a k r resp :
  actions r !! id = Some a ->
  ActionState.type a = Some shell ->
  ActionState.abortSignal a = Some k ->
  ActionState.abort a = Some {| abortController := k; abortTarget := id |} ->
  k < length (controllers r) ->
  Shell.ready (getShellTerminal env) = Resolves tt ->
  Shell.terminal (getShellTerminal env) = true ->
  Shell.process (getShellTerminal env) = true ->
  Shell.executeCommand (getShellTerminal env) (runnerId env) (ActionState.content a)
  = {| Shell.abortRequested := true; Shell.settled := Resolves (Some resp) |} ->
  Shell.exitCode resp <> 0%Z ->
  let fin := executeAction env id false r in
  result fin = Normal tt
  /\ statusOf (after fin) id = Some aborted
  /\ alerts (after fin) = alerts r.
Proof.
  intros Ha Hty Hsig Hab Hk Hready Hterm Hproc Hrun Hexit fin.
  set (r0 := after (updateAction id (ActionState.withStatus running) r)).
  assert (exists e r1, runStrategy env id a r0 = (Throw e, r1)
            /\ signalAborted r1 k = true /\ statusOf r1 id = Some aborted
            /\ alerts r1 = alerts r) as (e & r1 & Hstrat & Hfired & Hst & Hal).
  { unfold runStrategy. rewrite Hty. unfold runShellAction.
    destruct (decide (ActionState.type a <> Some shell)); [done|].
    rewrite Hready, Hterm, Hproc. simpl negb. simpl orb. cbv iota.
    unfold executeCommand. rewrite Hrun, Hab. simpl.
    unfold bind, loggerError, called, callAbort, updateAction, modify, ret. simpl.
    rewrite decide_True by congruence.
    eexists _, _. split; [reflexivity|]. split_and!.
    - unfold signalAborted. simpl. by rewrite list_lookup_insert_eq.
    - unfold statusOf. simpl. by rewrite lookup_insert_eq.
    - done. }
  subst fin.
  rewrite (cancelled_failure_is_silent env id false r a k e r1 Ha Hsig Hstrat Hfired).
  by split_and!.
Qed.

(** C1 fails on an action that is aborted before it is dispatched: the
    dispatcher marks it [running] over the [aborted] that the abort closure
    wrote, the shell command fails, and the [catch] block returns on the fired
    signal.  No alert is raised and the status is not [failed], but the action
    ends [running], not [aborted]. *)
Theorem abort_before_dispatch_ends_running :
  let env := Fixture.env 1 "boom" false in
  let d := Fixture.data "a1" shell "ls" in
  let before := Fixture.run [addAction d; abortAction "a1"] Fixture.runner in
  let fin := Fixture.run [runAction env d false] before in
  statusOf before "a1" = Some aborted
  /\ controllers before = [true]
  /\ calls fin = [ExecuteCommand "1700000000000" (Some "ls")]
  /\ alerts fin = []
  /\ statusOf fin "a1" = Some running
  /\ statusOf fin "a1" <> Some aborted.
Proof. vm_compute. split_and!; try reflexivity. discriminate. Qed.

(** The sibling path: the same action, aborted before it is dispatched, ends
    [aborted] when its command succeeds. *)
Example abort_before_dispatch_success_ends_aborted :
  let env := Fixture.env 0 "ok" false in
  let d := Fixture.data "a1" shell "ls" in
  let fin := Fixture.run [addAction d; abortAction "a1"; runAction env d false]
               Fixture.runner in
  statusOf fin "a1" = Some aborted.
Proof. vm_compute. reflexivity. Qed.

(** ** The tool-call bridge *)

Lemma errorMessage_prefix e : Js.startsWith "Error:" (errorMessage e) = true.
Proof.
  unfold errorMessage.
  destruct (Js.startsWith "Error:" (Js.toString e)) eqn:E; simpl; [done|].
  apply (startsWith_app "Error:" (" " +:+ Js.toString e)).
Qed.

Lemma bridgeTool_throws env a parsed r e rd :
  dispatchTool env a parsed r = (Throw e, rd) ->
  bridgeTool env a parsed r
  = (Throw e,
     after (resolveToolCall (toolCallId parsed) (errorMessage e)
              (after (consoleError "Error on tool call" e rd)))).
Proof.
  intros H. unfold bridgeTool, tryCatch, bind. by rewrite H.
Qed.

Lemma runToolUseAction_call env a parsed r :
  JSON_parse env (default "undefined" (ActionState.content a)) = Resolves parsed ->
  state parsed = StateCall ->
  runToolUseAction env a r
  = bridgeTool env a parsed (after (getResolvers (toolCallId parsed) r)).
Proof.
  intros Hp Hs. unfold runToolUseAction. rewrite Hp. unfold bind. simpl.
  by rewrite Hs.
Qed.

(** A future settles once: [resolve] gives its value to an unsettled future
    and changes no other. *)
Lemma resolveToolCall_lookup callId value r :
  toolCalls (after (resolveToolCall callId value r)) !! callId
  = match toolCalls r !! callId with
    | Some Unsettled => Some (Resolved value)
    | other => other
    end.
Proof.
  unfold resolveToolCall, modify. simpl.
  destruct (toolCalls r !! callId) as [[| |]|] eqn:E; try done.
  by rewrite lookup_insert_eq.
Qed.

Lemma getResolvers_lookup callId r :
  toolCalls (after (getResolvers callId r)) !! callId
  = Some (default Unsettled (toolCalls r !! callId)).
Proof.
  unfold getResolvers, modify. simpl.
  destruct (toolCalls r !! callId) eqn:E; [done|].
  by rewrite lookup_insert_eq.
Qed.

(** C6, as amended.  When the tool dispatch of a [toolUse] action raises an
    exception, the bridge resolves the future of the tool call with a message
    that starts with ["Error:"], the text of the exception with the prefix put
    before it when it lacks it, and raises the same exception again.  So the
    future is settled, with that message when it was pending, and the
    dispatcher records the action as [failed], unless the signal of the action
    has fired, in which case it leaves the status as it is. *)
Theorem toolUse_failure_is_answered env id isStreaming r a k parsed e rd :
  actions r !! id = Some a ->
  ActionState.type a = Some toolUse ->
  ActionState.abortSignal a = Some k ->
  JSON_parse env (default "undefined" (ActionState.content a)) = Resolves parsed ->
  state parsed = StateCall ->
  let dispatched := after (updateAction id (ActionState.withStatus running) r) in
  dispatchTool env a parsed (after (getResolvers (toolCallId parsed) dispatched))
  = (Throw e, rd) ->
  let fin := after (executeAction env id isStreaming r) in
  let answer := errorMessage e in
  Js.startsWith "Error:" answer = true
  /\ answer = (if Js.startsWith "Error:" (Js.toString e) then Js.toString e
               else "Error: " +:+ Js.toString e)
  /\ result (runToolUseAction env a dispatched) = Throw e
  /\ (toolCalls r !! toolCallId parsed = None
      \/ toolCalls r !! toolCallId parsed = Some Unsettled ->
      toolCalls fin !! toolCallId parsed = Some (Resolved answer))
  /\ (exists settled, toolCalls fin !! toolCallId parsed = Some settled
                      /\ settled <> Unsettled)
  /\ (signalAborted rd k = false -> statusOf fin id = Some failed)
  /\ (signalAborted rd k = true -> statusOf fin id = statusOf rd id).
Proof.
  intros Ha Hty Hsig Hparse Hstate dispatched Hraise fin answer.
  set (r2 := after (resolveToolCall (toolCallId parsed) answer
                      (after (consoleError "Error on tool call" e rd)))).
  assert (Hbridge : runToolUseAction env a dispatched = (Throw e, r2)).
  { rewrite (runToolUseAction_call env a parsed _ Hparse Hstate).
    by rewrite (bridgeTool_throws env a parsed _ e rd Hraise). }
  assert (Hstrategy : runStrategy env id a dispatched = (Throw e, r2)).
  { unfold runStrategy. rewrite Hty. unfold bind. by rewrite Hbridge. }
  assert (Hfin : executeAction env id isStreaming r
                 = executeActionCatch id (Some a) e r2).
  { by apply executeAction_strategy_throws. }
  assert (Hcalls : toolCalls fin = toolCalls r2).
  { subst fin. rewrite Hfin. apply executeActionCatch_untouched; done. }
  assert (Hr2 : toolCalls r2 !! toolCallId parsed
                = match default Unsettled (toolCalls r !! toolCallId parsed) with
                  | Unsettled => Some (Resolved answer)
                  | other => Some other
                  end).
  { unfold r2. rewrite resolveToolCall_lookup.
    change (toolCalls (after (consoleError "Error on tool call" e rd)))
      with (toolCalls rd).
    pose proof (dispatchTool_toolCalls env a parsed
                  (after (getResolvers (toolCallId parsed) dispatched))) as Hframe.
    rewrite Hraise in Hframe.
    change (toolCalls rd
            = toolCalls (after (getResolvers (toolCallId parsed) dispatched)))
      in Hframe.
    rewrite Hframe, getResolvers_lookup.
    change (toolCalls dispatched) with (toolCalls r).
    by destruct (default Unsettled (toolCalls r !! toolCallId parsed)). }
  split_and!.
  - apply errorMessage_prefix.
  - unfold answer, errorMessage.
    by destruct (Js.startsWith "Error:" (Js.toString e)).
  - by rewrite Hbridge.
  - rewrite Hcalls, Hr2. by intros [-> | ->].
  - rewrite Hcalls, Hr2.
    destruct (default Unsettled (toolCalls r !! toolCallId parsed));
      by eexists.
  - intros Hnab. subst fin. rewrite Hfin.
    rewrite (executeActionCatch_failed id a k e r2 Hsig Hnab).
    apply statusOf_recordFailure.
  - intros Hab. subst fin. rewrite Hfin.
    by rewrite (executeActionCatch_aborted id a k e r2 Hsig Hab).
Qed.

Lemma toolUse_failure_is_answered_witness :
  let env := Fixture.env 3 "bad" false in
  let d := Fixture.data "a1" toolUse "ls" in
  let r := Fixture.run [addAction d] Fixture.runner in
  let fin := after (executeAction env "a1" false r) in
  toolCalls fin !! "call-1" = Some (Resolved "Error: Process exited with code 3: bad")
  /\ statusOf fin "a1" = Some failed.
Proof.
  intros env d r fin.
  pose (a := ActionState.mk (Some toolUse) (Some "ls") None (Some pending) None
               (Some false)
               (Some {| abortController := 0; abortTarget := "a1" |}) (Some 0)).
  pose (parsed := {| state := StateCall; toolCallId := "call-1";
                     toolName := "bash"; args := "ls" |}).
  pose (dispatched := after (updateAction "a1" (ActionState.withStatus running) r)).
  destruct (toolUse_failure_is_answered env "a1" false r a 0 parsed
              (Js.newError "Process exited with code 3: bad")
              (after (dispatchTool env a parsed
                        (after (getResolvers "call-1" dispatched))))
              eq_refl eq_refl eq_refl eq_refl eq_refl eq_refl)
    as (_ & _ & _ & Hanswer & _ & Hfailed & _).
  split.
  - apply Hanswer. by left.
  - by apply Hfailed.
Defined.

(** C6 as it is stated fails when the signal of the action has fired: the
    shell calls the abort hook of a [bash] tool call and then answers with
    exit code 130; the tool dispatch raises, the future is resolved with the
    error message, and the action ends [aborted], not [failed]. *)
Lemma toolUse_failure_after_abort_is_not_failed :
  let env := Fixture.env 130 "^C" true in
  let d := Fixture.data "a1" toolUse "sleep 60" in
  let r := Fixture.run [addAction d] Fixture.runner in
  let a := ActionState.mk (Some toolUse) (Some "sleep 60") None (Some pending) None
             (Some false)
             (Some {| abortController := 0; abortTarget := "a1" |}) (Some 0) in
  let parsed := {| state := StateCall; toolCallId := "call-1";
                   toolName := "bash"; args := "sleep 60" |} in
  let fin := Fixture.run [runAction env d false] r in
  actions r !! "a1" = Some a
  /\ result (dispatchTool env a parsed r)
     = Throw (Js.newError "Process exited with code 130: ^C")
  /\ toolCalls fin !! "call-1"
     = Some (Resolved "Error: Process exited with code 130: ^C")
  /\ statusOf fin "a1" = Some aborted
  /\ statusOf fin "a1" <> Some failed.
Proof. vm_compute. split_and!; try reflexivity. discriminate. Qed.

(** ** Failure isolation *)

Lemma runAction_normal env data isStreaming r :
  is_Some (actions r !! actionId data) ->
  result (runAction env data isStreaming r) = Normal tt.
Proof.
  intros [a Ha]. unfold runAction, runActionSync. unfold bind at 1 2, get.
  rewrite Ha.
  destruct (decide (ActionState.executed a = Some true)); [done|].
  destruct (isStreaming && negb (bool_decide (ActionState.type a = Some file)));
    [done|].
  unfold bind, updateAction, modify, ret. apply drain_normal.
Qed.

(** C3.  When the unit of work at the head of the execution chain raises, the
    chain catches and logs the exception and goes on with the callbacks that
    follow; [runAction] on a registered action never raises, whatever the
    strategies do; and the unit of work of an action committed afterwards is
    chained at the end and runs, after the callbacks before it, when its
    [runAction] awaits the chain. *)
Theorem failing_unit_keeps_chain env r idA sA rest e rA :
  chain r = Unit idA sA :: rest ->
  executeAction env idA sA (setChain (fun _ => rest) r) = (Throw e, rA) ->
  step env r = (Normal tt, after (consoleError "Action failed:" e rA))
  /\ logged (after (step env r))
     = (logged rA ++ [ConsoleError "Action failed:" e])%list
  /\ chain (after (step env r)) = rest
  /\ (forall r0 data s,
        is_Some (actions r0 !! actionId data) ->
        result (runAction env data s r0) = Normal tt)
  /\ (forall dataB aB,
        let r1 := after (step env r) in
        actions r1 !! actionId dataB = Some aB ->
        ActionState.executed aB <> Some true ->
        let queued := after (runActionSync dataB false r1) in
        chain queued = (rest ++ [Unit (actionId dataB) false])%list
        /\ runAction env dataB false r1
           = runTask env (Unit (actionId dataB) false)
               (setChain (fun _ => []) (after (steps env (length rest) queued)))
        /\ chain (after (runAction env dataB false r1)) = []).
Proof.
  intros Hchain Hthrow.
  assert (Hstep : step env r
                  = (Normal tt, after (consoleError "Action failed:" e rA))).
  { rewrite (step_head env r _ rest Hchain). simpl. unfold tryCatch.
    by rewrite Hthrow. }
  assert (Hrest : chain (after (step env r)) = rest).
  { by rewrite step_chain, Hchain. }
  split_and!.
  - exact Hstep.
  - by rewrite Hstep.
  - exact Hrest.
  - intros r0 data s. apply runAction_normal.
  - intros dataB aB r1 HB Hex queued.
    pose proof (runActionSync_queues dataB false r1 aB HB Hex (or_introl eq_refl))
      as Hsync.
    assert (Hq : chain queued = (rest ++ [Unit (actionId dataB) false])%list).
    { subst queued. rewrite Hsync. simpl. unfold r1. by rewrite Hrest. }
    assert (Hrun : runAction env dataB false r1 = drain env queued).
    { unfold runAction, bind. subst queued. by rewrite Hsync. }
    split_and!.
    + exact Hq.
    + rewrite Hrun. by apply drain_last.
    + rewrite Hrun. apply drain_chain.
Qed.

Lemma failing_unit_keeps_chain_witness :
  let env := Fixture.env 1 "boom" false in
  let dA := Fixture.data "a1" shell "false" in
  let dB := Fixture.data "a2" shell "ls" in
  let r := Fixture.run [addAction dA; addAction dB;
                        (runActionSync dA false ;;; ret tt);
                        step env; step env] Fixture.runner in
  chain r = [Unit "a1" false]
  /\ result (executeAction env "a1" false (setChain (fun _ => []) r))
     = Throw (ActionCommandError "Failed To Execute Shell Command" "boom")
  /\ result (step env r) = Normal tt
  /\ calls (after (runAction env dB false (after (step env r))))
     = [ExecuteCommand "1700000000000" (Some "false");
        ExecuteCommand "1700000000000" (Some "ls")].
Proof.
  intros env dA dB r.
  pose (aB := ActionState.mk (Some shell) (Some "ls") None (Some running) None
                (Some false)
                (Some {| abortController := 1; abortTarget := "a2" |}) (Some 1)).
  destruct (failing_unit_keeps_chain env r "a1" false []
              (ActionCommandError "Failed To Execute Shell Command" "boom")
              (after (executeAction env "a1" false (setChain (fun _ => []) r))))
    as (Hstep & _ & _ & _ & HB).
  { vm_compute. reflexivity. }
  { vm_compute. reflexivity. }
  destruct (HB dB aB) as (_ & Hrun & _).
  { vm_compute. reflexivity. }
  { discriminate. }
  split_and!.
  - vm_compute. reflexivity.
  - vm_compute. reflexivity.
  - by rewrite Hstep.
  - rewrite Hrun. vm_compute. reflexivity.
Defined.

(** * Further properties *)

(** ** Output cleaning, again *)

Lemma join_cons (sep l : string) (ls : list string) :
  ls <> [] -> Js.join sep (l :: ls) = l +:+ sep +:+ Js.join sep ls.
Proof. by destruct ls. Qed.

(** Splitting a text and joining the lines gives the text back. *)
Lemma join_split (sep : ascii) (s : string) :
  Js.join (String sep EmptyString) (Js.split sep s) = s.
Proof.
  induction s as [|c s IH]; [done|]. simpl.
  destruct (Ascii.eqb c sep) eqn:Hc.
  - apply Ascii.eqb_eq in Hc as ->.
    rewrite join_cons by apply split_cons_inv. by rewrite IH.
  - destruct (Js.split sep s) as [|l ls] eqn:Hs.
    { by destruct (split_cons_inv sep s). }
    destruct ls as [|l' ls].
    + simpl in *. by rewrite IH.
    + rewrite join_cons by done. rewrite join_cons in IH by done.
      by rewrite append_cons, IH.
Qed.

Lemma filter_all {A} (f : A -> bool) (l : list A) :
  (forall x, x ∈ l -> f x = true) -> List.filter f l = l.
Proof.
  induction l as [|x l IH]; [done|]. intros H. simpl.
  rewrite (H x) by by left. f_equal. apply IH. intros y Hy. apply H. by right.
Qed.

Lemma filter_filter {A} (f : A -> bool) (l : list A) :
  List.filter f (List.filter f l) = List.filter f l.
Proof.
  apply filter_all. intros x Hx. apply list_elem_of_In, filter_In in Hx.
  by destruct Hx.
Qed.

(** The lines that [cleanConvexOutput] keeps. *)
Lemma cleanConvexOutput_lint (out : string) :
  cleanConvexOutput "npm run lint" out
  = Js.join Js.nl
      (List.filter (fun line => negb (isBannedLine line))
         (Js.split Js.LF
            (Js.replace Js.cr Js.nl (Js.replace Js.crlf Js.nl out)))).
Proof. unfold cleanConvexOutput. by rewrite String.eqb_refl. Qed.

Lemma kept_lines_split (s : string) :
  let kept := List.filter (fun line => negb (isBannedLine line)) (Js.split Js.LF s) in
  Js.split Js.LF (Js.join Js.nl kept) = if kept is [] then [EmptyString] else kept.
Proof.
  intros kept. destruct kept as [|l ls] eqn:Hk; [done|].
  apply split_join; [done|]. intros l0 Hl0.
  apply (split_lines_clean Js.LF s). rewrite <- Hk in Hl0.
  apply list_elem_of_In, filter_In in Hl0 as [Hin _]. by apply list_elem_of_In.
Qed.

(** X13.  No line of a cleaned lint output contains a banned substring,
    whatever the output was, carriage returns included. *)
Theorem cleaned_lint_output_has_no_banned_line (out line : string) :
  line ∈ Js.split Js.LF (cleanConvexOutput "npm run lint" out) ->
  isBannedLine line = false.
Proof.
  rewrite cleanConvexOutput_lint.
  set (norm := Js.replace Js.cr Js.nl (Js.replace Js.crlf Js.nl out)).
  rewrite (kept_lines_split norm).
  destruct (List.filter _ (Js.split Js.LF norm)) as [|l ls] eqn:Hk.
  - by intros ->%list_elem_of_singleton.
  - rewrite <- Hk. intros H. apply list_elem_of_In, filter_In in H as [_ H].
    by apply negb_true_iff.
Qed.

Lemma cleaned_lint_output_has_no_banned_line_witness :
  isBannedLine "found 0 errors" = false.
Proof.
  apply (cleaned_lint_output_has_no_banned_line
           ("computing gzip size" +:+ Js.crlf +:+ "found 0 errors"
            +:+ Js.nl +:+ "transforming (3)")
           "found 0 errors").
  vm_compute. apply list_elem_of_In. simpl. by left.
Defined.

(** X14.  A lint output with line feeds only and without banned lines comes
    back as it is. *)
Theorem clean_lint_output_is_unchanged (out : string) :
  Js.includes Js.cr out = false ->
  (forall line, line ∈ Js.split Js.LF out -> isBannedLine line = false) ->
  cleanConvexOutput "npm run lint" out = out.
Proof.
  intros Hcr Hclean. rewrite cleanConvexOutput_lint_no_cr by done.
  unfold withoutBannedLines. rewrite filter_all.
  - apply join_split.
  - intros l Hl. by rewrite Hclean.
Qed.

Lemma clean_lint_output_is_unchanged_witness :
  let out := "src/a.ts" +:+ Js.nl +:+ "  1:1  error  no-var" +:+ Js.nl in
  cleanConvexOutput "npm run lint" out = out.
Proof.
  intros out. apply clean_lint_output_is_unchanged; [reflexivity|].
  intros line Hl. vm_compute in Hl.
  repeat (apply elem_of_cons in Hl as [->|Hl]; [reflexivity|]).
  by apply elem_of_nil in Hl.
Defined.

Lemma includes_char_cons (c d : ascii) (s : string) :
  Js.includes (String c EmptyString) (String d s)
  = Ascii.eqb c d || Js.includes (String c EmptyString) s.
Proof. simpl. by rewrite andb_true_r. Qed.

Lemma includes_char_app (c : ascii) (a b : string) :
  Js.includes (String c EmptyString) (a +:+ b)
  = Js.includes (String c EmptyString) a || Js.includes (String c EmptyString) b.
Proof.
  induction a as [|d a IH]; [by destruct b|].
  rewrite append_cons, !includes_char_cons, IH. by rewrite orb_assoc.
Qed.

Lemma includes_char_split (c sep : ascii) (s l : string) :
  Js.includes (String c EmptyString) s = false ->
  l ∈ Js.split sep s -> Js.includes (String c EmptyString) l = false.
Proof.
  revert l; induction s as [|d s IH]; intros l.
  - by intros _ ->%list_elem_of_singleton.
  - rewrite includes_char_cons. intros [Hd Hs]%orb_false_elim. simpl.
    destruct (Ascii.eqb d sep).
    + intros [->|H]%elem_of_cons; [done|]. by apply IH.
    + destruct (Js.split sep s) as [|l0 ls] eqn:E.
      { by destruct (split_cons_inv sep s). }
      intros [->|H]%elem_of_cons.
      * rewrite includes_char_cons, Hd. apply IH; [done|]. by left.
      * apply IH; [done|]. by right.
Qed.

Lemma includes_char_join (c sep : ascii) (ls : list string) :
  Ascii.eqb c sep = false ->
  (forall l, l ∈ ls -> Js.includes (String c EmptyString) l = false) ->
  Js.includes (String c EmptyString) (Js.join (String sep EmptyString) ls) = false.
Proof.
  intros Hc. induction ls as [|l ls IH]; [done|]. intros H.
  destruct ls as [|l' ls].
  - apply H. by left.
  - rewrite join_cons by done.
    rewrite includes_char_app, append_cons, includes_char_cons, Hc.
    rewrite (H l) by by left. rewrite append_nil. apply IH.
    intros l0 H0. apply H. by right.
Qed.

(** A lint output without carriage return is cleaned into one without. *)
Lemma cleanConvexOutput_keeps_line_feeds (out : string) :
  Js.includes Js.cr out = false ->
  Js.includes Js.cr (cleanConvexOutput "npm run lint" out) = false.
Proof.
  intros Hcr. rewrite cleanConvexOutput_lint_no_cr by done.
  apply (includes_char_join Js.CR Js.LF); [done|].
  intros l Hl. apply list_elem_of_In, filter_In in Hl as [Hl _].
  apply list_elem_of_In in Hl. by eapply includes_char_split.
Qed.

(** X15.  Cleaning is idempotent on lint outputs with line feeds only: an
    output that was cleaned is left as it is by a second cleaning. *)
Theorem cleanConvexOutput_idempotent (out : string) :
  Js.includes Js.cr out = false ->
  cleanConvexOutput "npm run lint" (cleanConvexOutput "npm run lint" out)
  = cleanConvexOutput "npm run lint" out.
Proof.
  intros Hcr.
  rewrite (cleanConvexOutput_lint_no_cr _ (cleanConvexOutput_keeps_line_feeds out Hcr)).
  rewrite (cleanConvexOutput_lint_no_cr _ Hcr).
  unfold withoutBannedLines. rewrite (kept_lines_split out).
  destruct (List.filter _ (Js.split Js.LF out)) as [|l ls] eqn:Hk; [done|].
  rewrite <- Hk. by rewrite filter_filter.
Qed.

Lemma cleanConvexOutput_idempotent_witness :
  let out := "Preparing Convex functions..." +:+ Js.nl +:+ "ok" in
  cleanConvexOutput "npm run lint" (cleanConvexOutput "npm run lint" out) = "ok".
Proof.
  intros out. rewrite (cleanConvexOutput_idempotent out eq_refl). reflexivity.
Defined.

(** ** Line ends with carriage returns *)

(** [s.replace(pat, rep)] rewrites the first occurrence of [pat], here the
    one behind a part that does not hold the first character of [pat]. *)
Lemma replace_first (c : ascii) (rest rep l s : string) :
  Js.includes (String c EmptyString) l = false ->
  Js.replace (String c rest) rep (l +:+ String c rest +:+ s) = l +:+ rep +:+ s.
Proof.
  induction l as [|d l IH].
  - intros _. rewrite !append_nil.
    change (String c rest +:+ s) with (String c (rest +:+ s)).
    cbn [Js.replace Js.startsWith]. rewrite Ascii.eqb_refl, startsWith_app.
    cbn [andb]. f_equal. change (String c (rest +:+ s)) with (String c rest +:+ s).
    apply slice_app.
  - rewrite includes_char_cons. intros [Hd Hl]%orb_false_elim.
    rewrite !(append_cons d l). cbn [Js.replace Js.startsWith]. rewrite Hd.
    cbn [andb]. by rewrite IH.
Qed.

(** C8.  The cleaning normalises the line ends of a lint output before it
    takes the lines: one line end ["\r\n"] becomes a line feed, and the
    lines come back as the claim says.  But each of the two replacements
    rewrites one occurrence only: of two line ends ["\r\n"], the second
    keeps its carriage return through the first replacement and has it
    turned into a line feed of its own by the second, so that an empty line
    comes between the second line and the third, a line that the output
    does not have. *)
Theorem cleanConvexOutput_second_line_end (l1 l2 l3 : string) :
  (forall l, l ∈ [l1; l2; l3] ->
     Js.includes Js.cr l = false /\ Js.includes Js.nl l = false) ->
  let kept := List.filter (fun line => negb (isBannedLine line)) in
  cleanConvexOutput "npm run lint" (l1 +:+ Js.crlf +:+ l2)
  = Js.join Js.nl (kept [l1; l2])
  /\ cleanConvexOutput "npm run lint" (l1 +:+ Js.crlf +:+ l2 +:+ Js.crlf +:+ l3)
     = Js.join Js.nl (kept [l1; l2; EmptyString; l3]).
Proof.
  intros Hl kept.
  destruct (Hl l1) as [Hcr1 Hnl1]; [repeat constructor|].
  destruct (Hl l2) as [Hcr2 Hnl2]; [repeat constructor|].
  destruct (Hl l3) as [Hcr3 Hnl3]; [repeat constructor|].
  assert (Hnl : forall x, Js.nl +:+ x = String Js.LF x) by done.
  rewrite !cleanConvexOutput_lint. fold kept. unfold Js.crlf, Js.cr, Js.nl in *.
  fold Js.nl. split.
  - rewrite (replace_first Js.CR Js.nl Js.nl l1 l2 Hcr1).
    rewrite (replace_absent Js.CR EmptyString Js.nl).
    2:{ rewrite !includes_char_app, Hcr1, Hcr2. done. }
    rewrite Hnl, split_app by done. by rewrite split_line.
  - rewrite (replace_first Js.CR Js.nl Js.nl l1 _ Hcr1).
    replace (l1 +:+ Js.nl +:+ l2 +:+ String Js.CR Js.nl +:+ l3)
      with ((l1 +:+ Js.nl +:+ l2) +:+ String Js.CR EmptyString +:+ (Js.nl +:+ l3))
      by (by rewrite !append_assoc).
    rewrite (replace_first Js.CR EmptyString Js.nl).
    2:{ rewrite !includes_char_app, Hcr1, Hcr2. done. }
    rewrite !append_assoc, !Hnl.
    rewrite split_app by done. rewrite split_app by done.
    change (String Js.LF l3) with (EmptyString +:+ String Js.LF l3).
    rewrite split_app by done. by rewrite split_line.
Qed.

Lemma cleanConvexOutput_second_line_end_witness :
  cleanConvexOutput "npm run lint" ("a" +:+ Js.crlf +:+ "b")
  = "a" +:+ Js.nl +:+ "b"
  /\ cleanConvexOutput "npm run lint" ("a" +:+ Js.crlf +:+ "b" +:+ Js.crlf +:+ "c")
     = "a" +:+ Js.nl +:+ "b" +:+ Js.nl +:+ Js.nl +:+ "c".
Proof.
  destruct (cleanConvexOutput_second_line_end "a" "b" "c") as [H1 H2].
  { intros l Hl. repeat (apply elem_of_cons in Hl as [->|Hl]; [by split|]).
    by apply elem_of_nil in Hl. }
  split; [rewrite H1|rewrite H2]; reflexivity.
Defined.

(** ** Word boundaries *)

Lemma matchesWord_head (w s : string) :
  Js.startsWith w s = true ->
  Js.startsWithWordChar (Js.slice (String.length w) s) = false ->
  Js.matchesWord false w s = true.
Proof. intros Hw Hpost. destruct s; simpl; by rewrite Hw, Hpost. Qed.

(** X16.  The search for [/\bw\b/] finds a match exactly when the word stands
    in the text between a part that does not end with a word character and a
    part that does not start with one. *)
Theorem matchesWord_spec (prev : bool) (w s : string) :
  Js.matchesWord prev w s = true <-> wordOccurs prev w s.
Proof.
  split.
  - revert prev. induction s as [|c s IH]; intros prev; simpl.
    + rewrite orb_false_r. intros [[Hp Hw]%andb_prop Hpost]%andb_prop.
      exists EmptyString, (Js.slice (String.length w) EmptyString).
      apply negb_true_iff in Hp, Hpost. split_and!; try done.
      rewrite append_nil. by apply startsWith_inv.
    + intros [H|H]%orb_prop.
      * apply andb_prop in H as [[Hp Hw]%andb_prop Hpost].
        exists EmptyString, (Js.slice (String.length w) (String c s)).
        apply negb_true_iff in Hp, Hpost. split_and!; try done.
        rewrite append_nil. by apply startsWith_inv.
      * destruct (IH _ H) as (pre & post & -> & Hpre & Hpost).
        exists (String c pre), post. by rewrite append_cons.
  - intros (pre & post & -> & Hpre & Hpost). revert prev Hpre.
    induction pre as [|c pre IH]; intros prev Hpre.
    + simpl in Hpre. subst prev. rewrite append_nil.
      apply matchesWord_head; [apply startsWith_app|by rewrite slice_app].
    + rewrite append_cons. simpl. rewrite (IH _ Hpre). apply orb_true_r.
Qed.

Lemma matchesWord_spec_witness :
  Js.matchesWord false "convex" "npm i convex@1.2 react" = true
  /\ ~ wordOccurs false "convex" "npm i convexity".
Proof.
  split.
  - apply matchesWord_spec. exists "npm i ", "@1.2 react". by split_and!.
  - intros H. apply matchesWord_spec in H. discriminate H.
Defined.

(** ** The [npmExec] strategy *)

Lemma runNpmExecAction_unfold env a content r :
  ActionState.type a = Some npmExec ->
  ActionState.content a = Some content ->
  runNpmExecAction env a r
  = (if negb (Js.startsWith "npm run " content)
        && negb (Js.startsWith "npx " content)
     then loggerError ("Invalid npmExec action: " +:+ content) None
     else if Js.matchesWord false "convex" content
     then loggerError "Convex should be run as a tool call" None
     else if String.eqb content "npm run dev"
     then loggerError "Dev server should be run as a tool call" None
     else runShellAction env (ActionState.spread a (ActionState.asShell content))) r.
Proof.
  intros Hty Hc. unfold runNpmExecAction.
  destruct (decide (ActionState.type a <> Some npmExec)); [done|].
  by rewrite Hc.
Qed.

Lemma loggerError_silent msg r :
  let out := loggerError msg None r in
  result out = Normal tt /\ calls (after out) = calls r
  /\ actions (after out) = actions r /\ controllers (after out) = controllers r
  /\ exists msg', logged (after out) = (logged r ++ [LoggerError msg' None])%list.
Proof. simpl. split_and!; try done. by eexists. Qed.

(** X4.  An [npmExec] action runs nothing, and only logs, when its content
    starts neither with ["npm run "] nor with ["npx "], when it holds [convex]
    as a whole word, or when it is ["npm run dev"]; otherwise the content goes
    to the shell strategy as it is. *)
Theorem npmExec_gate env a content r :
  ActionState.type a = Some npmExec ->
  ActionState.content a = Some content ->
  let out := runNpmExecAction env a r in
  let silent :=
    result out = Normal tt /\ calls (after out) = calls r
    /\ actions (after out) = actions r /\ controllers (after out) = controllers r
    /\ exists msg, logged (after out) = (logged r ++ [LoggerError msg None])%list in
  (Js.startsWith "npm run " content = false ->
   Js.startsWith "npx " content = false -> silent)
  /\ (Js.matchesWord false "convex" content = true -> silent)
  /\ (content = "npm run dev" -> silent)
  /\ ((Js.startsWith "npm run " content = true
       \/ Js.startsWith "npx " content = true) ->
      Js.matchesWord false "convex" content = false ->
      content <> "npm run dev" ->
      out = runShellAction env
              (ActionState.spread a (ActionState.asShell content)) r).
Proof.
  intros Hty Hc out silent. subst out silent.
  rewrite (runNpmExecAction_unfold env a content r Hty Hc).
  split_and!.
  - intros -> ->. apply loggerError_silent.
  - intros Hcv.
    destruct (negb (Js.startsWith "npm run " content)
              && negb (Js.startsWith "npx " content));
      [|rewrite Hcv]; apply loggerError_silent.
  - intros ->. apply loggerError_silent.
  - intros Hpre Hcv Hdev.
    assert (negb (Js.startsWith "npm run " content)
            && negb (Js.startsWith "npx " content) = false) as ->.
    { destruct Hpre as [-> | ->]; [done|]. apply andb_false_r. }
    rewrite Hcv.
    destruct (String.eqb content "npm run dev") eqn:E; [|done].
    by apply String.eqb_eq in E.
Qed.

Lemma npmExec_gate_witness :
  let env := Fixture.env 0 "ok" false in
  let a c := ActionState.mk (Some npmExec) (Some c) None (Some running) None
               (Some true) None (Some 0) in
  calls (after (runNpmExecAction env (a "npm run dev") Fixture.runner)) = []
  /\ calls (after (runNpmExecAction env (a "node server.js") Fixture.runner)) = []
  /\ calls (after (runNpmExecAction env (a "npx convex deploy") Fixture.runner)) = []
  /\ calls (after (runNpmExecAction env (a "npx prettier .") Fixture.runner))
     = [ExecuteCommand "1700000000000" (Some "npx prettier .")].
Proof.
  intros env a.
  destruct (npmExec_gate env (a "npm run dev") "npm run dev" Fixture.runner
              eq_refl eq_refl) as (_ & _ & Hdev & _).
  destruct (npmExec_gate env (a "node server.js") "node server.js" Fixture.runner
              eq_refl eq_refl) as (Hpre & _).
  destruct (npmExec_gate env (a "npx convex deploy") "npx convex deploy"
              Fixture.runner eq_refl eq_refl) as (_ & Hcv & _).
  destruct (npmExec_gate env (a "npx prettier .") "npx prettier ." Fixture.runner
              eq_refl eq_refl) as (_ & _ & _ & Hrun).
  split_and!.
  - exact (proj1 (proj2 (Hdev eq_refl))).
  - exact (proj1 (proj2 (Hpre eq_refl eq_refl))).
  - exact (proj1 (proj2 (Hcv eq_refl))).
  - rewrite Hrun; [reflexivity|by right|reflexivity|discriminate].
Defined.

(** ** The [file] strategy *)

(** X5.  A file write is best effort.  Once the sandbox is there and the path
    is resolved, the strategy never raises: it asks for the folder, unless
    the folder is ["."], then for the write of the content at the relative
    path, whether the folder could be made or not, and a step that fails is
    only logged. *)
Theorem runFileAction_best_effort env a r wc rel :
  ActionState.type a = Some file ->
  webcontainer env = Resolves wc ->
  relative env (Sandbox.workdir wc) (ActionState.filePath a) = Resolves rel ->
  let folder := Js.stripTrailingSlashes (dirname env rel) in
  let out := runFileAction env a r in
  result out = Normal tt
  /\ calls (after out)
     = (calls r ++ (if String.eqb folder "." then [] else [Mkdir folder])
        ++ [WriteFile rel (ActionState.content a)])%list
  /\ logged (after out)
     = (logged r
        ++ (if String.eqb folder "." then []
            else failureLog "Failed to create folder" (Sandbox.mkdir wc folder))
        ++ failureLog "Failed to write file"
             (Sandbox.writeFile wc rel (ActionState.content a)))%list
  /\ actions (after out) = actions r
  /\ alerts (after out) = alerts r.
Proof.
  intros Hty Hwc Hrel folder out.
  assert (Hout : out = runFileAction env a r) by done. clearbody out.
  unfold runFileAction in Hout.
  destruct (decide (ActionState.type a <> Some file)); [done|].
  rewrite Hwc in Hout. unfold bind at 1 in Hout. simpl await in Hout.
  unfold ret at 1 in Hout. rewrite Hrel in Hout. unfold bind at 1 in Hout.
  simpl await in Hout. unfold ret at 1 in Hout. fold folder in Hout.
  unfold bind, tryCatch, called, loggerError, modify in Hout.
  destruct (String.eqb folder "."); simpl in Hout;
    destruct (Sandbox.writeFile wc rel (ActionState.content a)) as [[]|];
    simpl in Hout;
    try (destruct (Sandbox.mkdir wc folder) as [[]|]; simpl in Hout);
    subst out; simpl; rewrite <- ?app_assoc, ?app_nil_r; by split_and!.
Qed.

Lemma runFileAction_best_effort_witness :
  let wc := {| Sandbox.workdir := "/home/project";
               Sandbox.mkdir := fun _ => Rejects "Error" "EACCES";
               Sandbox.writeFile := fun _ _ => Resolves tt;
               Sandbox.spawn := fun _ _ => Rejects "Error" "no" |} in
  let env := {| runnerId := "1";
                webcontainer := Resolves wc;
                getShellTerminal := Fixture.shellWith 0 "ok" false;
                relative := fun _ p => Resolves "src/app/main.ts";
                dirname := fun _ => "src/app/";
                pathJoin := fun a b => a +:+ "/" +:+ b;
                JSON_parse := fun _ => Rejects "SyntaxError" "no";
                editorToolParameters_parse := fun s => Resolves s;
                editor := fun s => Resolves s;
                bashToolParameters_parse := fun s => Resolves s |} in
  let a := ActionState.mk (Some file) (Some "export {}")
             (Some "/home/project/src/app/main.ts") (Some running) None
             (Some false) None (Some 0) in
  let out := runFileAction env a Fixture.runner in
  result out = Normal tt
  /\ calls (after out)
     = [Mkdir "src/app"; WriteFile "src/app/main.ts" (Some "export {}")]
  /\ logged (after out)
     = [LoggerError ("Failed to create folder" +:+ Js.nl +:+ Js.nl)
          (Some (Js.PlainError "Error" "EACCES"))].
Proof.
  intros wc env a out.
  destruct (runFileAction_best_effort env a Fixture.runner wc "src/app/main.ts"
              eq_refl eq_refl eq_refl) as (Hres & Hcalls & Hlog & _).
  by split_and!.
Defined.

(** ** Strategies that never alert *)

Section Unclassified.

Variable env : Collaborators.

Ltac plain_step :=
  match goal with
  | |- raisesOnly _ (bind _ _) => apply raisesOnly_bind; [|intros ?]
  | |- raisesOnly _ (detached _) => apply raisesOnly_detached
  | |- raisesOnly _ (tryCatch _ _) => apply raisesOnly_tryCatch; [|intros ? ?]
  | |- raisesOnly _ (ret _) => apply raisesOnly_ret
  | |- raisesOnly _ (throw (Js.newError _)) => by apply raisesOnly_throw
  | |- raisesOnly _ (throw _) => apply raisesOnly_throw; assumption
  | |- raisesOnly _ (unreachable _) => by apply raisesOnly_throw
  | |- raisesOnly _ get => apply raisesOnly_get
  | |- raisesOnly _ (modify _) => apply raisesOnly_modify
  | |- raisesOnly _ (await _) => by apply raisesOnly_await
  | |- raisesOnly _ (readProp _ _ _) => by apply raisesOnly_readProp
  | |- raisesOnly _ (if ?b then _ else _) => destruct b
  | |- raisesOnly _ (match ?x with _ => _ end) => destruct x
  | |- raisesOnly _ _ => solve [auto]
  end.

Lemma runFileAction_unclassified a :
  raisesOnly unclassified (runFileAction env a).
Proof. unfold runFileAction, called, loggerError. repeat plain_step. Qed.

Lemma runToolUseAction_unclassified a :
  raisesOnly unclassified (runToolUseAction env a).
Proof.
  unfold runToolUseAction, getResolvers, bridgeTool, dispatchTool,
    _runShellCommand, executeCommand, callAbort, updateAction, resolveToolCall,
    consoleError, called.
  repeat plain_step.
Qed.

Lemma abortSignalAborted_unclassified action :
  raisesOnly unclassified (abortSignalAborted action).
Proof. unfold abortSignalAborted. repeat plain_step. Qed.

End Unclassified.

(** The [catch] block of the dispatcher raises no alert for an error that is
    not classified. *)
Lemma executeActionCatch_unclassified_alerts id action e r :
  unclassified e ->
  alerts (after (executeActionCatch id action e r)) = alerts r.
Proof.
  intros He. unfold executeActionCatch, abortSignalAborted, bind, get, readProp.
  destruct action as [a|]; [|done]. simpl.
  destruct (ActionState.abortSignal a) as [k|]; [|done]. simpl.
  destruct (signalAborted r k); [done|].
  unfold updateAction, loggerError, modify, ret. simpl. by rewrite He.
Qed.

(** X6.  A [file], [toolUse] or [convex] action never raises an alert,
    whatever the sandbox, the parsers and the tools do: the errors of these
    strategies are never classified ones. *)
Theorem unclassified_strategies_never_alert env id isStreaming r a :
  actions r !! id = Some a ->
  ActionState.type a = Some file \/ ActionState.type a = Some toolUse
  \/ ActionState.type a = Some convex ->
  alerts (after (executeAction env id isStreaming r)) = alerts r.
Proof.
  intros Ha Hty. unfold executeAction. unfold bind at 1, get. rewrite Ha.
  unfold bind at 1.
  set (r0 := after (updateAction id (ActionState.withStatus running) r)).
  change (updateAction id (ActionState.withStatus running) r) with (Normal tt, r0).
  cbv iota. transitivity (alerts r0); [|done].
  unfold tryCatch. unfold bind at 1. simpl readProp. unfold ret at 1.
  unfold bind at 1.
  assert (Hframe : alerts (after (runStrategy env id a r0)) = alerts r0).
  { unfold runStrategy. destruct Hty as [-> | [-> | ->]]; unfold bind.
    - pose proof (runFileAction_untouched alerts) as H.
      specialize (H ltac:(done) ltac:(done) env a r0).
      by destruct (runFileAction env a r0) as [[[]|e] r1].
    - assert (H : alerts (after (runToolUseAction env a r0)) = alerts r0)
        by (by apply (runToolUseAction_untouched alerts)).
      by destruct (runToolUseAction env a r0) as [[[]|e] r1].
    - done. }
  assert (Hplain : raisesOnly unclassified (runStrategy env id a)).
  { unfold runStrategy.
    destruct Hty as [-> | [-> | ->]].
    - apply raisesOnly_bind; [apply runFileAction_unclassified|].
      intros ?. apply raisesOnly_ret.
    - apply raisesOnly_bind; [apply runToolUseAction_unclassified|].
      intros ?. apply raisesOnly_ret.
    - apply raisesOnly_bind; [apply raisesOnly_modify|].
      intros ?. apply raisesOnly_ret. }
  destruct (runStrategy env id a r0) as [[finished|e] r1] eqn:E;
    change (alerts r1 = alerts r0) in Hframe; rewrite <- Hframe.
  - destruct finished; simpl; [|done].
    destruct isStreaming; [done|].
    unfold abortSignalAborted, bind, get, readProp. simpl.
    destruct (ActionState.abortSignal a) eqn:Hsig; simpl; [done|].
    by apply executeActionCatch_unclassified_alerts.
  - apply executeActionCatch_unclassified_alerts. by eapply Hplain.
Qed.

Lemma unclassified_strategies_never_alert_witness :
  let env := Fixture.envWith (Fixture.shellWith 1 "boom" false)
               (Fixture.sandboxWith [] 1) "no_such_tool" in
  let d := Fixture.data "a1" toolUse "{}" in
  let r := Fixture.run [addAction d] Fixture.runner in
  alerts (after (executeAction env "a1" false r)) = []
  /\ statusOf (after (executeAction env "a1" false r)) "a1" = Some failed.
Proof.
  intros env d r. split.
  - refine (unclassified_strategies_never_alert env "a1" false r _ eq_refl _).
    right. by left.
  - vm_compute. reflexivity.
Defined.

(** ** The tool-call bridge, again *)

Lemma errorMessage_newError (msg : string) :
  msg <> EmptyString -> errorMessage (Js.newError msg) = "Error: " +:+ msg.
Proof. intros H. by destruct msg. Qed.

(** The bridge when the tool dispatch raises without touching the runner. *)
Lemma runToolUseAction_refuses env a parsed r msg :
  JSON_parse env (default "undefined" (ActionState.content a)) = Resolves parsed ->
  state parsed = StateCall ->
  msg <> EmptyString ->
  (forall r0, dispatchTool env a parsed r0 = (Throw (Js.newError msg), r0)) ->
  let out := runToolUseAction env a r in
  result out = Throw (Js.newError msg)
  /\ calls (after out) = calls r
  /\ actions (after out) = actions r
  /\ (toolCalls r !! toolCallId parsed = None
      \/ toolCalls r !! toolCallId parsed = Some Unsettled ->
      toolCalls (after out) !! toolCallId parsed
      = Some (Resolved ("Error: " +:+ msg))).
Proof.
  intros Hparse Hstate Hmsg Hraise out. subst out.
  rewrite (runToolUseAction_call env a parsed r Hparse Hstate).
  rewrite (bridgeTool_throws env a parsed _ _ _ (Hraise _)).
  split_and!; try done.
  intros Hpending.
  set (r1 := after (getResolvers (toolCallId parsed) r)).
  transitivity
    (toolCalls (after (resolveToolCall (toolCallId parsed)
                         (errorMessage (Js.newError msg)) r1))
     !! toolCallId parsed); [done|].
  rewrite resolveToolCall_lookup. unfold r1.
  rewrite getResolvers_lookup, errorMessage_newError by done.
  by destruct Hpending as [-> | ->].
Qed.

(** X7.  A tool invocation that is not a complete call is not bridged: in
    state [result] the strategy returns and the runner is as it was; in state
    [partial-call] it raises, and no future is created or resolved for the
    call. *)
Theorem toolUse_only_bridges_calls env a parsed r :
  JSON_parse env (default "undefined" (ActionState.content a)) = Resolves parsed ->
  (state parsed = StateResult -> runToolUseAction env a r = (Normal tt, r))
  /\ (state parsed = StatePartialCall ->
      runToolUseAction env a r
      = (Throw (Js.newError "Tool call is still in progress"), r)).
Proof.
  intros Hparse. unfold runToolUseAction. rewrite Hparse. unfold bind. simpl.
  split; by intros ->.
Qed.

Lemma toolUse_only_bridges_calls_witness :
  let env := {| runnerId := "1";
                webcontainer := Resolves (Fixture.sandboxWith [] 0);
                getShellTerminal := Fixture.shellWith 0 "ok" false;
                relative := fun _ p => Resolves (default "undefined" p);
                dirname := fun _ => ".";
                pathJoin := fun a b => a +:+ "/" +:+ b;
                JSON_parse := fun s =>
                  Resolves {| state := StatePartialCall; toolCallId := "call-7";
                              toolName := "bash"; args := s |};
                editorToolParameters_parse := fun s => Resolves s;
                editor := fun s => Resolves s;
                bashToolParameters_parse := fun s => Resolves s |} in
  let a := ActionState.mk (Some toolUse) (Some "ls") None (Some running) None
             (Some true) None (Some 0) in
  toolCalls (after (runToolUseAction env a Fixture.runner)) !! "call-7" = None
  /\ calls (after (runToolUseAction env a Fixture.runner)) = [].
Proof.
  intros env a.
  destruct (toolUse_only_bridges_calls env a
              {| state := StatePartialCall; toolCallId := "call-7";
                 toolName := "bash"; args := "ls" |} Fixture.runner eq_refl)
    as [_ H].
  rewrite (H eq_refl). by split.
Defined.

(** X8.  A [bash] tool call with an empty command raises before anything is
    asked of the shell, and the pending future of the call is resolved with
    ["Error: A nonempty command is required"]. *)
Theorem bash_tool_requires_command env a parsed r :
  JSON_parse env (default "undefined" (ActionState.content a)) = Resolves parsed ->
  state parsed = StateCall ->
  toolName parsed = "bash" ->
  bashToolParameters_parse env (args parsed) = Resolves EmptyString ->
  let out := runToolUseAction env a r in
  result out = Throw (Js.newError "A nonempty command is required")
  /\ calls (after out) = calls r
  /\ actions (after out) = actions r
  /\ (toolCalls r !! toolCallId parsed = None
      \/ toolCalls r !! toolCallId parsed = Some Unsettled ->
      toolCalls (after out) !! toolCallId parsed
      = Some (Resolved "Error: A nonempty command is required")).
Proof.
  intros Hparse Hstate Htool Hargs.
  apply (runToolUseAction_refuses env a parsed r
           "A nonempty command is required" Hparse Hstate); [done|].
  intros r0. unfold dispatchTool. rewrite Htool, Hargs. reflexivity.
Qed.

Lemma bash_tool_requires_command_witness :
  let env := Fixture.env 0 "ok" false in
  let a := ActionState.mk (Some toolUse) (Some EmptyString) None (Some running)
             None (Some true) None (Some 0) in
  let out := runToolUseAction env a Fixture.runner in
  calls (after out) = []
  /\ toolCalls (after out) !! "call-1"
     = Some (Resolved "Error: A nonempty command is required").
Proof.
  intros env a out.
  destruct (bash_tool_requires_command env a
              {| state := StateCall; toolCallId := "call-1"; toolName := "bash";
                 args := EmptyString |} Fixture.runner
              eq_refl eq_refl eq_refl eq_refl) as (_ & Hcalls & _ & Hanswer).
  split; [exact Hcalls|]. apply Hanswer. by left.
Defined.

(** X9.  A tool call with a name that is none of [str_replace_editor], [bash]
    and [deploy] raises ["Unknown tool: " + name] without any call on the
    sandbox, and the pending future of the call is resolved with that message
    behind ["Error: "]. *)
Theorem unknown_tool_is_answered env a parsed r :
  JSON_parse env (default "undefined" (ActionState.content a)) = Resolves parsed ->
  state parsed = StateCall ->
  toolName parsed <> "str_replace_editor" ->
  toolName parsed <> "bash" ->
  toolName parsed <> "deploy" ->
  let out := runToolUseAction env a r in
  result out = Throw (Js.newError ("Unknown tool: " +:+ toolName parsed))
  /\ calls (after out) = calls r
  /\ actions (after out) = actions r
  /\ (toolCalls r !! toolCallId parsed = None
      \/ toolCalls r !! toolCallId parsed = Some Unsettled ->
      toolCalls (after out) !! toolCallId parsed
      = Some (Resolved ("Error: Unknown tool: " +:+ toolName parsed))).
Proof.
  intros Hparse Hstate Hed Hbash Hdep.
  apply (runToolUseAction_refuses env a parsed r
           ("Unknown tool: " +:+ toolName parsed) Hparse Hstate); [done|].
  intros r0. unfold dispatchTool.
  apply String.eqb_neq in Hed as ->. apply String.eqb_neq in Hbash as ->.
  apply String.eqb_neq in Hdep as ->. reflexivity.
Qed.

Lemma unknown_tool_is_answered_witness :
  let env := Fixture.envWith (Fixture.shellWith 0 "ok" false)
               (Fixture.sandboxWith [] 0) "view" in
  let a := ActionState.mk (Some toolUse) (Some "{}") None (Some running) None
             (Some true) None (Some 0) in
  toolCalls (after (runToolUseAction env a Fixture.runner)) !! "call-1"
  = Some (Resolved "Error: Unknown tool: view").
Proof.
  intros env a.
  destruct (unknown_tool_is_answered env a
              {| state := StateCall; toolCallId := "call-1"; toolName := "view";
                 args := "{}" |} Fixture.runner eq_refl eq_refl)
    as (_ & _ & _ & Hanswer); try discriminate.
  apply Hanswer. by left.
Defined.

Lemma bridgeTool_returns env a parsed r res rd :
  dispatchTool env a parsed r = (Normal res, rd) ->
  bridgeTool env a parsed r
  = (Normal tt, after (resolveToolCall (toolCallId parsed) res rd)).
Proof. intros H. unfold bridgeTool, tryCatch, bind. by rewrite H. Qed.

(** X10.  When the tool of a [toolUse] action returns, the pending future of
    the call is resolved with the result of the tool, and the action ends
    [complete], or [aborted] when its signal fired meanwhile. *)
Theorem toolUse_success_is_answered env id r a k parsed res rd :
  actions r !! id = Some a ->
  ActionState.type a = Some toolUse ->
  ActionState.abortSignal a = Some k ->
  JSON_parse env (default "undefined" (ActionState.content a)) = Resolves parsed ->
  state parsed = StateCall ->
  let dispatched := after (updateAction id (ActionState.withStatus running) r) in
  dispatchTool env a parsed (after (getResolvers (toolCallId parsed) dispatched))
  = (Normal res, rd) ->
  let out := executeAction env id false r in
  result out = Normal tt
  /\ (toolCalls r !! toolCallId parsed = None
      \/ toolCalls r !! toolCallId parsed = Some Unsettled ->
      toolCalls (after out) !! toolCallId parsed = Some (Resolved res))
  /\ statusOf (after out) id
     = Some (if signalAborted rd k then aborted else complete)
  /\ alerts (after out) = alerts r.
Proof.
  intros Ha Hty Hsig Hparse Hstate dispatched Hres out.
  set (r2 := after (resolveToolCall (toolCallId parsed) res rd)).
  assert (Hstrategy : runStrategy env id a dispatched = (Normal true, r2)).
  { unfold runStrategy. rewrite Hty. unfold bind.
    rewrite (runToolUseAction_call env a parsed _ Hparse Hstate).
    by rewrite (bridgeTool_returns env a parsed _ res rd Hres). }
  assert (Hout : out = updateAction id
                   (ActionState.withStatus
                      (if signalAborted rd k then aborted else complete)) r2).
  { subst out. by rewrite (executeAction_strategy_returns env id r a k r2). }
  rewrite Hout. split_and!.
  - done.
  - intros Hpending.
    transitivity (toolCalls r2 !! toolCallId parsed); [done|].
    unfold r2. rewrite resolveToolCall_lookup.
    pose proof (dispatchTool_toolCalls env a parsed
                  (after (getResolvers (toolCallId parsed) dispatched))) as Hframe.
    rewrite Hres in Hframe.
    change (toolCalls rd
            = toolCalls (after (getResolvers (toolCallId parsed) dispatched)))
      in Hframe.
    rewrite Hframe, getResolvers_lookup.
    change (toolCalls dispatched) with (toolCalls r).
    by destruct Hpending as [-> | ->].
  - apply statusOf_updateAction.
  - transitivity (alerts rd); [done|].
    pose proof (dispatchTool_untouched alerts ltac:(done) ltac:(done) ltac:(done)
                  env a parsed
                  (after (getResolvers (toolCallId parsed) dispatched))) as Hframe.
    by rewrite Hres in Hframe.
Qed.

Lemma toolUse_success_is_answered_witness :
  let env := Fixture.env 0 "total 0" false in
  let d := Fixture.data "a1" toolUse "ls -la" in
  let r := Fixture.run [addAction d] Fixture.runner in
  let out := executeAction env "a1" false r in
  toolCalls (after out) !! "call-1" = Some (Resolved "total 0")
  /\ statusOf (after out) "a1" = Some complete.
Proof.
  intros env d r out.
  pose (a := ActionState.mk (Some toolUse) (Some "ls -la") None (Some pending)
               None (Some false)
               (Some {| abortController := 0; abortTarget := "a1" |}) (Some 0)).
  pose (parsed := {| state := StateCall; toolCallId := "call-1";
                     toolName := "bash"; args := "ls -la" |}).
  pose (dispatched := after (updateAction "a1" (ActionState.withStatus running) r)).
  destruct (toolUse_success_is_answered env "a1" r a 0 parsed "total 0"
              (after (dispatchTool env a parsed
                        (after (getResolvers "call-1" dispatched))))
              eq_refl eq_refl eq_refl eq_refl eq_refl eq_refl)
    as (_ & Hanswer & Hstatus & _).
  split; [apply Hanswer; by left|exact Hstatus].
Defined.

Lemma dispatchTool_bash env a parsed command :
  toolName parsed = "bash" ->
  bashToolParameters_parse env (args parsed) = Resolves command ->
  command <> EmptyString ->
  Shell.ready (getShellTerminal env) = Resolves tt ->
  dispatchTool env a parsed
  = (let* resp := executeCommand env (getShellTerminal env) a (Some command) in
     if decide (exitCodeOf resp <> Some 0%Z)
     then throw (Js.newError
                   ("Process exited with code " +:+ showExitCode resp +:+ ": "
                    +:+ showOutput resp))
     else ret (outputOr resp EmptyString)).
Proof.
  intros Htool Hargs Hcmd Hready. unfold dispatchTool. rewrite Htool, Hargs, Hready.
  destruct command; [done|]. reflexivity.
Qed.

(** X11.  The [bash] tool, on a command that is not empty and a shell that is
    ready: the shell is asked to run exactly the command; on exit code 0 the
    tool gives the captured output; on another exit code, or when the shell
    gives no result, it raises ["Process exited with code <code>: <output>"],
    an error that is not classified. *)
Theorem bash_tool_runs_command env a parsed r command hook resp :
  toolName parsed = "bash" ->
  bashToolParameters_parse env (args parsed) = Resolves command ->
  command <> EmptyString ->
  Shell.ready (getShellTerminal env) = Resolves tt ->
  Shell.executeCommand (getShellTerminal env) (runnerId env) (Some command)
  = {| Shell.abortRequested := hook; Shell.settled := Resolves resp |} ->
  let out := dispatchTool env a parsed r in
  calls (after out) = (calls r ++ [ExecuteCommand (runnerId env) (Some command)])%list
  /\ (forall code output,
        resp = Some {| Shell.exitCode := code; Shell.output := output |} ->
        (code = 0%Z -> result out = Normal output)
        /\ (code <> 0%Z ->
            result out
            = Throw (Js.newError ("Process exited with code " +:+ pretty code
                                  +:+ ": " +:+ output))))
  /\ (resp = None ->
      result out
      = Throw (Js.newError "Process exited with code undefined: undefined")).
Proof.
  intros Htool Hargs Hcmd Hready Hrun out.
  assert (Hout : out = dispatchTool env a parsed r) by done. clearbody out.
  rewrite (dispatchTool_bash env a parsed command Htool Hargs Hcmd Hready) in Hout.
  pose proof (executeCommand_calls env (getShellTerminal env) a (Some command) r)
    as Hcalls.
  unfold bind at 1 in Hout.
  assert (Hres : result (executeCommand env (getShellTerminal env) a
                           (Some command) r) = Normal resp).
  { unfold executeCommand, called, callAbort, updateAction, bind, modify.
    rewrite Hrun. simpl. by destruct hook, (ActionState.abort a). }
  destruct (executeCommand env (getShellTerminal env) a (Some command) r)
    as [c r1]. simpl in Hres, Hcalls. subst c.
  split_and!.
  - subst out. by destruct (decide (exitCodeOf resp <> Some 0%Z)).
  - intros code output ->. subst out. simpl exitCodeOf. split.
    + intros ->. destruct (decide _) as [Hc|_]; [by destruct Hc|].
      simpl. by destruct output.
    + intros Hne. destruct (decide _) as [_|Hc]; [done|].
      destruct Hc. simpl. by intros [= ?].
  - intros ->. subst out. simpl exitCodeOf.
    destruct (decide _) as [_|Hc]; [done|]. by destruct Hc.
Qed.

Lemma bash_tool_runs_command_witness :
  let env := Fixture.env (-3) "killed" false in
  let a := ActionState.mk (Some toolUse) (Some "sleep 9") None (Some running)
             None (Some true) None (Some 0) in
  let parsed := {| state := StateCall; toolCallId := "call-1";
                   toolName := "bash"; args := "sleep 9" |} in
  result (dispatchTool env a parsed Fixture.runner)
  = Throw (Js.newError "Process exited with code -3: killed").
Proof.
  intros env a parsed.
  destruct (bash_tool_runs_command env a parsed Fixture.runner "sleep 9" false
              (Some {| Shell.exitCode := -3; Shell.output := "killed" |})
              eq_refl eq_refl ltac:(discriminate) eq_refl eq_refl)
    as (_ & H & _).
  destruct (H (-3)%Z "killed" eq_refl) as [_ Hko].
  rewrite Hko; [reflexivity|discriminate].
Defined.

Lemma dispatchTool_deploy env a parsed :
  toolName parsed = "deploy" ->
  dispatchTool env a parsed = _runShellCommand env a "npx convex dev --once".
Proof. intros Htool. unfold dispatchTool. by rewrite Htool. Qed.

(** X12.  The [deploy] tool asks the shell for ["npx convex dev --once"] and
    nothing else.  Its output is never cleaned: on exit code 0 the tool gives
    the captured output, and on a failure the error message carries the
    captured output as it is, since the cleaning applies to the lint command
    only. *)
Theorem deploy_tool_reports_raw_output env a parsed r hook resp :
  toolName parsed = "deploy" ->
  Shell.ready (getShellTerminal env) = Resolves tt ->
  Shell.executeCommand (getShellTerminal env) (runnerId env)
    (Some "npx convex dev --once")
  = {| Shell.abortRequested := hook; Shell.settled := Resolves resp |} ->
  let out := dispatchTool env a parsed r in
  calls (after out)
  = (calls r ++ [ExecuteCommand (runnerId env) (Some "npx convex dev --once")])%list
  /\ (exitCodeOf resp = Some 0%Z -> result out = Normal (outputOr resp EmptyString))
  /\ (exitCodeOf resp <> Some 0%Z ->
      result out
      = Throw (Js.newError ("Process exited with code " +:+ showExitCode resp
                            +:+ ": " +:+ outputOr resp EmptyString))).
Proof.
  intros Htool Hready Hrun out.
  assert (Hout : out = dispatchTool env a parsed r) by done. clearbody out.
  rewrite (dispatchTool_deploy env a parsed Htool) in Hout.
  unfold _runShellCommand in Hout. rewrite Hready in Hout.
  unfold bind at 1 in Hout. simpl await in Hout. unfold ret at 1 in Hout.
  pose proof (executeCommand_calls env (getShellTerminal env) a
                (Some "npx convex dev --once") r) as Hcalls.
  unfold bind at 1 in Hout.
  assert (Hres : result (executeCommand env (getShellTerminal env) a
                           (Some "npx convex dev --once") r) = Normal resp).
  { unfold executeCommand, called, callAbort, updateAction, bind, modify.
    rewrite Hrun. simpl. by destruct hook, (ActionState.abort a). }
  destruct (executeCommand env (getShellTerminal env) a
              (Some "npx convex dev --once") r) as [c r1].
  simpl in Hres, Hcalls. subst c.
  rewrite (cleanConvexOutput_other "npx convex dev --once") in Hout by done.
  subst out.
  destruct (decide (exitCodeOf resp <> Some 0%Z)) as [Hne|Heq]; by split_and!.
Qed.

Lemma deploy_tool_reports_raw_output_witness :
  let noisy := "Preparing Convex functions..." +:+ Js.nl +:+ "schema error" in
  let env := Fixture.envWith (Fixture.shellWith 1 noisy false)
               (Fixture.sandboxWith [] 0) "deploy" in
  let a := ActionState.mk (Some toolUse) (Some "{}") None (Some running) None
             (Some true) None (Some 0) in
  let parsed := {| state := StateCall; toolCallId := "call-1";
                   toolName := "deploy"; args := "{}" |} in
  result (dispatchTool env a parsed Fixture.runner)
  = Throw (Js.newError ("Process exited with code 1: " +:+ noisy)).
Proof.
  intros noisy env a parsed.
  destruct (deploy_tool_reports_raw_output env a parsed Fixture.runner false
              (Some {| Shell.exitCode := 1; Shell.output := noisy |})
              eq_refl eq_refl eq_refl) as (_ & _ & Hko).
  apply Hko. discriminate.
Defined.

(** ** How a shell action fails *)

(** X17.  A shell action whose shell cannot be reached fails with the error
    of the shell, which is not classified, and nothing is asked of the
    shell; a shell that answers with no result, or with a nonzero exit code
    and an empty output, makes the strategy raise the classified error with
    the output ["No Output Available"]. *)
Theorem shell_failure_modes env a r :
  ActionState.type a = Some shell ->
  let out := runShellAction env a r in
  (forall n m, Shell.ready (getShellTerminal env) = Rejects n m ->
     out = (Throw (Js.PlainError n m), r))
  /\ (forall hook n m,
        Shell.ready (getShellTerminal env) = Resolves tt ->
        Shell.terminal (getShellTerminal env) = true ->
        Shell.process (getShellTerminal env) = true ->
        Shell.executeCommand (getShellTerminal env) (runnerId env)
          (ActionState.content a)
        = {| Shell.abortRequested := hook; Shell.settled := Rejects n m |} ->
        result out = Throw (Js.PlainError n m))
  /\ (forall hook,
        Shell.ready (getShellTerminal env) = Resolves tt ->
        Shell.terminal (getShellTerminal env) = true ->
        Shell.process (getShellTerminal env) = true ->
        Shell.executeCommand (getShellTerminal env) (runnerId env)
          (ActionState.content a)
        = {| Shell.abortRequested := hook; Shell.settled := Resolves None |} ->
        result out
        = Throw (ActionCommandError "Failed To Execute Shell Command"
                   "No Output Available"))
  /\ (forall hook code,
        Shell.ready (getShellTerminal env) = Resolves tt ->
        Shell.terminal (getShellTerminal env) = true ->
        Shell.process (getShellTerminal env) = true ->
        Shell.executeCommand (getShellTerminal env) (runnerId env)
          (ActionState.content a)
        = {| Shell.abortRequested := hook;
             Shell.settled :=
               Resolves (Some {| Shell.exitCode := code;
                                 Shell.output := EmptyString |}) |} ->
        code <> 0%Z ->
        result out
        = Throw (ActionCommandError "Failed To Execute Shell Command"
                   "No Output Available")
        /\ calls (after out)
           = (calls r ++ [ExecuteCommand (runnerId env) (ActionState.content a)])%list).
Proof.
  intros Hty out.
  assert (Hout : out = runShellAction env a r) by done. clearbody out.
  unfold runShellAction in Hout.
  destruct (decide (ActionState.type a <> Some shell)); [done|].
  split_and!; [| | |
    intros hook code Hready Hterm Hproc Hrun Hcode;
    rewrite Hready, Hterm, Hproc in Hout; subst out;
    unfold executeCommand, called, callAbort, updateAction, bind, modify;
    rewrite Hrun; cbn [Shell.abortRequested Shell.settled];
    destruct hook, (ActionState.abort a); cbn -[decide];
    (destruct (decide _) as [_|Hz]; [done|exfalso; apply Hz; simpl; congruence])].
  - intros n' m Hready. by rewrite Hready in Hout.
  - intros hook n' m Hready Hterm Hproc Hrun.
    rewrite Hready, Hterm, Hproc in Hout. subst out.
    unfold executeCommand, called, callAbort, updateAction, bind, modify.
    rewrite Hrun. simpl. by destruct hook, (ActionState.abort a).
  - intros hook Hready Hterm Hproc Hrun.
    rewrite Hready, Hterm, Hproc in Hout. subst out.
    unfold executeCommand, called, callAbort, updateAction, bind, modify.
    rewrite Hrun. simpl. by destruct hook, (ActionState.abort a).
Qed.

Lemma shell_failure_modes_witness :
  let sh := {| Shell.ready := Rejects "Error" "terminal closed";
               Shell.terminal := true; Shell.process := true;
               Shell.executeCommand := fun _ _ =>
                 {| Shell.abortRequested := false;
                    Shell.settled := Resolves None |} |} in
  let env := Fixture.envWith sh (Fixture.sandboxWith [] 0) "bash" in
  let silent := Fixture.env 2 EmptyString false in
  let a := ActionState.mk (Some shell) (Some "ls") None (Some running) None
             (Some true) None (Some 0) in
  runShellAction env a Fixture.runner
  = (Throw (Js.PlainError "Error" "terminal closed"), Fixture.runner)
  /\ result (runShellAction silent a Fixture.runner)
     = Throw (ActionCommandError "Failed To Execute Shell Command"
                "No Output Available").
Proof.
  intros sh env silent a. split.
  - destruct (shell_failure_modes env a Fixture.runner eq_refl) as (H & _).
    exact (H "Error" "terminal closed" eq_refl).
  - destruct (shell_failure_modes silent a Fixture.runner eq_refl)
      as (_ & _ & _ & H).
    by destruct (H false 2%Z eq_refl eq_refl eq_refl eq_refl ltac:(discriminate)).
Defined.

(** ** The [build] strategy *)

Lemma runBuildAction_settles env a r wc proc :
  ActionState.type a = Some build ->
  webcontainer env = Resolves wc ->
  Sandbox.spawn wc "npm" ["run"; "build"] = Resolves proc ->
  let text := foldl String.append EmptyString (Sandbox.output proc) in
  runBuildAction env a r
  = (if decide (Sandbox.exit proc <> 0%Z)
     then Throw (ActionCommandError "Build Failed"
                   (Js.orElse text "No Output Available"))
     else Normal {| buildPath := pathJoin env (Sandbox.workdir wc) "dist";
                    buildExitCode := Sandbox.exit proc;
                    buildOutputText := text |},
     setCalls (fun l => (l ++ [Spawn "npm" ["run"; "build"]])%list) r).
Proof.
  intros Hty Hwc Hsp text. unfold runBuildAction.
  destruct (decide (ActionState.type a <> Some build)); [done|].
  rewrite Hwc. unfold bind, called, modify. simpl. rewrite Hsp. simpl.
  by destruct (decide (Sandbox.exit proc <> 0%Z)).
Qed.

(** X18.  The build output of the runner is the output of the last build that
    succeeded: a build that exits with code 0 stores the [dist] folder of the
    work directory, the exit code and the whole output of the process, and
    the action ends [complete] (or [aborted] on a fired signal); a build that
    fails leaves the stored output as it was, and the action ends [failed]
    with an alert that carries the header ["Build Failed"]. *)
Theorem build_output_is_last_success env id a k r wc proc :
  actions r !! id = Some a ->
  ActionState.type a = Some build ->
  ActionState.abortSignal a = Some k ->
  webcontainer env = Resolves wc ->
  Sandbox.spawn wc "npm" ["run"; "build"] = Resolves proc ->
  let fin := after (executeAction env id false r) in
  let text := foldl String.append EmptyString (Sandbox.output proc) in
  (Sandbox.exit proc = 0%Z ->
   buildOutput fin
   = Some {| buildPath := pathJoin env (Sandbox.workdir wc) "dist";
             buildExitCode := 0; buildOutputText := text |}
   /\ statusOf fin id = Some (if signalAborted r k then aborted else complete))
  /\ (Sandbox.exit proc <> 0%Z ->
      buildOutput fin = buildOutput r
      /\ (signalAborted r k = false ->
          statusOf fin id = Some failed
          /\ alerts fin
             = if onAlert r
               then (alerts r
                     ++ [ActionAlert.mk "error" "Dev Server Failed"
                           (Some "Build Failed")
                           (Some (Js.orElse text "No Output Available"))])%list
               else alerts r)).
Proof.
  intros Ha Hty Hsig Hwc Hsp fin text.
  set (r0 := after (updateAction id (ActionState.withStatus running) r)).
  pose proof (runBuildAction_settles env a r0 wc proc Hty Hwc Hsp) as Hbuild.
  cbv zeta in Hbuild. fold text in Hbuild.
  split.
  - intros Hz. rewrite decide_False in Hbuild by (intros H; by apply H).
    assert (Hstrategy : runStrategy env id a r0
              = (Normal true,
                 setBuildOutput
                   (Some {| buildPath := pathJoin env (Sandbox.workdir wc) "dist";
                            buildExitCode := Sandbox.exit proc;
                            buildOutputText := text |})
                   (setCalls (fun l => (l ++ [Spawn "npm" ["run"; "build"]])%list)
                      r0))).
    { unfold runStrategy. rewrite Hty. unfold bind. by rewrite Hbuild. }
    subst fin.
    rewrite (executeAction_strategy_returns env id r a k _ Ha Hsig Hstrategy).
    split; [by rewrite <- Hz|]. apply statusOf_updateAction.
  - intros Hnz. rewrite decide_True in Hbuild by done.
    assert (Hstrategy : runStrategy env id a r0
              = (Throw (ActionCommandError "Build Failed"
                          (Js.orElse text "No Output Available")),
                 setCalls (fun l => (l ++ [Spawn "npm" ["run"; "build"]])%list)
                   r0)).
    { unfold runStrategy. rewrite Hty. unfold bind. by rewrite Hbuild. }
    subst fin.
    rewrite (executeAction_strategy_throws env id false r a _ _ Ha Hstrategy).
    split.
    + etransitivity; [apply (executeActionCatch_untouched buildOutput); done|].
      done.
    + intros Hnab.
      match goal with
      | |- context [executeActionCatch id (Some a) ?e ?r1] =>
          rewrite (executeActionCatch_failed id a k e r1 Hsig Hnab)
      end.
      split; [apply statusOf_recordFailure|].
      unfold after. simpl snd. rewrite alerts_recordFailure. simpl.
      by destruct (onAlert r).
Qed.

Lemma build_output_is_last_success_witness :
  let d := Fixture.data "a1" build "npm run build" in
  let r := Fixture.run [addAction d] Fixture.runner in
  buildOutput (after (executeAction (Fixture.env 0 "built in 2s" false) "a1" false r))
  = Some {| buildPath := "/home/project/dist"; buildExitCode := 0;
            buildOutputText := "built in 2s" |}
  /\ buildOutput (after (executeAction (Fixture.env 1 "tsc failed" false) "a1" false r))
     = None.
Proof.
  intros d r.
  pose (a := ActionState.mk (Some build) (Some "npm run build") None (Some pending)
               None (Some false)
               (Some {| abortController := 0; abortTarget := "a1" |}) (Some 0)).
  destruct (build_output_is_last_success (Fixture.env 0 "built in 2s" false)
              "a1" a 0 r (Fixture.sandboxWith ["built in 2s"] 0)
              {| Sandbox.output := ["built in 2s"]; Sandbox.exit := 0 |}
              eq_refl eq_refl eq_refl eq_refl eq_refl) as [Hok _].
  destruct (build_output_is_last_success (Fixture.env 1 "tsc failed" false)
              "a1" a 0 r (Fixture.sandboxWith ["tsc failed"] 1)
              {| Sandbox.output := ["tsc failed"]; Sandbox.exit := 1 |}
              eq_refl eq_refl eq_refl eq_refl eq_refl) as [_ Hko].
  split.
  - exact (proj1 (Hok eq_refl)).
  - refine (proj1 (Hko _)). discriminate.
Defined.

(** ** The [start] strategy *)

(** Recording a failure touches the store, the log and the alerts only. *)
Lemma recordFailure_untouched {B} (f : Runner -> B) id action e r :
  (forall g r, f (setActions g r) = f r) ->
  (forall g r, f (setLogged g r) = f r) ->
  (forall g r, f (setAlerts g r) = f r) ->
  f (recordFailure id action e r) = f r.
Proof.
  intros Hact Hlog Hal.
  unfold recordFailure, callOnAlert, loggerError, updateAction, modify. simpl.
  destruct (instanceofActionCommandError e); simpl;
    [destruct (onAlert r); simpl|]; by rewrite ?Hal, Hlog, Hact.
Qed.



Lemma startAnswer_settles a r resp :
  startAnswer a {| Shell.abortRequested := false; Shell.settled := Resolves resp |} r
  = (if decide (exitCodeOf resp <> Some 0%Z)
     then Throw (ActionCommandError "Failed To Start Application"
                   (outputOr resp "No Output Available"))
     else Normal resp,
     r).
Proof.
  unfold startAnswer, bind, ret. simpl.
  by destruct (decide (exitCodeOf resp <> Some 0%Z)).
Qed.

Lemma runStartAction_settles env a r resp :
  ActionState.type a = Some start ->
  Shell.ready (getShellTerminal env) = Resolves tt ->
  Shell.terminal (getShellTerminal env) = true ->
  Shell.process (getShellTerminal env) = true ->
  Shell.executeCommand (getShellTerminal env) (runnerId env) (ActionState.content a)
  = {| Shell.abortRequested := false; Shell.settled := Resolves resp |} ->
  runStartAction env a r
  = (if decide (exitCodeOf resp <> Some 0%Z)
     then Throw (ActionCommandError "Failed To Start Application"
                   (outputOr resp "No Output Available"))
     else Normal resp,
     setCalls
       (fun l => (l ++ [ExecuteCommand (runnerId env) (ActionState.content a)])%list)
       r).
Proof.
  intros Hty Hready Hterm Hproc Hrun. unfold runStartAction.
  destruct (decide (ActionState.type a <> Some start)); [done|].
  rewrite Hready, Hterm, Hproc. simpl negb. simpl orb. cbv iota.
  unfold executeCommand. rewrite Hrun. simpl.
  unfold bind, called, modify, ret. simpl.
  by destruct (decide (exitCodeOf resp <> Some 0%Z)).
Qed.

(** X20.  When the strategy of a launched [start] action settles, on a shell
    that did not call the abort hook: exit code 0 marks the action
    [complete]; another exit code marks it [failed] and alerts with the
    header ["Failed To Start Application"], unless the signal of the action
    has fired, in which case its status is left as it is and nothing is
    alerted.  The shell is not asked again: the command was sent when the
    action was dispatched. *)
Theorem start_action_settles r id a k rest resp :
  launched r
  = (id, a, {| Shell.abortRequested := false; Shell.settled := Resolves resp |})
    :: rest ->
  ActionState.abortSignal a = Some k ->
  let out := settleStart r in
  result out = Normal tt
  /\ launched (after out) = rest
  /\ calls (after out) = calls r
  /\ (exitCodeOf resp = Some 0%Z ->
      statusOf (after out) id = Some complete /\ alerts (after out) = alerts r)
  /\ (exitCodeOf resp <> Some 0%Z -> signalAborted r k = false ->
      statusOf (after out) id = Some failed
      /\ alerts (after out)
         = if onAlert r
           then (alerts r
                 ++ [ActionAlert.mk "error" "Dev Server Failed"
                       (Some "Failed To Start Application")
                       (Some (outputOr resp "No Output Available"))])%list
           else alerts r)
  /\ (exitCodeOf resp <> Some 0%Z -> signalAborted r k = true ->
      statusOf (after out) id = statusOf r id /\ alerts (after out) = alerts r).
Proof.
  intros Hl Hsig out.
  assert (Hout : out = settleStart r) by done. clearbody out.
  unfold settleStart in Hout. unfold bind at 1, get in Hout. rewrite Hl in Hout.
  unfold bind at 1, modify at 1 in Hout.
  unfold detached, tryCatch, bind at 1 in Hout.
  rewrite startAnswer_settles in Hout.
  destruct (decide (exitCodeOf resp <> Some 0%Z)) as [Hne|Heq].
  - destruct (signalAborted r k) eqn:Hab.
    + match type of Hout with
      | context [startCatch id a ?e ?r1] =>
          rewrite (startCatch_aborted id a k e r1 Hsig Hab) in Hout
      end.
      subst out. by split_and!.
    + match type of Hout with
      | context [startCatch id a ?e ?r1] =>
          rewrite (startCatch_failed id a k e r1 Hsig Hab) in Hout
      end.
      subst out.
      unfold after, result. simpl fst. simpl snd.
      rewrite statusOf_recordFailure, alerts_recordFailure.
      rewrite (recordFailure_untouched launched) by done.
      rewrite (recordFailure_untouched calls) by done.
      by split_and!.
  - subst out. split_and!; try done.
    intros _. split; [|done]. unfold statusOf. simpl.
    by rewrite lookup_insert_eq.
Qed.

Lemma start_action_settles_witness :
  let env := Fixture.env 1 "EADDRINUSE" false in
  let d := Fixture.data "a1" start "npm run dev" in
  let r := Fixture.run [addAction d; runAction env d false] Fixture.runner in
  let out := settleStart r in
  statusOf r "a1" = Some running
  /\ calls r = [ExecuteCommand "1700000000000" (Some "npm run dev")]
  /\ statusOf (after out) "a1" = Some failed
  /\ alerts (after out)
     = [ActionAlert.mk "error" "Dev Server Failed"
          (Some "Failed To Start Application") (Some "EADDRINUSE")].
Proof.
  intros env d r out.
  pose (a := ActionState.mk (Some start) (Some "npm run dev") None (Some running)
               None (Some true)
               (Some {| abortController := 0; abortTarget := "a1" |}) (Some 0)).
  destruct (start_action_settles r "a1" a 0 []
              (Some {| Shell.exitCode := 1; Shell.output := "EADDRINUSE" |})
              eq_refl eq_refl)
    as (_ & _ & _ & _ & Hko & _).
  destruct Hko as [Hst Hal]; [discriminate|reflexivity|].
  split_and!; [reflexivity|reflexivity|exact Hst|exact Hal].
Defined.

(** ** Actions that are skipped *)

Lemma runNpmInstallAction_unfold env a content r :
  ActionState.type a = Some npmInstall ->
  ActionState.content a = Some content ->
  runNpmInstallAction env a r
  = (if Js.matchesWord false "convex" (normalizedCommand content)
     then loggerError "Convex is already installed" None
     else runShellAction env
            (ActionState.spread a
               (ActionState.asShell ("npm install " +:+ normalizedCommand content)))) r.
Proof.
  intros Hty Hc. unfold runNpmInstallAction.
  destruct (decide (ActionState.type a <> Some npmInstall)); [done|].
  by rewrite Hc.
Qed.

(** X21.  An action that the runner refuses to run is still reported as done.
    A [convex] action, an [npmInstall] action whose packages name [convex],
    and an [npmExec] action that names [convex], that is ["npm run dev"], or
    that is neither an [npm run] nor an [npx] command, end [complete] (or
    [aborted] on a fired signal) although nothing was asked of the sandbox
    and no alert was raised. *)
Theorem skipped_actions_complete env id a k r content :
  actions r !! id = Some a ->
  ActionState.abortSignal a = Some k ->
  ActionState.content a = Some content ->
  ActionState.type a = Some convex
  \/ (ActionState.type a = Some npmInstall
      /\ Js.matchesWord false "convex" (normalizedCommand content) = true)
  \/ (ActionState.type a = Some npmExec
      /\ (Js.matchesWord false "convex" content = true
          \/ content = "npm run dev"
          \/ (Js.startsWith "npm run " content = false
              /\ Js.startsWith "npx " content = false))) ->
  let out := executeAction env id false r in
  result out = Normal tt
  /\ statusOf (after out) id = Some (if signalAborted r k then aborted else complete)
  /\ calls (after out) = calls r
  /\ alerts (after out) = alerts r.
Proof.
  intros Ha Hsig Hc Hskip out.
  set (r0 := after (updateAction id (ActionState.withStatus running) r)).
  assert (Hstrategy : exists msg,
             runStrategy env id a r0 = (Normal true, after (loggerError msg None r0))).
  { unfold runStrategy. destruct Hskip as [Hty | [[Hty Hcv] | [Hty Hno]]];
      rewrite Hty.
    - by eexists.
    - eexists. unfold bind at 1.
      rewrite (runNpmInstallAction_unfold env a content r0 Hty Hc), Hcv.
      reflexivity.
    - unfold bind at 1.
      rewrite (runNpmExecAction_unfold env a content r0 Hty Hc).
      destruct (negb (Js.startsWith "npm run " content)
                && negb (Js.startsWith "npx " content)) eqn:Hpre; [by eexists|].
      destruct (Js.matchesWord false "convex" content) eqn:Hcv; [by eexists|].
      destruct (String.eqb content "npm run dev") eqn:Hdev; [by eexists|].
      destruct Hno as [?|[->|[H1 H2]]]; [done|done|].
      by rewrite H1, H2 in Hpre. }
  destruct Hstrategy as [msg Hstrategy]. subst out.
  rewrite (executeAction_strategy_returns env id r a k _ Ha Hsig Hstrategy).
  split_and!; try done. apply statusOf_updateAction.
Qed.

Lemma skipped_actions_complete_witness :
  let env := Fixture.env 0 "ok" false in
  let d := Fixture.data "a1" npmInstall "npm install convex-helpers" in
  let r := Fixture.run [addAction d] Fixture.runner in
  let out := executeAction env "a1" false r in
  statusOf (after out) "a1" = Some complete /\ calls (after out) = [].
Proof.
  intros env d r out.
  destruct (skipped_actions_complete env "a1"
              (ActionState.mk (Some npmInstall) (Some "npm install convex-helpers")
                 None (Some pending) None (Some false)
                 (Some {| abortController := 0; abortTarget := "a1" |}) (Some 0))
              0 r "npm install convex-helpers" eq_refl eq_refl eq_refl)
    as (_ & Hst & Hcalls & _).
  { right. left. by split. }
  by split.
Defined.

(** ** Invariants of a run *)

Section KeepsMonad.

Context (P : Runner -> Prop).

Lemma keeps_ret {A} (a : A) : keeps P (ret a).
Proof. by intros r. Qed.

Lemma keeps_throw {A} e : keeps P (@throw A e).
Proof. by intros r. Qed.

Lemma keeps_get : keeps P get.
Proof. by intros r. Qed.

Lemma keeps_await {A} (p : Outcome A) : keeps P (await p).
Proof. destruct p; by intros r. Qed.

Lemma keeps_readProp {A C} (o : option A) prop (g : A -> C) :
  keeps P (readProp o prop g).
Proof. destruct o; by intros r. Qed.

Lemma keeps_bind {A C} (m : M A) (k : A -> M C) :
  keeps P m -> (forall a, keeps P (k a)) -> keeps P (bind m k).
Proof.
  intros Hm Hk r Hr. unfold bind. specialize (Hm r Hr).
  destruct (m r) as [[a|e] r']; simpl in *; [by apply Hk|done].
Qed.

Lemma keeps_tryCatch {A} (m : M A) h :
  keeps P m -> (forall e, keeps P (h e)) -> keeps P (tryCatch m h).
Proof.
  intros Hm Hh r Hr. unfold tryCatch. specialize (Hm r Hr).
  destruct (m r) as [[a|e] r']; simpl in *; [done|by apply Hh].
Qed.

End KeepsMonad.

Ltac keeps_step :=
  match goal with
  | |- keeps _ (bind _ _) => apply keeps_bind; [|intros ?]
  | |- keeps _ (tryCatch _ _) => apply keeps_tryCatch; [|intros ?]
  | |- keeps _ (ret _) => apply keeps_ret
  | |- keeps _ (throw _) => apply keeps_throw
  | |- keeps _ (unreachable _) => apply keeps_throw
  | |- keeps _ get => apply keeps_get
  | |- keeps _ (await _) => apply keeps_await
  | |- keeps _ (readProp _ _ _) => apply keeps_readProp
  | |- keeps _ (updateAction _ (ActionState.withStatus (if ?b then _ else _))) =>
      destruct b
  | |- keeps _ (if ?b then _ else _) => destruct b
  | |- keeps _ (match ?x with _ => _ end) => destruct x
  | |- keeps _ _ => solve [auto]
  end.

Ltac keeps_all := repeat keeps_step.

(** A property of the runner that the elementary steps of the methods keep
    is kept by every event of a run. *)
Section Invariant.

Context (P : Runner -> Prop) (allowed : ActionState.t -> Prop).
Hypothesis P_update : forall id newState, allowed newState ->
  keeps P (updateAction id newState).
Hypothesis P_status : forall id s, s <> pending ->
  keeps P (updateAction id (ActionState.withStatus s)).
Hypothesis P_failure : forall id msg,
  keeps P (updateAction id (ActionState.withFailure msg)).
Hypothesis P_fire : forall k, keeps P (modify (setControllers <[k := true]>)).
Hypothesis P_logged : forall g r, P r -> P (setLogged g r).
Hypothesis P_calls : forall g r, P r -> P (setCalls g r).
Hypothesis P_alerts : forall g r, P r -> P (setAlerts g r).
Hypothesis P_buildOutput : forall b r, P r -> P (setBuildOutput b r).
Hypothesis P_launched : forall g r, P r -> P (setLaunched g r).
Hypothesis P_chain : forall g r, P r -> P (setChain g r).
Hypothesis P_resolve : forall callId value, keeps P (resolveToolCall callId value).
Hypothesis P_resolvers : forall callId, keeps P (getResolvers callId).
Hypothesis P_register : forall data, keeps P (addAction data).
Hypothesis P_enqueue : forall data isStreaming,
  keeps P (runActionSync data isStreaming).

Variable env : Collaborators.

Local Hint Extern 1 (keeps _ (updateAction _ (ActionState.withStatus _))) =>
  apply P_status; discriminate : core.
Local Hint Resolve P_failure P_fire P_resolve P_resolvers P_register P_enqueue : core.
Local Hint Extern 1 (keeps _ (modify _)) =>
  let r := fresh in let H := fresh in intros r H; simpl; auto : core.

Lemma loggerError_keeps msg detail : keeps P (loggerError msg detail).
Proof. unfold loggerError. keeps_all. Qed.

Lemma consoleError_keeps msg detail : keeps P (consoleError msg detail).
Proof. unfold consoleError. keeps_all. Qed.

Lemma called_keeps c : keeps P (called c).
Proof. unfold called. keeps_all. Qed.

Lemma callAbort_keeps fn : keeps P (callAbort fn).
Proof. unfold callAbort. keeps_all. Qed.

Lemma callOnAlert_keeps e : keeps P (callOnAlert e).
Proof. unfold callOnAlert. intros r Hr. simpl. destruct (onAlert r); auto. Qed.

Local Hint Resolve loggerError_keeps consoleError_keeps called_keeps
  callAbort_keeps callOnAlert_keeps : core.

Lemma abortAction_keeps id : keeps P (abortAction id).
Proof. unfold abortAction. keeps_all. Qed.

Lemma executeCommand_keeps sh a command : keeps P (executeCommand env sh a command).
Proof. unfold executeCommand. keeps_all. Qed.

Local Hint Resolve executeCommand_keeps : core.

Lemma runShellAction_keeps a : keeps P (runShellAction env a).
Proof. unfold runShellAction. keeps_all. Qed.

Local Hint Resolve runShellAction_keeps : core.

Lemma runStartAction_keeps a : keeps P (runStartAction env a).
Proof. unfold runStartAction. keeps_all. Qed.

Lemma startCatch_keeps id a e : keeps P (startCatch id a e).
Proof. unfold startCatch, abortSignalAborted. keeps_all. Qed.

Local Hint Resolve startCatch_keeps : core.

Lemma runStrategy_keeps id a : keeps P (runStrategy env id a).
Proof.
  unfold runStrategy, runNpmInstallAction, runNpmExecAction, runFileAction,
    runBuildAction, runToolUseAction, bridgeTool, dispatchTool, _runShellCommand,
    detached, startCommand.
  keeps_all.
Qed.

Lemma abortSignalAborted_keeps action : keeps P (abortSignalAborted action).
Proof. unfold abortSignalAborted. keeps_all. Qed.

Local Hint Resolve runStartAction_keeps runStrategy_keeps
  abortSignalAborted_keeps : core.

Lemma executeAction_keeps id isStreaming : keeps P (executeAction env id isStreaming).
Proof. unfold executeAction, executeActionCatch. keeps_all. Qed.

Local Hint Resolve executeAction_keeps : core.

Lemma runTask_keeps t : keeps P (runTask env t).
Proof. unfold runTask. keeps_all. Qed.

Local Hint Resolve runTask_keeps : core.

Lemma step_keeps : keeps P (step env).
Proof. unfold step. keeps_all. Qed.

Lemma steps_keeps n : keeps P (steps env n).
Proof.
  induction n as [|n IH]; simpl; [apply keeps_ret|].
  apply keeps_bind; [apply step_keeps|done].
Qed.

Lemma drain_keeps : keeps P (drain env).
Proof. unfold drain. apply keeps_bind; [apply keeps_get|]. intros r. apply steps_keeps. Qed.

Lemma settleStart_keeps : keeps P settleStart.
Proof. unfold settleStart, detached, startAnswer. keeps_all. Qed.

Lemma perform_keeps ev :
  match ev with Update _ newState => allowed newState | _ => True end ->
  keeps P (perform env ev).
Proof.
  destruct ev; simpl; intros Hev.
  - apply P_register.
  - unfold runAction. apply keeps_bind; [apply P_enqueue|].
    intros [|]; [apply drain_keeps|apply keeps_ret].
  - apply keeps_bind; [apply P_enqueue|]. intros ?. apply keeps_ret.
  - apply abortAction_keeps.
  - by apply P_update.
  - apply step_keeps.
  - apply drain_keeps.
  - apply settleStart_keeps.
Qed.

Lemma performAll_keeps evs r :
  updatesWith allowed evs -> P r -> P (performAll env evs r).
Proof.
  revert r. induction evs as [|ev evs IH]; intros r Hevs Hr; [done|].
  apply Forall_cons in Hevs as [Hev Hevs].
  simpl. apply IH; [done|]. by apply perform_keeps.
Qed.

End Invariant.

Lemma updatesWith_any evs : updatesWith (fun _ => True) evs.
Proof. apply Forall_forall. intros ev _. by destruct ev. Qed.

(** The steps that do not touch what a property reads keep it. *)
Ltac untouched_steps := try done; try (intros; intros ? ?; assumption).

(** The callbacks of the chain leave the [executed] mark of an action as it
    is. *)
Lemma drain_executed env r id a b :
  actions r !! id = Some a ->
  ActionState.executed a = Some b ->
  exists a', actions (after (drain env r)) !! id = Some a'
             /\ ActionState.executed a' = Some b.
Proof.
  intros Ha Hex.
  apply (drain_keeps
           (fun r => exists a', actions r !! id = Some a'
                                /\ ActionState.executed a' = Some b));
    untouched_steps; [| |by eexists].
  - intros id' s _ r0 (a0 & H0 & Hex0). unfold updateAction, modify. simpl.
    destruct (decide (id' = id)) as [->|Hd].
    + rewrite lookup_insert_eq, H0. by eexists.
    + rewrite lookup_insert_ne by done. by eexists.
  - intros id' msg r0 (a0 & H0 & Hex0). unfold updateAction, modify. simpl.
    destruct (decide (id' = id)) as [->|Hd].
    + rewrite lookup_insert_eq, H0. by eexists.
    + rewrite lookup_insert_ne by done. by eexists.
Qed.

(** C2.  On a registered action, [runAction] changes nothing when the action
    is already executed, and nothing when it is called in streaming mode on
    an action that is not a file.  In every other case it sets [executed] to
    the negation of [isStreaming] and chains exactly one unit of work, at the
    end of the execution chain, leaving the other actions as they are; it
    then awaits the chain, so that its outcome is the one of the chain with
    that unit at its end: the unit runs once, after the callbacks that were
    chained before it, the chain is empty when [runAction] returns, and the
    action still has the [executed] mark that the call gave it. *)
Theorem runAction_commits_once env data isStreaming r a :
  actions r !! actionId data = Some a ->
  (ActionState.executed a = Some true ->
   runAction env data isStreaming r = (Normal tt, r))
  /\ (isStreaming = true -> ActionState.type a <> Some file ->
      runAction env data isStreaming r = (Normal tt, r))
  /\ (ActionState.executed a <> Some true ->
      (isStreaming = false \/ ActionState.type a = Some file) ->
      let r' := after (runActionSync data isStreaming r) in
      let out := runAction env data isStreaming r in
      result (runActionSync data isStreaming r) = Normal true
      /\ (exists a', actions r' !! actionId data = Some a'
                     /\ ActionState.executed a' = Some (negb isStreaming))
      /\ (forall id, id <> actionId data -> actions r' !! id = actions r !! id)
      /\ chain r' = (chain r ++ [Unit (actionId data) isStreaming])%list
      /\ out = drain env r'
      /\ out = runTask env (Unit (actionId data) isStreaming)
                 (setChain (fun _ => [])
                    (after (steps env (length (chain r)) r')))
      /\ result out = Normal tt
      /\ chain (after out) = []
      /\ (exists a', actions (after out) !! actionId data = Some a'
                     /\ ActionState.executed a' = Some (negb isStreaming))).
Proof.
  intros Ha. split_and!.
  - intros Hex. unfold runAction, runActionSync, bind, get. rewrite Ha.
    by destruct (decide (ActionState.executed a = Some true)).
  - intros -> Hty. unfold runAction, runActionSync, bind, get. rewrite Ha.
    destruct (decide (ActionState.executed a = Some true)); [done|].
    by rewrite bool_decide_eq_false_2.
  - intros Hex Hs r' out.
    assert (Hsync : runActionSync data isStreaming r = (Normal true, r')).
    { unfold r'. by rewrite (runActionSync_queues data isStreaming r a Ha Hex Hs). }
    assert (Hout : out = drain env r').
    { unfold out, runAction, bind. by rewrite Hsync. }
    assert (Hchain : chain r' = (chain r ++ [Unit (actionId data) isStreaming])%list).
    { unfold r'. by rewrite (runActionSync_queues data isStreaming r a Ha Hex Hs). }
    assert (Hstored : exists a', actions r' !! actionId data = Some a'
                        /\ ActionState.executed a' = Some (negb isStreaming)).
    { unfold r'. rewrite (runActionSync_queues data isStreaming r a Ha Hex Hs).
      simpl. eexists. by rewrite lookup_insert_eq. }
    clearbody out r'. subst out. split_and!.
    + by rewrite Hsync.
    + done.
    + intros id Hid. revert Hsync.
      rewrite (runActionSync_queues data isStreaming r a Ha Hex Hs).
      intros [= <-]. simpl. by rewrite lookup_insert_ne.
    + done.
    + done.
    + by apply drain_last.
    + apply drain_normal.
    + apply drain_chain.
    + destruct Hstored as (a' & Ha' & Hex'). by eapply drain_executed.
Qed.

Lemma runAction_commits_once_witness :
  let env := Fixture.env 0 "ok" false in
  let d := {| actionId := "a1";
              action := BoltAction.mk file "export {}" (Some "src/a.ts") |} in
  let r := Fixture.run [addAction d] Fixture.runner in
  let out := runAction env d true r in
  chain (after (runActionSync d true r)) = [MarkRunning "a1"; Unit "a1" true]
  /\ chain (after out) = []
  /\ calls (after out) = [WriteFile "src/a.ts" (Some "export {}")]
  /\ (exists a', actions (after out) !! "a1" = Some a'
                 /\ ActionState.executed a' = Some false)
  /\ runAction env d false (Fixture.run [addAction d; runAction env d false]
                              Fixture.runner)
     = (Normal tt, Fixture.run [addAction d; runAction env d false] Fixture.runner).
Proof.
  intros env d r out.
  destruct (runAction_commits_once env d true r
              (ActionState.mk (Some file) (Some "export {}") (Some "src/a.ts")
                 (Some pending) None (Some false)
                 (Some {| abortController := 0; abortTarget := "a1" |}) (Some 0))
              eq_refl) as (_ & _ & H).
  destruct H as (_ & _ & _ & Hc & _ & _ & _ & Hempty & Hex);
    [discriminate|by right|].
  split_and!; [exact Hc|exact Hempty|reflexivity|exact Hex|].
  refine (proj1 (runAction_commits_once env d false _ _ _) _).
  - vm_compute. reflexivity.
  - reflexivity.
Defined.

(** X22.  Cancellation is for good: a signal that has fired stays fired
    through every run of the runner. *)
Theorem fired_signal_stays_fired env evs r k :
  signalAborted r k = true ->
  signalAborted (performAll env evs r) k = true.
Proof.
  intros Hfired.
  apply (performAll_keeps (fun r => signalAborted r k = true) (fun _ => True));
    untouched_steps; [| | |apply updatesWith_any].
  - intros k' r0. unfold signalAborted. simpl.
    destruct (controllers r0 !! k) as [b|] eqn:Hk; [|done]. simpl. intros ->.
    destruct (decide (k' = k)) as [->|Hne].
    + rewrite list_lookup_insert_eq; [done|]. by eapply lookup_lt_Some.
    + by rewrite list_lookup_insert_ne, Hk.
  - intros data r0. unfold addAction, bind, get.
    destruct (actions r0 !! actionId data) as [a|]; [by destruct (decide _)|].
    unfold signalAborted. simpl.
    destruct (controllers r0 !! k) as [b|] eqn:Hk; [|done]. simpl. intros ->.
    by rewrite (lookup_app_l_Some _ _ _ _ Hk).
  - intros data isStreaming r0. unfold runActionSync, bind, get.
    destruct (actions r0 !! actionId data) as [a|]; [|done].
    destruct (decide _); [done|]. by destruct (_ && _).
Qed.

Lemma fired_signal_stays_fired_witness :
  let env := Fixture.env 0 "ok" false in
  let d := Fixture.data "a1" shell "ls" in
  let r := performAll env [Register d; Abort "a1"] Fixture.runner in
  signalAborted
    (performAll env [Commit d false; Register (Fixture.data "a2" file "x"); Drain] r)
    0 = true.
Proof.
  intros env d r. by apply fired_signal_stays_fired.
Defined.

(** X23.  A tool call is answered once: a future that is settled keeps its
    value through every run of the runner, whatever later tool calls name
    the same identifier. *)
Theorem settled_future_keeps_its_value env evs r callId answer :
  toolCalls r !! callId = Some answer ->
  answer <> Unsettled ->
  toolCalls (performAll env evs r) !! callId = Some answer.
Proof.
  intros Hset Hne.
  apply (performAll_keeps (fun r => toolCalls r !! callId = Some answer)
           (fun _ => True));
    untouched_steps; [| | | |apply updatesWith_any].
  - intros callId' value r0 H0. unfold resolveToolCall, modify. simpl.
    destruct (toolCalls r0 !! callId') as [[| |]|] eqn:E; try done.
    destruct (decide (callId' = callId)) as [->|Hd]; [congruence|].
    by rewrite lookup_insert_ne.
  - intros callId' r0 H0. unfold getResolvers, modify. simpl.
    destruct (toolCalls r0 !! callId') eqn:E; [done|].
    destruct (decide (callId' = callId)) as [->|Hd]; [congruence|].
    by rewrite lookup_insert_ne.
  - intros data r0. unfold addAction, bind, get.
    destruct (actions r0 !! actionId data) as [a|]; [by destruct (decide _)|done].
  - intros data isStreaming r0. unfold runActionSync, bind, get.
    destruct (actions r0 !! actionId data) as [a|]; [|done].
    destruct (decide _); [done|]. by destruct (_ && _).
Qed.

Lemma settled_future_keeps_its_value_witness :
  let env := Fixture.env 0 "second answer" false in
  let d := Fixture.data "a1" toolUse "ls" in
  let r := newRunner {["call-1" := Resolved "first answer"]} true in
  toolCalls (performAll env [Register d; Commit d false] r) !! "call-1"
  = Some (Resolved "first answer").
Proof.
  intros env d r. by apply settled_future_keeps_its_value.
Defined.



(** X25.  The runner itself never sends an action back to [pending]: an
    action that has left [pending] is not [pending] again through every run
    of the runner in which no call of [updateAction] from outside writes
    the status [pending]. *)
Theorem dispatched_action_is_never_pending_again env evs r id s :
  statusOf r id = Some s ->
  s <> pending ->
  updatesWith (fun newState => ActionState.status newState <> Some pending) evs ->
  exists s', statusOf (performAll env evs r) id = Some s' /\ s' <> pending.
Proof.
  intros Hs Hne Hevs.
  cut (exists a' s', actions (performAll env evs r) !! id = Some a'
                     /\ ActionState.status a' = Some s' /\ s' <> pending).
  { intros (a' & s' & Ha' & Hs' & Hne'). exists s'. unfold statusOf.
    by rewrite Ha'. }
  apply bind_Some in Hs as (a & Ha & Hs).
  apply (performAll_keeps
           (fun r => exists a' s', actions r !! id = Some a'
                                   /\ ActionState.status a' = Some s'
                                   /\ s' <> pending)
           (fun newState => ActionState.status newState <> Some pending));
    untouched_steps; [| | | | |by eexists _, _].
  - intros id' u Hu r0 (a0 & s1 & H0 & H1 & Hne1). unfold updateAction, modify.
    simpl. destruct (decide (id' = id)) as [->|Hd].
    + rewrite lookup_insert_eq, H0. simpl.
      destruct (ActionState.status u) as [s2|] eqn:Hs2.
      * exists (ActionState.spread a0 u), s2. simpl. rewrite Hs2.
        split_and!; [done|done|congruence].
      * exists (ActionState.spread a0 u), s1. simpl. by rewrite Hs2, H1.
    + rewrite lookup_insert_ne by done. by eexists _, _.
  - intros id' s0 Hs0 r0 (a0 & s1 & H0 & H1 & Hne1). unfold updateAction, modify.
    simpl. destruct (decide (id' = id)) as [->|Hd].
    + rewrite lookup_insert_eq, H0. by eexists _, _.
    + rewrite lookup_insert_ne by done. by eexists _, _.
  - intros id' msg r0 (a0 & s1 & H0 & H1 & Hne1). unfold updateAction, modify.
    simpl. destruct (decide (id' = id)) as [->|Hd].
    + rewrite lookup_insert_eq, H0. by eexists _, _.
    + rewrite lookup_insert_ne by done. by eexists _, _.
  - intros data r0 (a0 & s1 & H0 & H1 & Hne1). unfold addAction, bind, get.
    destruct (decide (actionId data = id)) as [Hd|Hd].
    + rewrite Hd, H0. destruct (decide _); [|by eexists _, _].
      unfold updateAction, modify. simpl. rewrite lookup_insert_eq, H0.
      eexists _, _. split; [done|]. simpl. by rewrite H1.
    + destruct (actions r0 !! actionId data) as [a1|] eqn:E.
      * destruct (decide _); [|by eexists _, _].
        unfold updateAction, modify. simpl. rewrite lookup_insert_ne by done.
        by eexists _, _.
      * simpl. rewrite lookup_insert_ne by done. by eexists _, _.
  - intros data isStreaming r0 (a0 & s1 & H0 & H1 & Hne1).
    unfold runActionSync, bind, get.
    destruct (decide (actionId data = id)) as [Hd|Hd].
    + rewrite Hd, H0. destruct (decide _); [by eexists _, _|].
      destruct (_ && _); [by eexists _, _|].
      unfold updateAction, modify. simpl. rewrite lookup_insert_eq, H0.
      eexists _, _. split; [done|]. simpl. by rewrite H1.
    + destruct (actions r0 !! actionId data) as [a1|] eqn:E; [|by eexists _, _].
      destruct (decide _); [by eexists _, _|].
      destruct (_ && _); [by eexists _, _|].
      unfold updateAction, modify. simpl. rewrite lookup_insert_ne by done.
      by eexists _, _.
Qed.

Lemma dispatched_action_is_never_pending_again_witness :
  let env := Fixture.env 1 "boom" false in
  let d := Fixture.data "a1" shell "ls" in
  let r := performAll env [Register d; Step] Fixture.runner in
  statusOf r "a1" = Some running
  /\ exists s', statusOf (performAll env
                            [Register d; Commit d false; Abort "a1";
                             Update "a1" (ActionState.withContent "pwd")] r)
                  "a1" = Some s' /\ s' <> pending.
Proof.
  intros env d r. split; [reflexivity|].
  apply (dispatched_action_is_never_pending_again env _ r "a1" running);
    [reflexivity|discriminate|by repeat constructor].
Defined.

(** ** One controller per action *)

(** An update that carries neither [abort] nor [abortSignal] keeps the
    controllers of the actions. *)
Lemma updateAction_ownControllers id u :
  ActionState.abort u = None -> ActionState.abortSignal u = None ->
  keeps ownControllers (updateAction id u).
Proof.
  intros Hab Hsig r (H1 & H2 & H3). unfold updateAction, modify. simpl.
  assert (Hsame : forall a0,
            ActionState.abort (ActionState.spread a0 u) = ActionState.abort a0
            /\ ActionState.abortSignal (ActionState.spread a0 u)
               = ActionState.abortSignal a0).
  { intros a0. simpl. by rewrite Hab, Hsig. }
  assert (Hlook : forall id0 a0,
            <[id := ActionState.spread (default ActionState.empty (actions r !! id)) u]>
              (actions r) !! id0 = Some a0 ->
            ActionState.abort a0 = None /\ ActionState.abortSignal a0 = None
            \/ exists a1, actions r !! id0 = Some a1
                 /\ ActionState.abort a0 = ActionState.abort a1
                 /\ ActionState.abortSignal a0 = ActionState.abortSignal a1).
  { intros id0 a0. destruct (decide (id = id0)) as [->|Hd].
    - rewrite lookup_insert_eq. intros [= <-].
      destruct (Hsame (default ActionState.empty (actions r !! id0))) as [-> ->].
      destruct (actions r !! id0) as [a1|]; [right; by eexists|by left].
    - rewrite lookup_insert_ne by done. intros Ha0. right. by eexists. }
  split_and!.
  - intros id0 a0 f Ha0 Hf. apply Hlook in Ha0 as [[Hn _]|(a1 & Ha1 & Hab1 & Hsig1)];
      [congruence|]. rewrite Hsig1. apply (H1 id0 a1 f Ha1). congruence.
  - intros id0 a0 k Ha0 Hk. apply Hlook in Ha0 as [[_ Hn]|(a1 & Ha1 & Hab1 & Hsig1)];
      [congruence|]. apply (H2 id0 a1 k Ha1). congruence.
  - intros id0 id1 a0 a1 k Ha0 Ha1 Hk0 Hk1.
    apply Hlook in Ha0 as [[_ Hn]|(b0 & Hb0 & _ & Hs0)]; [congruence|].
    apply Hlook in Ha1 as [[_ Hn]|(b1 & Hb1 & _ & Hs1)]; [congruence|].
    apply (H3 id0 id1 b0 b1 k Hb0 Hb1); congruence.
Qed.

(** An update of a stored action with parts of itself keeps them too. *)
Lemma updateAction_self_ownControllers id a u :
  ActionState.abort u = ActionState.abort a ->
  ActionState.abortSignal u = ActionState.abortSignal a ->
  forall r, actions r !! id = Some a -> ownControllers r ->
  ownControllers (after (updateAction id u r)).
Proof.
  intros Hab Hsig r Ha (H1 & H2 & H3). unfold updateAction, modify. simpl.
  rewrite Ha. simpl.
  assert (Hlook : forall id0 a0,
            <[id := ActionState.spread a u]> (actions r) !! id0 = Some a0 ->
            exists a1, actions r !! id0 = Some a1
                 /\ ActionState.abort a0 = ActionState.abort a1
                 /\ ActionState.abortSignal a0 = ActionState.abortSignal a1).
  { intros id0 a0. destruct (decide (id = id0)) as [->|Hd].
    - rewrite lookup_insert_eq. intros [= <-]. exists a. simpl.
      rewrite Hab, Hsig. split_and!; [done| |];
        [by destruct (ActionState.abort a)|by destruct (ActionState.abortSignal a)].
    - rewrite lookup_insert_ne by done. intros Ha0. by eexists. }
  split_and!.
  - intros id0 a0 f Ha0 Hf. apply Hlook in Ha0 as (a1 & Ha1 & Hab1 & Hsig1).
    rewrite Hsig1. apply (H1 id0 a1 f Ha1). congruence.
  - intros id0 a0 k Ha0 Hk. apply Hlook in Ha0 as (a1 & Ha1 & Hab1 & Hsig1).
    apply (H2 id0 a1 k Ha1). congruence.
  - intros id0 id1 a0 a1 k Ha0 Ha1 Hk0 Hk1.
    apply Hlook in Ha0 as (b0 & Hb0 & _ & Hs0).
    apply Hlook in Ha1 as (b1 & Hb1 & _ & Hs1).
    apply (H3 id0 id1 b0 b1 k Hb0 Hb1); congruence.
Qed.

Lemma addAction_ownControllers data : keeps ownControllers (addAction data).
Proof.
  intros r Hown. unfold addAction, bind, get.
  destruct (actions r !! actionId data) as [a|] eqn:Ha.
  - destruct (decide _); [|done].
    by apply (updateAction_self_ownControllers (actionId data) a).
  - destruct Hown as (H1 & H2 & H3). simpl.
    assert (Hlook : forall id0 a0,
              <[actionId data :=
                  ActionState.spread (ActionState.ofBolt (action data))
                    (ActionState.mk None None None (Some pending) None (Some false)
                       (Some {| abortController := length (controllers r);
                                abortTarget := actionId data |})
                       (Some (length (controllers r))))]> (actions r) !! id0
              = Some a0 ->
              (id0 = actionId data
               /\ ActionState.abort a0
                  = Some {| abortController := length (controllers r);
                            abortTarget := actionId data |}
               /\ ActionState.abortSignal a0 = Some (length (controllers r)))
              \/ (id0 <> actionId data /\ actions r !! id0 = Some a0)).
    { intros id0 a0. destruct (decide (actionId data = id0)) as [<-|Hd].
      - rewrite lookup_insert_eq. intros [= <-]. by left.
      - rewrite lookup_insert_ne by done. intros Ha0. right. by split. }
    split_and!.
    + intros id0 a0 f Ha0 Hf.
      apply Hlook in Ha0 as [(-> & Hab & Hsig)|[_ Ha0]]; [|by eapply H1].
      rewrite Hab in Hf. injection Hf as <-. by rewrite Hsig.
    + intros id0 a0 k Ha0 Hk.
      change (k < length (controllers r ++ [false])%list).
      rewrite length_app. simpl.
      apply Hlook in Ha0 as [(-> & Hab & Hsig)|[_ Ha0]].
      * rewrite Hsig in Hk. injection Hk as <-. lia.
      * pose proof (H2 id0 a0 k Ha0 Hk). lia.
    + intros id0 id1 a0 a1 k Ha0 Ha1 Hk0 Hk1.
      apply Hlook in Ha0 as [(-> & _ & Hs0)|[Hd0 Ha0]];
        apply Hlook in Ha1 as [(-> & _ & Hs1)|[Hd1 Ha1]]; try done.
      * rewrite Hs0 in Hk0. injection Hk0 as <-.
        pose proof (H2 id1 a1 _ Ha1 Hk1). lia.
      * rewrite Hs1 in Hk1. injection Hk1 as <-.
        pose proof (H2 id0 a0 _ Ha0 Hk0). lia.
      * by eapply H3.
Qed.

Lemma runActionSync_ownControllers data isStreaming :
  keeps ownControllers (runActionSync data isStreaming).
Proof.
  intros r Hown. unfold runActionSync, bind, get.
  destruct (actions r !! actionId data) as [a|] eqn:Ha; [|done].
  destruct (decide _); [done|]. destruct (_ && _); [done|].
  change (ownControllers
            (after (updateAction (actionId data)
                      (ActionState.spread
                         (ActionState.spread a (ActionState.ofBolt (action data)))
                         (ActionState.withExecuted (negb isStreaming))) r))).
  apply (updateAction_self_ownControllers (actionId data) a); try done; simpl.
  all: by destruct (ActionState.abort a), (ActionState.abortSignal a).
Qed.

(** Every runner of a run has one controller per action, as long as no
    update from outside writes an abort closure or a signal. *)
Lemma performAll_ownControllers env evs toolCalls0 onAlert0 :
  updatesWith (fun newState => ActionState.abort newState = None
                               /\ ActionState.abortSignal newState = None) evs ->
  ownControllers (performAll env evs (newRunner toolCalls0 onAlert0)).
Proof.
  intros Hevs.
  apply (performAll_keeps ownControllers
           (fun newState => ActionState.abort newState = None
                            /\ ActionState.abortSignal newState = None));
    untouched_steps.
  - intros id u [Hab Hsig]. by apply updateAction_ownControllers.
  - intros id s _. by apply updateAction_ownControllers.
  - intros id msg. by apply updateAction_ownControllers.
  - intros k r (H1 & H2 & H3). split_and!; simpl; try done.
    intros id a k0 Ha Hk. rewrite length_insert. by eapply H2.
  - apply addAction_ownControllers.
  - apply runActionSync_ownControllers.
Qed.

Lemma abortAction_registered id a f r :
  actions r !! id = Some a -> ActionState.abort a = Some f ->
  abortAction id r = callAbort f r.
Proof.
  intros Ha Hab. unfold abortAction, bind, get. rewrite Ha. simpl.
  by rewrite Hab.
Qed.

(** X26.  In every run of the runner from its creation in which no call of
    [updateAction] from outside writes an abort closure or a signal,
    aborting a registered action fires the signal of this action and marks
    it [aborted], and it touches no other action: their signals and their
    statuses are as before. *)
Theorem abort_cancels_one_action env evs toolCalls0 onAlert0 id a k :
  updatesWith (fun newState => ActionState.abort newState = None
                               /\ ActionState.abortSignal newState = None) evs ->
  let r := performAll env evs (newRunner toolCalls0 onAlert0) in
  actions r !! id = Some a ->
  ActionState.abort a = Some {| abortController := k; abortTarget := id |} ->
  let r' := after (abortAction id r) in
  ActionState.abortSignal a = Some k
  /\ signalAborted r' k = true
  /\ statusOf r' id = Some aborted
  /\ (forall id' a' k',
        id' <> id -> actions r !! id' = Some a' ->
        ActionState.abortSignal a' = Some k' ->
        signalAborted r' k' = signalAborted r k'
        /\ actions r' !! id' = Some a').
Proof.
  intros Hevs r Ha Hab r'.
  destruct (performAll_ownControllers env evs toolCalls0 onAlert0 Hevs)
    as (H1 & H2 & H3). fold r in H1, H2, H3.
  destruct (H1 id a _ Ha Hab) as [_ Hsig]. simpl in Hsig.
  pose proof (H2 id a k Ha Hsig) as Hk.
  subst r'. rewrite (abortAction_registered id a _ r Ha Hab).
  unfold callAbort, bind, updateAction, modify. simpl.
  split_and!.
  - done.
  - unfold signalAborted. simpl. by rewrite list_lookup_insert_eq.
  - unfold statusOf. simpl. by rewrite lookup_insert_eq.
  - intros id' a' k' Hd Ha' Hk'. split.
    + unfold signalAborted. simpl. rewrite list_lookup_insert_ne; [done|].
      intros <-. apply Hd. by apply (H3 id' id a' a k).
    + by rewrite lookup_insert_ne.
Qed.

Lemma abort_cancels_one_action_witness :
  let env := Fixture.env 0 "ok" false in
  let evs := [Register (Fixture.data "a1" shell "ls");
              Register (Fixture.data "a2" shell "pwd");
              Update "a2" (ActionState.withContent "pwd -P")] in
  let r' := after (abortAction "a2" (performAll env evs (newRunner ∅ true))) in
  signalAborted r' 1 = true /\ signalAborted r' 0 = false
  /\ statusOf r' "a1" = Some pending.
Proof.
  intros env evs r'.
  destruct (abort_cancels_one_action env evs ∅ true "a2"
              (ActionState.mk (Some shell) (Some "pwd -P") None (Some pending) None
                 (Some false)
                 (Some {| abortController := 1; abortTarget := "a2" |}) (Some 1))
              1 ltac:(by repeat constructor) eq_refl eq_refl)
    as (_ & Hfired & _ & Hother).
  destruct (Hother "a1"
              (ActionState.mk (Some shell) (Some "ls") None (Some pending) None
                 (Some false)
                 (Some {| abortController := 0; abortTarget := "a1" |}) (Some 0))
              0 ltac:(discriminate) eq_refl eq_refl) as [Hsig Hact].
  split_and!; [exact Hfired|etransitivity; [exact Hsig|reflexivity]|].
  unfold statusOf. etransitivity; [exact (f_equal (.≫= ActionState.status) Hact)|].
  reflexivity.
Defined.

(** ** Registration and updates *)

(** X1.  Registering an identifier again never makes a second action.  With
    the content the store already holds, the runner is left as it is; with
    another content, only the content of the stored action changes, whatever
    its status: its type, status, executed mark and abort controller stay,
    nothing is chained and the other actions are untouched. *)
Theorem addAction_again_updates_content data r a :
  actions r !! actionId data = Some a ->
  let out := addAction data r in
  (ActionState.content a = Some (BoltAction.content (action data)) ->
   out = (Normal tt, r))
  /\ (ActionState.content a <> Some (BoltAction.content (action data)) ->
      result out = Normal tt
      /\ actions (after out)
         = <[actionId data :=
               ActionState.mk (ActionState.type a)
                 (Some (BoltAction.content (action data)))
                 (ActionState.filePath a) (ActionState.status a)
                 (ActionState.error a) (ActionState.executed a)
                 (ActionState.abort a) (ActionState.abortSignal a)]> (actions r)
      /\ chain (after out) = chain r
      /\ controllers (after out) = controllers r
      /\ calls (after out) = calls r).
Proof.
  intros Ha out. subst out. unfold addAction, bind, get. rewrite Ha. split.
  - intros Hc. by rewrite decide_False by (intros H; by apply H).
  - intros Hc. rewrite decide_True by done.
    unfold updateAction, modify. simpl. rewrite Ha. simpl.
    split_and!; try done. f_equal. destruct a as [ty c fp st er ex ab sg]. simpl.
    by destruct ty, fp, st, er, ex, ab, sg.
Qed.

Lemma addAction_again_updates_content_witness :
  let env := Fixture.env 0 "ok" false in
  let r := performAll env [Register (Fixture.data "a1" file "export");
                           Commit (Fixture.data "a1" file "export") false]
             Fixture.runner in
  statusOf r "a1" = Some complete
  /\ actions (after (addAction (Fixture.data "a1" shell "export {}") r)) !! "a1"
     = Some (ActionState.mk (Some file) (Some "export {}") None (Some complete)
               None (Some true)
               (Some {| abortController := 0; abortTarget := "a1" |}) (Some 0)).
Proof.
  intros env r. split; [reflexivity|].
  destruct (addAction_again_updates_content (Fixture.data "a1" shell "export {}") r
              (ActionState.mk (Some file) (Some "export") None (Some complete)
                 None (Some true)
                 (Some {| abortController := 0; abortTarget := "a1" |}) (Some 0))
              eq_refl) as [_ H].
  destruct H as (_ & Hact & _); [discriminate|].
  rewrite Hact. apply lookup_insert_eq.
Defined.

(** X2.  Registering a new identifier stores the action as pending and not
    executed, with the type, content and path it came with, and gives it an
    abort controller of its own that has not fired: the controllers that
    were there keep their state.  One callback is chained, the one that
    marks the action as running; the other actions are untouched and the
    sandbox is not called. *)
Theorem new_action_is_registered_pending data r :
  actions r !! actionId data = None ->
  let out := addAction data r in
  result out = Normal tt
  /\ actions (after out)
     = <[actionId data :=
           ActionState.mk (Some (BoltAction.type (action data)))
             (Some (BoltAction.content (action data)))
             (BoltAction.filePath (action data)) (Some pending) None (Some false)
             (Some {| abortController := length (controllers r);
                      abortTarget := actionId data |})
             (Some (length (controllers r)))]> (actions r)
  /\ controllers (after out) = (controllers r ++ [false])%list
  /\ chain (after out) = (chain r ++ [MarkRunning (actionId data)])%list
  /\ calls (after out) = calls r.
Proof.
  intros Hnew out. subst out. unfold addAction, bind, get, modify. rewrite Hnew.
  by split_and!.
Qed.

Lemma new_action_is_registered_pending_witness :
  let r := after (addAction (Fixture.data "a1" shell "ls") Fixture.runner) in
  let out := addAction (Fixture.data "a2" file "export {}") r in
  statusOf (after out) "a2" = Some pending
  /\ statusOf (after out) "a1" = Some pending
  /\ controllers (after out) = [false; false]
  /\ chain (after out) = [MarkRunning "a1"; MarkRunning "a2"].
Proof.
  intros r out.
  destruct (new_action_is_registered_pending (Fixture.data "a2" file "export {}") r
              eq_refl) as (_ & Hact & Hctl & Hchain & _).
  unfold statusOf. fold out in Hact. rewrite Hact. by split_and!.
Defined.

Lemma spread_assoc (a b c : ActionState.t) :
  ActionState.spread (ActionState.spread a b) c
  = ActionState.spread a (ActionState.spread b c).
Proof.
  destruct a as [t1 c1 f1 s1 e1 x1 b1 g1], b as [t2 c2 f2 s2 e2 x2 b2 g2],
    c as [t3 c3 f3 s3 e3 x3 b3 g3].
  unfold ActionState.spread. simpl.
  f_equal; by match goal with |- context [ActionState.over ?x _] => destruct x end.
Qed.

(** X3.  Updates of an action merge: two updates in a row leave the runner
    as the one update with both objects spread together does, the later
    object first in rank, also on an identifier that is not known. *)
Theorem updateAction_merges id u1 u2 r :
  updateAction id u2 (after (updateAction id u1 r))
  = updateAction id (ActionState.spread u1 u2) r.
Proof.
  unfold updateAction, modify. simpl. f_equal.
  rewrite lookup_insert_eq. simpl. rewrite spread_assoc.
  destruct r as [acts ctl ch la tc bo oa al lo ca]. unfold setActions. simpl.
  f_equal. apply insert_insert_eq.
Qed.

(** ** The order of the chain *)

(** X27.  The execution chain is first in, first out: the callback at
    position [n] of the chain runs at step [n + 1], on the runner as the [n]
    callbacks before it left it, and the callbacks after it are still
    chained, in their order. *)
Theorem chain_runs_in_order env r n t :
  chain r !! n = Some t ->
  steps env (S n) r
  = runTask env t (setChain (fun _ => drop (S n) (chain r)) (after (steps env n r))).
Proof.
  intros Ht. replace (S n) with (n + 1) at 1 by lia. rewrite steps_add.
  set (r' := after (steps env n r)).
  assert (Hr' : chain r' = t :: drop (S n) (chain r)).
  { unfold r'. rewrite steps_chain. by apply drop_S. }
  simpl steps. unfold bind. rewrite (step_head env r' t _ Hr').
  by destruct (runTask env t _) as [[[]|e] r''].
Qed.

Lemma chain_runs_in_order_witness :
  let env := Fixture.env 0 "ok" false in
  let r := performAll env [Register (Fixture.data "a1" npmInstall "npm install");
                           Register (Fixture.data "a2" npmInstall "npm install zod");
                           Enqueue (Fixture.data "a2" npmInstall "npm install zod") false;
                           Enqueue (Fixture.data "a1" npmInstall "npm install") false]
             Fixture.runner in
  chain r = [MarkRunning "a1"; MarkRunning "a2"; Unit "a2" false; Unit "a1" false]
  /\ calls (after (steps env 3 r))
     = [ExecuteCommand "1700000000000" (Some "npm install  zod")]
  /\ chain (after (steps env 3 r)) = [Unit "a1" false].
Proof.
  intros env r. split; [reflexivity|].
  rewrite (chain_runs_in_order env r 2 (Unit "a2" false) eq_refl).
  split; reflexivity.
Defined.

(** ** Commits of a file *)

Lemma runFileAction_settles env a r wc rel :
  ActionState.type a = Some file ->
  webcontainer env = Resolves wc ->
  relative env (Sandbox.workdir wc) (ActionState.filePath a) = Resolves rel ->
  let folder := Js.stripTrailingSlashes (dirname env rel) in
  runFileAction env a r
  = (Normal tt,
     setLogged
       (fun l => (l ++ (if String.eqb folder "." then []
                        else failureLog "Failed to create folder"
                               (Sandbox.mkdir wc folder))
                    ++ failureLog "Failed to write file"
                         (Sandbox.writeFile wc rel (ActionState.content a)))%list)
       (setCalls
          (fun l => (l ++ (if String.eqb folder "." then [] else [Mkdir folder])
                       ++ [WriteFile rel (ActionState.content a)])%list) r)).
Proof.
  intros Hty Hwc Hrel folder. unfold runFileAction.
  destruct (decide (ActionState.type a <> Some file)); [done|].
  rewrite Hwc. unfold bind at 1. simpl await. unfold ret at 1. rewrite Hrel.
  unfold bind at 1. simpl await. unfold ret at 1. fold folder.
  unfold bind, tryCatch, called, loggerError, modify.
  destruct r as [acts ctl ch la tc bo oa al lo ca].
  destruct (String.eqb folder "."); simpl;
    destruct (Sandbox.writeFile wc rel (ActionState.content a)) as [[]|];
    simpl;
    try (destruct (Sandbox.mkdir wc folder) as [[]|]; simpl);
    unfold setLogged, setCalls; simpl; rewrite <- ?app_assoc, ?app_nil_r;
    reflexivity.
Qed.

(** [#executeAction] when the strategy of the action returns and the switch
    is left by [break]. *)
Lemma executeAction_strategy_breaks env id isStreaming r a k r1 :
  actions r !! id = Some a ->
  ActionState.abortSignal a = Some k ->
  runStrategy env id a
    (after (updateAction id (ActionState.withStatus running) r)) = (Normal true, r1) ->
  executeAction env id isStreaming r
  = updateAction id
      (ActionState.withStatus
         (if isStreaming then running
          else if signalAborted r1 k then aborted else complete)) r1.
Proof.
  intros Ha Hsig Hrun. unfold executeAction. unfold bind at 1, get. rewrite Ha.
  unfold bind at 1.
  destruct (updateAction id (ActionState.withStatus running) r) as [[[]|e0] r0] eqn:E;
    [|done].
  unfold tryCatch, bind. simpl in *. rewrite Hrun. destruct isStreaming; [done|].
  unfold abortSignalAborted, bind, get. simpl. by rewrite Hsig.
Qed.

(** X28.  A commit of a file on an idle chain writes the content that the
    commit carries, not the one the action was registered with, at the path
    of the commit or else of the registration.  A streaming commit leaves
    the action [running] and not executed, so that it can be committed
    again; the commit that is not streaming marks it executed and
    [complete], or [aborted] when its signal has fired.  Nothing is
    alerted, whatever the sandbox answers. *)
Theorem file_commit_writes_committed_content env data isStreaming r a k wc rel :
  chain r = [] ->
  actions r !! actionId data = Some a ->
  BoltAction.type (action data) = file ->
  (isStreaming = false \/ ActionState.type a = Some file) ->
  ActionState.executed a <> Some true ->
  ActionState.abortSignal a = Some k ->
  webcontainer env = Resolves wc ->
  relative env (Sandbox.workdir wc)
    (ActionState.over (BoltAction.filePath (action data)) (ActionState.filePath a))
  = Resolves rel ->
  let folder := Js.stripTrailingSlashes (dirname env rel) in
  let out := runAction env data isStreaming r in
  result out = Normal tt
  /\ calls (after out)
     = (calls r ++ (if String.eqb folder "." then [] else [Mkdir folder])
        ++ [WriteFile rel (Some (BoltAction.content (action data)))])%list
  /\ (exists a',
        actions (after out) !! actionId data = Some a'
        /\ ActionState.content a' = Some (BoltAction.content (action data))
        /\ ActionState.executed a' = Some (negb isStreaming)
        /\ ActionState.status a'
           = Some (if isStreaming then running
                   else if signalAborted r k then aborted else complete))
  /\ chain (after out) = []
  /\ alerts (after out) = alerts r.
Proof.
  intros Hchain Ha Hty Hs Hex Hsig Hwc Hrel folder out.
  assert (Hout : out = runAction env data isStreaming r) by done. clearbody out.
  unfold runAction in Hout. unfold bind at 1 in Hout.
  rewrite (runActionSync_queues data isStreaming r a Ha Hex Hs) in Hout.
  cbv iota in Hout.
  match type of Hout with
  | _ = drain _ ?r1 =>
      rewrite (drain_last env r1 [] (Unit (actionId data) isStreaming)) in Hout
        by (simpl; by rewrite Hchain)
  end.
  simpl steps in Hout. unfold ret at 1 in Hout. simpl after in Hout.
  set (a2 := ActionState.spread a
               (ActionState.spread
                  (ActionState.spread a (ActionState.ofBolt (action data)))
                  (ActionState.withExecuted (negb isStreaming)))) in *.
  match type of Hout with
  | _ = runTask _ _ ?x => set (r2 := x) in *
  end.
  assert (Ha2 : actions r2 !! actionId data = Some a2).
  { unfold r2. simpl. by rewrite lookup_insert_eq. }
  assert (Hty2 : ActionState.type a2 = Some file).
  { unfold a2. simpl. by rewrite Hty. }
  assert (Hsig2 : ActionState.abortSignal a2 = Some k).
  { unfold a2. simpl. by rewrite Hsig. }
  assert (Hfp2 : ActionState.filePath a2
                 = ActionState.over (BoltAction.filePath (action data))
                     (ActionState.filePath a)).
  { unfold a2. simpl. by destruct (BoltAction.filePath (action data)),
      (ActionState.filePath a). }
  assert (Hc2 : ActionState.content a2 = Some (BoltAction.content (action data))).
  { done. }
  rewrite <- Hfp2 in Hrel.
  set (r3 := after (updateAction (actionId data) (ActionState.withStatus running) r2)).
  pose proof (runFileAction_settles env a2 r3 wc rel Hty2 Hwc Hrel) as Hfile.
  fold folder in Hfile. rewrite Hc2 in Hfile.
  assert (Hrun : runStrategy env (actionId data) a2 r3
                 = (Normal true, after (runFileAction env a2 r3))).
  { unfold runStrategy. rewrite Hty2. unfold bind. by rewrite Hfile. }
  simpl runTask in Hout. unfold tryCatch in Hout.
  rewrite (executeAction_strategy_breaks env _ isStreaming r2 a2 k _ Ha2 Hsig2 Hrun)
    in Hout.
  rewrite Hfile in Hout. subst out. simpl.
  split_and!; try done.
  rewrite !lookup_insert_eq. simpl.
  eexists. split; [reflexivity|]. simpl. by split_and!.
Qed.

Lemma file_commit_writes_committed_content_witness :
  let env := Fixture.env 0 "ok" false in
  let d := fun c => {| actionId := "f1";
                       action := BoltAction.mk file c (Some "src/a.ts") |} in
  let r := performAll env [Register (d "v1"); Commit (d "v1") true;
                           Register (d "v1 v2")] Fixture.runner in
  let out := runAction env (d "v1 v2") false r in
  statusOf r "f1" = Some running
  /\ calls (after out)
     = [WriteFile "src/a.ts" (Some "v1"); WriteFile "src/a.ts" (Some "v1 v2")]
  /\ statusOf (after out) "f1" = Some complete.
Proof.
  intros env d r out. split; [reflexivity|].
  destruct (file_commit_writes_committed_content env (d "v1 v2") false r
              (ActionState.mk (Some file) (Some "v1 v2") (Some "src/a.ts")
                 (Some running) None (Some false)
                 (Some {| abortController := 0; abortTarget := "f1" |}) (Some 0))
              0 (Fixture.sandboxWith ["ok"] 0) "src/a.ts"
              eq_refl eq_refl eq_refl (or_introl eq_refl) ltac:(discriminate)
              eq_refl eq_refl eq_refl)
    as (_ & Hcalls & (a' & Ha' & _ & _ & Hst) & _).
  split; [exact Hcalls|].
  unfold statusOf.
  etransitivity; [exact (f_equal (fun o => o ≫= ActionState.status) Ha')|exact Hst].
Defined.

(** ** The file history *)

(** X29.  Reading the history of a file never raises.  When the sandbox is
    there, the file under [".history"] can be read and its content parses,
    the result is the parsed value, a history or [null] for a file that
    holds [null], and the runner is as it was, with nothing logged.  When
    one of these three steps fails, the result is [null] and the error is
    logged, once.  So a history is only ever returned from the content of
    the file, and [null] alone does not tell a failure from a file that
    holds [null]. *)
Theorem getFileHistory_never_raises {H} env (io : HistoryStore H) filePath r :
  let out := getFileHistory env io filePath r in
  let path := pathJoin env ".history" filePath in
  (exists v, result out = Normal v)
  /\ (forall wc content v,
        webcontainer env = Resolves wc ->
        readFile io wc path "utf-8" = Resolves content ->
        JSON_parseHistory io content = Resolves v ->
        out = (Normal v, r))
  /\ (forall n m,
        webcontainer env = Rejects n m
        \/ (exists wc, webcontainer env = Resolves wc
                       /\ readFile io wc path "utf-8" = Rejects n m)
        \/ (exists wc content,
              webcontainer env = Resolves wc
              /\ readFile io wc path "utf-8" = Resolves content
              /\ JSON_parseHistory io content = Rejects n m) ->
        out = (Normal None,
               setLogged
                 (fun l => (l ++ [LoggerError "Failed to get file history:"
                                    (Some (Js.PlainError n m))])%list) r))
  /\ (forall h,
        result out = Normal (Some h) ->
        exists wc content,
          webcontainer env = Resolves wc
          /\ readFile io wc path "utf-8" = Resolves content
          /\ JSON_parseHistory io content = Resolves (Some h)).
Proof.
  intros out path.
  assert (Hout : out = getFileHistory env io filePath r) by done. clearbody out.
  unfold getFileHistory, getHistoryPath, tryCatch, bind, loggerError, modify, ret
    in Hout.
  fold path in Hout.
  destruct (webcontainer env) as [wc|n m] eqn:Hwc; simpl in Hout.
  - destruct (readFile io wc path "utf-8") as [content|n m] eqn:Hread;
      simpl in Hout.
    + destruct (JSON_parseHistory io content) as [v|n m] eqn:Hp; simpl in Hout;
        subst out; split_and!.
      * by eexists.
      * intros wc' c' v' [= <-] Hread' Hp'. rewrite Hread in Hread'.
        injection Hread' as <-. rewrite Hp in Hp'. by injection Hp' as <-.
      * intros n m [[=]|[(wc' & [= <-] & Hread')|(wc' & c' & [= <-] & Hread' & Hp')]].
        -- by rewrite Hread in Hread'.
        -- rewrite Hread in Hread'. injection Hread' as <-. by rewrite Hp in Hp'.
      * intros h [= ->]. by exists wc, content.
      * by eexists.
      * intros wc' c' v' [= <-] Hread' Hp'. rewrite Hread in Hread'.
        injection Hread' as <-. by rewrite Hp in Hp'.
      * intros n' m' [[=]|[(wc' & [= <-] & Hread')|(wc' & c' & [= <-] & Hread' & Hp')]].
        -- by rewrite Hread in Hread'.
        -- rewrite Hread in Hread'. injection Hread' as <-. rewrite Hp in Hp'.
           by injection Hp' as <- <-.
      * done.
    + subst out; split_and!.
      * by eexists.
      * intros wc' c' v' [= <-] Hread'. by rewrite Hread in Hread'.
      * intros n' m' [[=]|[(wc' & [= <-] & Hread')|(wc' & c' & [= <-] & Hread' & _)]].
        -- rewrite Hread in Hread'. by injection Hread' as <- <-.
        -- by rewrite Hread in Hread'.
      * done.
  - subst out; split_and!.
    + by eexists.
    + by intros wc' c' v' [=].
    + intros n' m' [[= <- <-]|[(wc' & [=] & _)|(wc' & c' & [=] & _)]]. done.
    + done.
Qed.

Lemma getFileHistory_never_raises_witness :
  let io := {| readFile := fun _ _ _ => Resolves "null";
               JSON_parseHistory := fun s : string =>
                 if String.eqb s "null" then Resolves None else Resolves (Some s);
               JSON_stringify := fun s : string => s |} in
  let env := Fixture.env 0 "ok" false in
  getFileHistory env io "src/a.ts" Fixture.runner = (Normal None, Fixture.runner).
Proof.
  intros io env.
  destruct (getFileHistory_never_raises env io "src/a.ts" Fixture.runner)
    as (_ & Hread & _).
  exact (Hread (Fixture.sandboxWith ["ok"] 0) "null" None eq_refl eq_refl eq_refl).
Defined.

(** X30.  Saving the history of a file goes through the file strategy: once
    the sandbox is there and the path is resolved, it never raises, and it
    asks the sandbox to write the serialized history at the path of the
    file under [".history"], made relative to the working directory.  A
    write that fails is only logged. *)
Theorem saveFileHistory_writes_under_history {H} env (io : HistoryStore H)
    filePath history r wc rel :
  webcontainer env = Resolves wc ->
  relative env (Sandbox.workdir wc) (Some (pathJoin env ".history" filePath))
  = Resolves rel ->
  let folder := Js.stripTrailingSlashes (dirname env rel) in
  let out := saveFileHistory env io filePath history r in
  result out = Normal tt
  /\ calls (after out)
     = (calls r ++ (if String.eqb folder "." then [] else [Mkdir folder])
        ++ [WriteFile rel (Some (JSON_stringify io history))])%list
  /\ logged (after out)
     = (logged r
        ++ (if String.eqb folder "." then []
            else failureLog "Failed to create folder" (Sandbox.mkdir wc folder))
        ++ failureLog "Failed to write file"
             (Sandbox.writeFile wc rel (Some (JSON_stringify io history))))%list
  /\ actions (after out) = actions r
  /\ alerts (after out) = alerts r.
Proof.
  intros Hwc Hrel folder out. subst out. unfold saveFileHistory, getHistoryPath.
  rewrite (runFileAction_settles env
             (ActionState.mk (Some file) (Some (JSON_stringify io history))
                (Some (pathJoin env ".history" filePath)) None None None None None)
             r wc rel eq_refl Hwc Hrel).
  by split_and!.
Qed.

Lemma saveFileHistory_writes_under_history_witness :
  let wc := {| Sandbox.workdir := "/home/project";
               Sandbox.mkdir := fun _ => Resolves tt;
               Sandbox.writeFile := fun _ _ => Rejects "Error" "ENOSPC";
               Sandbox.spawn := fun _ _ => Rejects "Error" "no" |} in
  let env := {| runnerId := "1";
                webcontainer := Resolves wc;
                getShellTerminal := Fixture.shellWith 0 "ok" false;
                relative := fun _ p => Resolves (default "undefined" p);
                dirname := fun _ => ".history/src";
                pathJoin := fun a b => a +:+ "/" +:+ b;
                JSON_parse := fun _ => Rejects "SyntaxError" "no";
                editorToolParameters_parse := fun s => Resolves s;
                editor := fun s => Resolves s;
                bashToolParameters_parse := fun s => Resolves s |} in
  let io := {| readFile := fun _ _ _ => Rejects "Error" "ENOENT";
               JSON_parseHistory := fun s => Resolves (Some s);
               JSON_stringify := fun s : string => s |} in
  let out := saveFileHistory env io "src/a.ts" "{}" Fixture.runner in
  result out = Normal tt
  /\ calls (after out)
     = [Mkdir ".history/src"; WriteFile ".history/src/a.ts" (Some "{}")]
  /\ logged (after out)
     = [LoggerError ("Failed to write file" +:+ Js.nl +:+ Js.nl)
          (Some (Js.PlainError "Error" "ENOSPC"))].
Proof.
  intros wc env io out.
  destruct (saveFileHistory_writes_under_history env io "src/a.ts" "{}"
              Fixture.runner wc ".history/src/a.ts" eq_refl eq_refl)
    as (Hres & Hcalls & Hlog & _).
  by split_and!.
Defined.
